(** * SOS (SKA Observation Simulator): cosmology, coordinates, validators

    A shallow embedding of

      - [sos/constants.py],
      - [sos/utils/validators.py] (the validators of values and of
        strings; the two that look at the file system are left out),
      - [sos/core/image_maker.py] ([CosmologyCalculator], and
        [ImageMaker.create_model_sky]),
      - [sos/utils/coordinates.py] (the sexagesimal codec),
      - [sos/config/config_loader.py] ([ConfigLoader.get],
        [_validate_config], [create_default_config]),

    with the properties of the specification stated against it.

    Python's [float] is an IEEE 754 binary64 number.  The functions are
    written once, over an interface [FloatArith] of the float operations
    they use, and the interface has two instances:

      - [binary64]: Rocq's primitive floats, that is the arithmetic
        Python performs, bit for bit;
      - [exactQ]: rationals with exact arithmetic, an idealisation that
        shows what the formulas give apart from rounding; what holds
        there need not hold of the floats.

    Exceptions are values of an error monad [result]. *)

From Stdlib Require Import ZArith QArith Qround Qabs Floats Lia Lqa Bool Ascii String.
From stdpp Require Import gmap strings.

Set Warnings "-inexact-float,-register-all".

Local Open Scope Z_scope.

(** ** Exceptions and the error monad *)

(** The built-in exceptions the modelled code can raise.  [ValueError]
    carries the constant part of its message, which tells the [raise]
    sites apart; the specification's [DomainError], [FormatError] and
    [ValidationError] are all [ValueError] in the code. *)
Inductive exn : Type :=
  | AttributeError (name : string)
  | ValueError (msg : string)
  | TypeError
  | ZeroDivisionError
  | OverflowError.

Inductive result (A : Type) : Type :=
  | Ok (a : A)
  | Raise (e : exn).
Arguments Ok {A} a.
Arguments Raise {A} e.

(** A raised exception passes through what follows. *)
Definition bind {A B} (r : result A) (k : A -> result B) : result B :=
  match r with
  | Ok a => k a
  | Raise e => Raise e
  end.

Notation "'let*' x ':=' r 'in' k" := (bind r (fun x => k))
  (at level 10, x name, r at level 100, k at level 200,
   format "'[v' 'let*'  x  ':='  r  'in' '/' k ']'").

Definition is_ValueError {A} (r : result A) : Prop :=
  exists msg, r = Raise (ValueError msg).

Definition returns {A} (r : result A) : Prop := exists a, r = Ok a.

(** How a call that imports the CASA toolkit ends: as a call that does
    not, or in the [ImportError] raised outside CASA. *)
Inductive outcome (A : Type) : Type :=
  | Finished (r : result A)
  | ImportFailed.
Arguments Finished {A} r.
Arguments ImportFailed {A}.

(** ** The float interface *)

(** What a float is worth: not a number, an infinity, or a rational. *)
Inductive fclass : Type :=
  | FNan
  | FInf (negative : bool)
  | FFin (q : Q).

(** The order of the values: none with a NaN; an infinity is beyond
    every rational. *)
Definition fclass_compare (a b : fclass) : option comparison :=
  match a, b with
  | FNan, _ | _, FNan => None
  | FInf s1, FInf s2 =>
      Some (if s1 then (if s2 then Eq else Lt) else (if s2 then Gt else Eq))
  | FInf s, FFin _ => Some (if s then Lt else Gt)
  | FFin _, FInf s => Some (if s then Gt else Lt)
  | FFin p, FFin q => Some (p ?= q)%Q
  end.

Class FloatArith (F : Type) : Type := {
  fadd : F -> F -> F;
  fsub : F -> F -> F;
  fmul : F -> F -> F;
  (** the IEEE quotient; Python's [/] guards it, see [fdiv] *)
  fquot : F -> F -> F;
  fabs : F -> F;
  fopp : F -> F;
  fltb : F -> F -> bool;
  fleb : F -> F -> bool;
  feqb : F -> F -> bool;
  (** the sign bit, which a zero has too *)
  signbit : F -> bool;
  (** the exact value *)
  classify : F -> fclass;
  (** the float nearest to a rational: a literal of the source text, the
      conversion of an [int], the result of [float(str)] *)
  of_Q : Q -> F;
  (** [float("inf")] and [float("nan")], where the arithmetic has them *)
  finf : option F;
  fnan : option F
}.

(** *** Exact rationals *)

(** The arithmetic in which every operation is exact: no rounding, no
    signed zero, no infinity, no NaN.  The code does not compute with
    it; a statement at this instance says what the formulas of the code
    give apart from the rounding of binary64, and nothing about a
    float. *)

Definition Qltb (x y : Q) : bool := negb (Qle_bool y x).

#[global] Instance exactQ : FloatArith Q := {
  fadd x y := Qred (x + y);
  fsub x y := Qred (x - y);
  fmul x y := Qred (x * y);
  fquot x y := Qred (x / y);
  fabs x := Qabs x;
  fopp x := Qopp x;
  fltb := Qltb;
  fleb := Qle_bool;
  feqb := Qeq_bool;
  signbit x := Qltb x 0;
  classify x := FFin x;
  of_Q x := Qred x;
  finf := None;
  fnan := None
}.

(** *** IEEE 754 binary64 *)

(** The integer nearest to [n / d], ties to even ([0 <= n], [0 < d]). *)
Definition round_half_even (n d : Z) : Z :=
  let q := n / d in
  match (2 * (n mod d) ?= d) with
  | Lt => q
  | Gt => q + 1
  | Eq => if Z.even q then q else q + 1
  end.

(** Correctly rounded conversion of a rational, as CPython does it for a
    literal and in [float(str)]: the significand is [n / (d * 2^e)]
    rounded to an integer below [2^53] (or at [2^53]), with [e] not under
    the subnormal exponent [-1074]; too large a value gives an infinity. *)
Definition Q_to_binary64 (q : Q) : float :=
  let n := Z.abs (Qnum q) in
  let d := Zpos (Qden q) in
  if n =? 0 then 0%float else
  let k := Z.log2 n - Z.log2 d in
  let below := if 0 <=? k then n <? d * 2 ^ k else n * 2 ^ (- k) <? d in
  let e := Z.max (if below then k - 53 else k - 52) (-1074) in
  let m := if 0 <=? e then round_half_even n (d * 2 ^ e)
           else round_half_even (n * 2 ^ (- e)) d in
  let x := Z.ldexp (PrimFloat.of_uint63 (Uint63.of_Z m)) e in
  if Qnum q <? 0 then PrimFloat.opp x else x.

(** The rational [m * 2^e]. *)
Definition finite_value (m : positive) (e : Z) : Q :=
  if 0 <=? e then (Zpos m * 2 ^ e) # 1
  else Zpos m # Z.to_pos (2 ^ (- e)).

(** The integer [m * 2^(e + 1074)]: the value in units of the smallest
    subnormal, [2^-1074]. *)
Definition scaled (m : positive) (e : Z) : Z := Zpos m * 2 ^ (e + 1074).

Definition SF_scaled (x : spec_float) : Z :=
  match x with
  | S754_finite s m e => if s then - scaled m e else scaled m e
  | _ => 0
  end.

Definition SF_classify (x : spec_float) : fclass :=
  match x with
  | S754_zero _ => FFin 0
  | S754_infinity s => FInf s
  | S754_nan => FNan
  | S754_finite s m e =>
      let v := finite_value m e in
      FFin (Qred (if s then Qopp v else v))
  end.

Definition binary64_classify (x : float) : fclass :=
  SF_classify (Prim2SF x).

Definition binary64_signbit (x : float) : bool :=
  match Prim2SF x with
  | S754_zero s | S754_infinity s | S754_finite s _ _ => s
  | S754_nan => false
  end.

#[global] Instance binary64 : FloatArith float := {
  fadd := PrimFloat.add;
  fsub := PrimFloat.sub;
  fmul := PrimFloat.mul;
  fquot := PrimFloat.div;
  fabs := PrimFloat.abs;
  fopp := PrimFloat.opp;
  fltb := PrimFloat.ltb;
  fleb := PrimFloat.leb;
  feqb := PrimFloat.eqb;
  signbit := binary64_signbit;
  classify := binary64_classify;
  of_Q := Q_to_binary64;
  finf := Some infinity;
  fnan := Some nan
}.

(** ** Python strings *)

(** A [str] is a sequence of characters; the model has the characters
    of code 0 to 255.  Among these the decimal digits are the ten ASCII
    digits; the digits of other scripts, which [float] reads as well,
    have codes above 255 and are outside the model, as every string
    that holds such a character is. *)

Definition digit_of_ascii (c : ascii) : option Z :=
  let n := Z.of_N (N_of_ascii c) in
  if (48 <=? n) && (n <=? 57) then Some (n - 48) else None.

Definition ascii_of_digit (d : Z) : ascii := ascii_of_N (Z.to_N (48 + d)).

(** The decimal digits of [n >= 0], written in front of [acc]. *)
Fixpoint digits_fuel (fuel : nat) (n : Z) (acc : string) : string :=
  match fuel with
  | O => acc
  | S fuel' =>
      let acc' := String (ascii_of_digit (n mod 10)) acc in
      if n <? 10 then acc' else digits_fuel fuel' (n / 10) acc'
  end.

Definition str_nat (n : Z) : string :=
  digits_fuel (S (Z.to_nat (Z.log2 n))) n "".

(** [str(n)], which is also [f"{n}"]. *)
Definition str_int (n : Z) : string :=
  if n <? 0 then "-" +:+ str_nat (- n) else str_nat n.

Fixpoint zeros (k : nat) : string :=
  match k with
  | O => ""
  | S k' => String "0" (zeros k')
  end.

(** Fill with zeros on the left up to [width] characters. *)
Definition zero_pad (width : nat) (body : string) : string :=
  zeros (width - String.length body) +:+ body.

(** [f"{n:0wd}"]: the zeros go between the sign and the digits. *)
Definition format_0wd (width : nat) (n : Z) : string :=
  if n <? 0 then "-" +:+ zero_pad (width - 1) (str_nat (- n))
  else zero_pad width (str_nat n).

(** The digits of a magnitude of [h] hundredths, as [.2f] writes
    them. *)
Definition fixed2 (h : Z) : string :=
  str_nat (h / 100) +:+ "." +:+ zero_pad 2 (str_nat (h mod 100)).

(** What [float] takes for white space around a number: the ASCII
    white space (codes 9 to 13, and the space), and the two other
    spaces below code 256, the next line (133) and the no-break space
    (160).  The separators of codes 28 to 31, which [str.strip] removes,
    are not among them: [float] refuses a string that holds one. *)
Definition is_space (c : ascii) : bool :=
  let n := Z.of_N (N_of_ascii c) in
  ((9 <=? n) && (n <=? 13)) || (n =? 32) || (n =? 133) || (n =? 160).

Fixpoint lstrip (s : string) : string :=
  match s with
  | String c rest => if is_space c then lstrip rest else s
  | EmptyString => EmptyString
  end.

Definition strip (s : string) : string :=
  String.rev (lstrip (String.rev (lstrip s))).

(** [s.replace(old, new)] for a one-character [old]. *)
Fixpoint replace_char (old : ascii) (new : string) (s : string) : string :=
  match s with
  | EmptyString => EmptyString
  | String c rest =>
      (if Ascii.eqb c old then new else String c EmptyString)
      +:+ replace_char old new rest
  end.

(** [s.split(sep)] for a one-character [sep]. *)
Fixpoint split_char (sep : ascii) (s : string) : list string :=
  match s with
  | EmptyString => [EmptyString]
  | String c rest =>
      if Ascii.eqb c sep then EmptyString :: split_char sep rest
      else match split_char sep rest with
           | part :: parts => String c part :: parts
           | [] => [String c EmptyString]
           end
  end.

(** [c not in s] *)
Fixpoint no_char (c : ascii) (s : string) : bool :=
  match s with
  | EmptyString => true
  | String a rest => negb (Ascii.eqb a c) && no_char c rest
  end.

(** A field without the separators of the parsers: the unit letter [u]
    ([h] or [d]), [m], [s] and the colon. *)
Definition clean (u : ascii) (s : string) : bool :=
  no_char u s && no_char "m" s && no_char "s" s && no_char ":" s.

(** [s.startswith(c)] for a one-character [c]. *)
Definition startswith_char (c : ascii) (s : string) : bool :=
  match s with
  | String c' _ => Ascii.eqb c' c
  | EmptyString => false
  end.

(** [s[1:]] *)
Definition drop_first (s : string) : string :=
  match s with
  | String _ rest => rest
  | EmptyString => EmptyString
  end.

(** [needle in haystack] on strings. *)
Fixpoint contains (needle haystack : string) : bool :=
  String.prefix needle haystack
  || match haystack with
     | EmptyString => false
     | String _ rest => contains needle rest
     end.

(** *** The text [float] accepts *)

(** A run of digits, in which one underscore may stand between two
    digits; what follows the run is returned with it.
    [after_digit] tells that the character before was a digit. *)
Fixpoint scan_digits (after_digit : bool) (s : string) : list Z * string :=
  match s with
  | EmptyString => ([], s)
  | String c rest =>
      match digit_of_ascii c with
      | Some d => let (ds, r) := scan_digits true rest in (d :: ds, r)
      | None =>
          if after_digit && Ascii.eqb c "_" then
            match rest with
            | String c2 rest2 =>
                match digit_of_ascii c2 with
                | Some d2 =>
                    let (ds, r) := scan_digits true rest2 in (d2 :: ds, r)
                | None => ([], s)
                end
            | EmptyString => ([], s)
            end
          else ([], s)
      end
  end.

Definition Z_of_digits (ds : list Z) : Z :=
  fold_left (fun acc d => 10 * acc + d) ds 0.

(** The rational [digits * 10^scale]. *)
Definition scale10 (digits scale : Z) : Q :=
  if 0 <=? scale then (digits * 10 ^ scale) # 1
  else digits # Z.to_pos (10 ^ (- scale)).

Definition lower (c : ascii) : ascii :=
  let n := N_of_ascii c in
  if ((65 <=? n) && (n <=? 90))%N then ascii_of_N (n + 32) else c.

Fixpoint lower_string (s : string) : string :=
  match s with
  | EmptyString => EmptyString
  | String c rest => String (lower c) (lower_string rest)
  end.

Inductive float_text : Type :=
  | TextNan
  | TextInf
  | TextNum (q : Q).

(** An optional sign, and what follows it. *)
Definition scan_sign (s : string) : bool * string :=
  match s with
  | String "-" rest => (true, rest)
  | String "+" rest => (false, rest)
  | _ => (false, s)
  end.

(** [digits [.digits] [e [sign] digits]], one digit at least before the
    exponent. *)
Definition parse_number (s : string) : option Q :=
  let (ip, r1) := scan_digits false s in
  let (fp, r2) :=
    match r1 with
    | String "." r => scan_digits false r
    | _ => ([], r1)
    end in
  match ip ++ fp with
  | [] => None
  | mantissa =>
      let frac_len := Z.of_nat (length fp) in
      match r2 with
      | EmptyString => Some (scale10 (Z_of_digits mantissa) (- frac_len))
      | String c r3 =>
          if Ascii.eqb (lower c) "e" then
            let (negative, r4) := scan_sign r3 in
            match scan_digits false r4 with
            | (d :: ds, EmptyString) =>
                let e := Z_of_digits (d :: ds) in
                Some (scale10 (Z_of_digits mantissa)
                        ((if negative then - e else e) - frac_len))
            | _ => None
            end
          else None
      end
  end.

(** The sign and the magnitude a text denotes, white space around it
    put aside. *)
Definition parse_float_text (s : string) : option (bool * float_text) :=
  let (negative, body) := scan_sign (strip s) in
  let word := lower_string body in
  if String.eqb word "nan" then Some (negative, TextNan)
  else if String.eqb word "inf" || String.eqb word "infinity"
  then Some (negative, TextInf)
  else match parse_number body with
       | Some q => Some (negative, TextNum q)
       | None => None
       end.

(** ** Regular expressions *)

(** The patterns of [sos/utils/validators.py] are made of characters,
    the class [\d], sequences, the options [?] and [{1,2}], and the
    repetition [+].  Whether [re.match] finds a match of such a pattern
    between [^] and [$] is whether the string is in its language, which
    the derivatives decide. *)
Inductive regex : Type :=
  | Never
  | Empty
  | Char (c : ascii)
  | Digit
  | Seq (r1 r2 : regex)
  | Alt (r1 r2 : regex)
  | Star (r : regex).

(** [r?] *)
Definition Opt (r : regex) : regex := Alt r Empty.

(** [r+] *)
Definition Plus (r : regex) : regex := Seq r (Star r).

(** The characters of a text, one after the other. *)
Fixpoint Word (s : string) : regex :=
  match s with
  | EmptyString => Empty
  | String c rest => Seq (Char c) (Word rest)
  end.

Fixpoint nullable (r : regex) : bool :=
  match r with
  | Never | Char _ | Digit => false
  | Empty | Star _ => true
  | Seq r1 r2 => nullable r1 && nullable r2
  | Alt r1 r2 => nullable r1 || nullable r2
  end.

(** What may follow a first character [c]. *)
Fixpoint deriv (c : ascii) (r : regex) : regex :=
  match r with
  | Never | Empty => Never
  | Char c' => if Ascii.eqb c c' then Empty else Never
  | Digit =>
      match digit_of_ascii c with
      | Some _ => Empty
      | None => Never
      end
  | Seq r1 r2 =>
      if nullable r1
      then Alt (Seq (deriv c r1) r2) (deriv c r2)
      else Seq (deriv c r1) r2
  | Alt r1 r2 => Alt (deriv c r1) (deriv c r2)
  | Star r1 => Seq (deriv c r1) (Star r1)
  end.

(** The whole of [s] matches [r]. *)
Fixpoint matches (r : regex) (s : string) : bool :=
  match s with
  | EmptyString => nullable r
  | String c rest => matches (deriv c r) rest
  end.

(** [s] without the newline it ends with, if it ends with one. *)
Fixpoint without_final_newline (s : string) : option string :=
  match s with
  | EmptyString => None
  | String c EmptyString =>
      if Ascii.eqb c "010" then Some EmptyString else None
  | String c rest =>
      match without_final_newline rest with
      | Some rest' => Some (String c rest')
      | None => None
      end
  end.

(** [re.match(r"^...$", s)] finds a match: [$] stands at the end of
    the string, and also before a newline that ends it. *)
Definition re_match (r : regex) (s : string) : bool :=
  matches r s
  || match without_final_newline s with
     | Some s' => matches r s'
     | None => false
     end.

(** [\d{1,2}] *)
Definition one_or_two_digits : regex := Seq Digit (Opt Digit).

(** [\d+(?:\.\d+)?] and [\d{1,2}(?:\.\d+)?] *)
Definition decimals : regex := Opt (Seq (Char ".") (Plus Digit)).

(** [^(\d{1,2})h(\d{1,2})m(\d{1,2}(?:\.\d+)?)s$] *)
Definition ra_pattern : regex :=
  Seq one_or_two_digits
    (Seq (Char "h")
       (Seq one_or_two_digits
          (Seq (Char "m")
             (Seq (Seq one_or_two_digits decimals) (Char "s"))))).

(** [^([+-])?(\d{1,2})d(\d{1,2})m(\d{1,2}(?:\.\d+)?)s$] *)
Definition dec_pattern : regex :=
  Seq (Opt (Alt (Char "+") (Char "-")))
    (Seq one_or_two_digits
       (Seq (Char "d")
          (Seq one_or_two_digits
             (Seq (Char "m")
                (Seq (Seq one_or_two_digits decimals) (Char "s")))))).

(** [^\d+(?:\.\d+)?arcsec$] and [^\d+(?:\.\d+)?GHz$] *)
Definition number_with_unit (unit : string) : regex :=
  Seq (Plus Digit) (Seq decimals (Word unit)).

Section Python.

Context {F : Type} `{FloatArith F}.

(** A float literal of the source text, given as the rational it
    denotes. *)
Definition lit (q : Q) : F := of_Q q.

(** [x / y] on floats. *)
Definition fdiv (x y : F) : result F :=
  if feqb y (lit 0) then Raise ZeroDivisionError else Ok (fquot x y).

(** [int(x)]: truncation towards zero. *)
Definition Qtrunc (q : Q) : Z :=
  if Qnum q <? 0 then Qceiling q else Qfloor q.

Definition py_int (x : F) : result Z :=
  match classify x with
  | FFin q => Ok (Qtrunc q)
  | FInf _ => Raise OverflowError
  | FNan => Raise (ValueError "cannot convert float NaN to integer")
  end.

(** The conversion of an [int] operand in mixed arithmetic. *)
Definition of_int (n : Z) : F := of_Q (inject_Z n).

(** *** Floats and strings *)

(** [float(s)] for a string [s]. *)
Definition py_float (s : string) : result F :=
  let bad := Raise (ValueError "could not convert string to float") in
  let signed (negative : bool) (x : F) := if negative then fopp x else x in
  match parse_float_text s with
  | Some (negative, TextNum q) => Ok (signed negative (of_Q q))
  | Some (negative, TextInf) =>
      match finf with Some x => Ok (signed negative x) | None => bad end
  | Some (negative, TextNan) =>
      match fnan with Some x => Ok (signed negative x) | None => bad end
  | None => bad
  end.

(** The magnitude in hundredths, correctly rounded, ties to even. *)
Definition hundredths (q : Q) : Z :=
  round_half_even (Z.abs (Qnum q) * 100) (Zpos (Qden q)).

(** [f"{x:0w.2f}"]; the width [0] gives [f"{x:.2f}"]. *)
Definition format_0w_2f (width : nat) (x : F) : string :=
  let sign := if signbit x then "-" else "" in
  let body :=
    match classify x with
    | FNan => "nan"
    | FInf _ => "inf"
    | FFin q => fixed2 (hundredths q)
    end in
  sign +:+ zero_pad (width - String.length sign) body.

(** ** Python values *)

(** The values a caller can hand to the validators, which test their
    arguments with [isinstance]. *)
Inductive pyval : Type :=
  | PyNone
  | PyBool (b : bool)
  | PyInt (n : Z)
  | PyFloat (x : F)
  | PyStr (s : string)
  | PyList (l : list pyval).

(** [isinstance(v, (int, float))]; [bool] is a subclass of [int]. *)
Definition isinstance_int_float (v : pyval) : bool :=
  match v with
  | PyBool _ | PyInt _ | PyFloat _ => true
  | _ => false
  end.

Definition bool_to_int (b : bool) : Z := if b then 1 else 0.

(** [x <= n] and [n <= x] for a float [x] and an [int] [n]: Python
    compares the exact values, without converting the [int]. *)
Definition float_le_int (x : F) (n : Z) : bool :=
  match classify x with
  | FFin q => Qle_bool q (inject_Z n)
  | FInf negative => negative
  | FNan => false
  end.

Definition int_le_float (n : Z) (x : F) : bool :=
  match classify x with
  | FFin q => Qle_bool (inject_Z n) q
  | FInf negative => negb negative
  | FNan => false
  end.

(** [x <= v] and [v <= x] for a float [x] and any value [v]. *)
Definition float_le_val (x : F) (v : pyval) : result bool :=
  match v with
  | PyFloat y => Ok (fleb x y)
  | PyInt n => Ok (float_le_int x n)
  | PyBool b => Ok (float_le_int x (bool_to_int b))
  | _ => Raise TypeError
  end.

Definition val_le_float (v : pyval) (x : F) : result bool :=
  match v with
  | PyFloat y => Ok (fleb y x)
  | PyInt n => Ok (int_le_float n x)
  | PyBool b => Ok (int_le_float (bool_to_int b) x)
  | _ => Raise TypeError
  end.

(** The chained comparison [lo <= v <= hi], that is
    [lo <= v and v <= hi]. *)
Definition chained_le (lo : F) (v : pyval) (hi : F) : result bool :=
  let* a := float_le_val lo v in
  if a then val_le_float v hi else Ok false.

(** ** [sos/constants.py] *)

Definition ARCSEC_PER_RADIAN : F := lit (20626481 # 100).
Definition ARCMIN_PER_RADIAN : F := lit (343775 # 100).
Definition RA_ARCSEC_PER_SECOND : F := lit 15.
Definition SPEED_OF_LIGHT_KM_S : F := lit (299792458 # 1000).
Definition HUBBLE_CONSTANT : F := lit (678 # 10).
Definition MATTER_DENSITY_PARAMETER : F := lit (308 # 1000).
Definition MIN_REDSHIFT : F := lit 0.
Definition MAX_REDSHIFT : F := lit 10.
Definition MIN_SPECTRAL_INDEX : F := lit (-5).
Definition MAX_SPECTRAL_INDEX : F := lit 0.
Definition MIN_FLUX_DENSITY_JY : F := lit 0.
Definition MAX_FLUX_DENSITY_JY : F := lit 1000000.

(** ** [sos/utils/validators.py] *)

(** The [for z in redshifts] loop of [validate_redshifts]. *)
Fixpoint validate_redshifts_loop (zs : list pyval) : result bool :=
  match zs with
  | [] => Ok true
  | z :: rest =>
      if negb (isinstance_int_float z)
      then Raise (ValueError "Redshift must be numeric")
      else
        let* inside := chained_le MIN_REDSHIFT z MAX_REDSHIFT in
        if negb inside
        then Raise (ValueError "Redshift out of range")
        else validate_redshifts_loop rest
  end.

Definition validate_redshifts (redshifts : pyval) : result bool :=
  match redshifts with
  | PyList zs =>
      if (length zs =? 0)%nat
      then Raise (ValueError "Redshifts must be a non-empty list")
      else validate_redshifts_loop zs
  | _ => Raise (ValueError "Redshifts must be a non-empty list")
  end.

Definition validate_spectral_index (alpha : pyval) : result bool :=
  if negb (isinstance_int_float alpha)
  then Raise (ValueError "Spectral index must be numeric")
  else
    let* inside := chained_le MIN_SPECTRAL_INDEX alpha MAX_SPECTRAL_INDEX in
    if negb inside
    then Raise (ValueError "Spectral index out of range")
    else Ok true.

Definition validate_flux_density (flux_jy : pyval) : result bool :=
  if negb (isinstance_int_float flux_jy)
  then Raise (ValueError "Flux density must be numeric")
  else
    let* inside := chained_le MIN_FLUX_DENSITY_JY flux_jy MAX_FLUX_DENSITY_JY in
    if negb inside
    then Raise (ValueError "Flux density out of range")
    else Ok true.

(** [v <= n] for any value [v] and an [int] [n]. *)
Definition val_le_int (v : pyval) (n : Z) : result bool :=
  match v with
  | PyFloat x => Ok (float_le_int x n)
  | PyInt k => Ok (k <=? n)
  | PyBool b => Ok (bool_to_int b <=? n)
  | _ => Raise TypeError
  end.

(** The [or] of the second test evaluates [freq_value <= 0] only for a
    number. *)
Definition validate_frequency (freq_value : pyval) (freq_unit : string)
    : result bool :=
  let valid_units := ["Hz"; "MHz"; "GHz"] in
  if negb (existsb (String.eqb freq_unit) valid_units)
  then Raise (ValueError "Invalid frequency unit")
  else
    let* bad :=
      if negb (isinstance_int_float freq_value) then Ok true
      else val_le_int freq_value 0 in
    if bad
    then Raise (ValueError "Frequency must be positive numeric value")
    else Ok true.

Definition validate_coordinate_string (coord_string coord_type : string)
    : result bool :=
  let* pattern :=
    if String.eqb (lower_string coord_type) "ra" then Ok ra_pattern
    else if String.eqb (lower_string coord_type) "dec" then Ok dec_pattern
    else Raise (ValueError "Invalid coordinate type") in
  if negb (re_match pattern coord_string)
  then Raise (ValueError "Invalid coordinate format")
  else Ok true.

(** [isinstance(v, int)]; [bool] is a subclass of [int]. *)
Definition isinstance_int (v : pyval) : bool :=
  match v with
  | PyBool _ | PyInt _ => true
  | _ => false
  end.

Definition validate_image_parameters
    (cell_size : string) (image_size : pyval) (frequency : string)
    : result bool :=
  if negb (re_match (number_with_unit "arcsec") cell_size)
  then Raise (ValueError "Invalid cell size format")
  else
    let* bad :=
      if negb (isinstance_int image_size) then Ok true
      else val_le_int image_size 0 in
    if bad then Raise (ValueError "Image size must be positive integer")
    else if negb (re_match (number_with_unit "GHz") frequency)
    then Raise (ValueError "Invalid frequency format")
    else Ok true.

(** What the validators accept: a number [v] with [lo <= v <= hi]. *)
Definition within (lo hi : F) (v : pyval) : Prop :=
  isinstance_int_float v = true /\ chained_le lo v hi = Ok true.

(** The exact value of a number. *)
Definition exact_value (v : pyval) : option fclass :=
  match v with
  | PyBool b => Some (FFin (inject_Z (bool_to_int b)))
  | PyInt n => Some (FFin (inject_Z n))
  | PyFloat x => Some (classify x)
  | _ => None
  end.

(** A number whose value is a rational of the closed interval
    [[lo, hi]]. *)
Definition in_interval (lo hi : Q) (v : pyval) : Prop :=
  exists q, exact_value v = Some (FFin q) /\ (lo <= q)%Q /\ (q <= hi)%Q.

(** ** [sos/core/image_maker.py]: [CosmologyCalculator] *)

Section Cosmology.

(** [x ** y] on floats is the C library's [pow] behind
    [float.__pow__], which no definition of the repository fixes: it is
    a parameter here.  (A negative base with a fractional exponent gives
    a [complex] in Python, which [result F] does not hold; no statement
    below reaches such a call.) *)
Variable py_pow : F -> F -> result F.

(** An instance is its attribute dictionary.  [__init__] sets [h0] and
    [omega_m], and nothing else. *)
Definition CosmologyCalculator (h0 omega_m : F) : gmap string F :=
  <["omega_m" := omega_m]> (<["h0" := h0]> ∅).

(** [self.name] *)
Definition getattr (self : gmap string F) (name : string) : result F :=
  match self !! name with
  | Some v => Ok v
  | None => Raise (AttributeError name)
  end.

(** The operands are evaluated from left to right, as Python does. *)
Definition angular_diameter_distance
    (self : gmap string F) (redshift : F) : result F :=
  if feqb redshift (lit 0) then Ok (lit 0)
  else
    let* om := getattr self "omega_m" in
    let omega_l := fsub (lit 1) om in
    let* numerator := (
      let c2 := fmul SPEED_OF_LIGHT_KM_S (lit 2) in
      let* om1 := getattr self "omega_m" in
      let a := fmul om1 redshift in
      let* ol := getattr self "omega_l" in
      let b := fsub ol (lit 2) in
      let* om2 := getattr self "omega_m" in
      let* r := py_pow (fadd (lit 1) (fmul om2 redshift)) (lit (1 # 2)) in
      Ok (fmul c2 (fadd a (fmul b (fsub r (lit 1)))))) in
    let* denominator := (
      let* h := getattr self "h0" in
      let* om3 := getattr self "omega_m" in
      let* p := py_pow (fmul om3 (fadd (lit 1) redshift)) (of_int 2) in
      Ok (fmul h p)) in
    fdiv numerator denominator.

Definition calculate_flux_density
    (self : gmap string F) (flux_ref z_ref z_target spectral_index : F)
    : result F :=
  let* d_ref := angular_diameter_distance self z_ref in
  let* d_target := angular_diameter_distance self z_target in
  if feqb d_ref (lit 0) || feqb d_target (lit 0) then Ok flux_ref
  else
    let* k_correction := (
      let* q := fdiv (fadd (lit 1) z_target) (fadd (lit 1) z_ref) in
      py_pow q spectral_index) in
    let* ratio := fdiv d_ref d_target in
    let* sq := py_pow ratio (of_int 2) in
    Ok (fmul (fmul flux_ref sq) k_correction).

Definition calculate_angular_size
    (self : gmap string F) (linear_size_mpc redshift : F) : result F :=
  let* d_a := angular_diameter_distance self redshift in
  if feqb d_a (lit 0) then Ok (lit 0)
  else
    let* angular_size_rad := fdiv linear_size_mpc d_a in
    Ok (fmul angular_size_rad ARCMIN_PER_RADIAN).

(** *** [ImageMaker] *)

(** [str(z)] for a float [z], the shortest decimal that reads back as
    [z], is not modelled: the names of the images are given in terms of
    it. *)
Variable float_repr : F -> string.

(** Whether [from casac import casatools] succeeds. *)
Variable casac_importable : bool.

(** The [for z in redshifts] loop of [create_model_sky]; [first] is
    [redshifts[0]].  The text handed to [logger.debug] is formatted from
    two floats, which cannot fail, and is left out. *)
Fixpoint create_model_sky_loop
    (cosmology : gmap string F) (first : F) (zs : list F)
    (linear_size_mpc reference_flux_jy spectral_index : F)
    : result (list string) :=
  match zs with
  | [] => Ok []
  | z :: rest =>
      let* flux :=
        calculate_flux_density cosmology reference_flux_jy first z
          spectral_index in
      let* angular_size :=
        calculate_angular_size cosmology linear_size_mpc z in
      let image_name := "modelsky_" +:+ float_repr z +:+ ".im" in
      let* images :=
        create_model_sky_loop cosmology first rest
          linear_size_mpc reference_flux_jy spectral_index in
      Ok (image_name :: images)
  end.

(** [create_model_sky] on a list of floats; [cosmology] is
    [self.cosmology]. *)
Definition create_model_sky
    (cosmology : gmap string F) (redshifts : list F)
    (linear_size_mpc reference_flux_jy spectral_index : F)
    : outcome (list string) :=
  match validate_redshifts (PyList (map PyFloat redshifts)) with
  | Raise e => Finished (Raise e)
  | Ok _ =>
      if negb casac_importable then ImportFailed
      else
        Finished
          match redshifts with
          | [] => Ok []
          | first :: _ =>
              create_model_sky_loop cosmology first redshifts
                linear_size_mpc reference_flux_jy spectral_index
          end
  end.

End Cosmology.

(** ** [sos/utils/coordinates.py] *)

Definition ra_arcsec_to_hms (ra_arcsec : F) : result string :=
  if fltb ra_arcsec (of_int 0)
  then Raise (ValueError "RA in arcseconds must be non-negative")
  else
    let* ra_hours := fdiv ra_arcsec (fmul (lit 3600) RA_ARCSEC_PER_SECOND) in
    let* hours := py_int ra_hours in
    let remainder := fmul (lit 60) (fsub ra_hours (of_int hours)) in
    let* minutes := py_int remainder in
    let seconds := fmul (lit 60) (fsub remainder (of_int minutes)) in
    let* seconds := py_float (format_0w_2f 0 seconds) in
    Ok (format_0wd 2 hours +:+ "h" +:+ format_0wd 2 minutes +:+ "m"
        +:+ format_0w_2f 5 seconds +:+ "s").

Definition dec_arcsec_to_dms (dec_arcsec : F) : result string :=
  let* deg_value := fdiv dec_arcsec (lit 3600) in
  if fltb deg_value (lit 0) then
    let* degrees := py_int (fabs deg_value) in
    let remainder := fmul (lit 60) (fadd deg_value (of_int degrees)) in
    let* arcminutes := py_int (fabs remainder) in
    let arcseconds :=
      fabs (fmul (lit 60) (fadd remainder (of_int arcminutes))) in
    let* arcseconds := py_float (format_0w_2f 0 arcseconds) in
    Ok ("-" +:+ str_int degrees +:+ "d" +:+ str_int arcminutes +:+ "m"
        +:+ format_0w_2f 5 arcseconds +:+ "s")
  else
    let* degrees := py_int deg_value in
    let remainder := fmul (lit 60) (fsub deg_value (of_int degrees)) in
    let* arcminutes := py_int remainder in
    let arcseconds := fmul (lit 60) (fsub remainder (of_int arcminutes)) in
    let* arcseconds := py_float (format_0w_2f 0 arcseconds) in
    Ok ("+" +:+ str_int degrees +:+ "d" +:+ str_int arcminutes +:+ "m"
        +:+ format_0w_2f 5 arcseconds +:+ "s").

Definition radians_to_arcsec (radians : F) : F :=
  fmul radians ARCSEC_PER_RADIAN.

(** The [try] block of the two parsers: a [ValueError] of [float] is
    caught and raised again with the parser's own message. *)
Definition float_or (msg : string) (part : string) : result F :=
  match py_float part with
  | Raise (ValueError _) => Raise (ValueError msg)
  | r => r
  end.

(** [0 <= x < hi] for an [int] literal [hi]. *)
Definition in_half_open (x : F) (hi : Z) : bool :=
  fleb (of_int 0) x && fltb x (of_int hi).

Definition parse_ra_hms (ra_string : string) : result F :=
  let ra_string :=
    replace_char "s" ""
      (replace_char "m" ":" (replace_char "h" ":" ra_string)) in
  match split_char ":" ra_string with
  | [p0; p1; p2] =>
      let* hours := float_or "Could not parse RA components" p0 in
      let* minutes := float_or "Could not parse RA components" p1 in
      let* seconds := float_or "Could not parse RA components" p2 in
      if negb (in_half_open hours 24 && in_half_open minutes 60
               && in_half_open seconds 60)
      then Raise (ValueError "RA values out of range")
      else
        let* m := fdiv minutes (lit 60) in
        let* s := fdiv seconds (lit 3600) in
        Ok (fadd (fadd hours m) s)
  | _ => Raise (ValueError "Invalid RA format")
  end.

Definition parse_dec_dms (dec_string : string) : result F :=
  let (sign, dec_string) :=
    if startswith_char "-" dec_string then (lit (-1), drop_first dec_string)
    else if startswith_char "+" dec_string then (lit 1, drop_first dec_string)
    else (lit 1, dec_string) in
  let dec_string :=
    replace_char "s" ""
      (replace_char "m" ":" (replace_char "d" ":" dec_string)) in
  match split_char ":" dec_string with
  | [p0; p1; p2] =>
      let* degrees := float_or "Could not parse DEC components" p0 in
      let* arcminutes := float_or "Could not parse DEC components" p1 in
      let* arcseconds := float_or "Could not parse DEC components" p2 in
      if negb (in_half_open degrees 360 && in_half_open arcminutes 60
               && in_half_open arcseconds 60)
      then Raise (ValueError "DEC values out of range")
      else
        let* m := fdiv arcminutes (lit 60) in
        let* s := fdiv arcseconds (lit 3600) in
        let dec_decimal := fadd (fadd degrees m) s in
        Ok (fmul sign dec_decimal)
  | _ => Raise (ValueError "Invalid DEC format")
  end.

Definition get_ra_dec_tuple (ra_string dec_string : string)
    : result (F * F) :=
  let* ra_hours := parse_ra_hms ra_string in
  let* dec_degrees := parse_dec_dms dec_string in
  Ok (ra_hours, dec_degrees).

(** ** [sos/config/config_loader.py] *)

(** A configuration as [yaml.safe_load] gives it: a plain value, or a
    mapping from strings to configurations. *)
Inductive config : Type :=
  | Value (v : pyval)
  | Dict (d : gmap string config).

(** The loop of [ConfigLoader.get] over the parts of the key. *)
Fixpoint get_loop (keys : list string) (value default : config) : config :=
  match keys with
  | [] => value
  | k :: rest =>
      match value with
      | Dict d =>
          match d !! k with
          | None | Some (Value PyNone) => default
          | Some value' => get_loop rest value' default
          end
      | Value _ => default
      end
  end.

(** [ConfigLoader.get]; [self_config] is [self.config]. *)
Definition get (self_config : config) (key : string) (default : config)
    : config :=
  get_loop (split_char "." key) self_config default.

(** [not value] *)
Definition falsy (value : config) : bool :=
  match value with
  | Dict d => (size d =? 0)%nat
  | Value PyNone => true
  | Value (PyBool b) => negb b
  | Value (PyInt n) => n =? 0
  | Value (PyFloat x) => feqb x (lit 0)
  | Value (PyStr s) => (String.length s =? 0)%nat
  | Value (PyList l) => (length l =? 0)%nat
  end.

(** [if key in value: body(value[key])] for a string [key]: a key of a
    mapping, a part of a string, an entry of a list; a string or a list
    that holds [key] cannot be indexed by it, and no other value can be
    searched. *)
Definition if_in (key : string) (value : config)
    (body : config -> result unit) : result unit :=
  match value with
  | Dict d =>
      match d !! key with
      | Some v => body v
      | None => Ok tt
      end
  | Value (PyStr s) => if contains key s then Raise TypeError else Ok tt
  | Value (PyList l) =>
      if existsb (fun v => match v with
                           | PyStr s => String.eqb key s
                           | _ => false
                           end) l
      then Raise TypeError else Ok tt
  | Value _ => Raise TypeError
  end.

(** What a validator sees of a configuration: a mapping is, as [None]
    is, neither a list nor a number. *)
Definition plain (value : config) : pyval :=
  match value with
  | Value v => v
  | Dict _ => PyNone
  end.

Definition _validate_config (self_config : config) : result unit :=
  if falsy self_config then Raise (ValueError "Configuration is empty")
  else
    if_in "simulation" self_config (fun sim =>
      let* _ := if_in "redshifts" sim (fun redshifts =>
                  let* _ := validate_redshifts (plain redshifts) in Ok tt) in
      if_in "spectral_index" sim (fun spectral_index =>
        let* _ := validate_spectral_index (plain spectral_index) in Ok tt)).

Definition create_default_config : config :=
  let str s := Value (PyStr s) in
  let float q := Value (PyFloat (lit q)) in
  let int n := Value (PyInt n) in
  Dict (list_to_map [
    ("simulation", Dict (list_to_map [
       ("redshifts",
        Value (PyList (map (fun q => PyFloat (lit q))
          [5 # 100; 1 # 10; 13 # 100; 15 # 100; 17 # 100; 2 # 10; 3 # 10;
           4 # 10; 5 # 10; 6 # 10; 8 # 10; 9 # 10; 1]%Q)));
       ("spectral_index", float (-16 # 10)%Q);
       ("channels", int 1);
       ("frequency_resolution_mhz", float 50%Q);
       ("integration_time", str "1s")]));
    ("source", Dict (list_to_map [
       ("linear_size_mpc", float (5 # 10)%Q);
       ("flux_density_jy", float (6 # 10)%Q);
       ("source_type", int 1)]));
    ("image", Dict (list_to_map [
       ("cell_size", str "0.01arcsec");
       ("image_size", int 7200);
       ("reference_frequency", str "9.2GHz")]));
    ("telescope", Dict (list_to_map [
       ("config_file", str "ska_mid197_new.cfg");
       ("elevation_limit", float 17%Q)]));
    ("observation", Dict (list_to_map [
       ("rise_time", str "56839.0d");
       ("num_scans", int 1);
       ("start_time_sec", float 1%Q);
       ("scan_duration_sec", float 2%Q);
       ("scan_gap_sec", float 0%Q)]))]).

End Python.

Arguments pyval F : clear implicits.
Arguments config F : clear implicits.

(** ** Quantities of the statements *)

(** The fields the encoders compute for [t >= 0] hours or degrees, the
    seconds not yet rounded, in exact arithmetic. *)
Definition sexagesimal (t : Q) : Z * Z * Q :=
  let hours := Qfloor t in
  let remainder := (60 * (t - inject_Z hours))%Q in
  let minutes := Qfloor remainder in
  (hours, minutes, (60 * (remainder - inject_Z minutes))%Q).

(** The seconds field of both encoders for [h] hundredths of a
    second. *)
Definition seconds_text (h : Z) : string := zero_pad 5 (fixed2 h).

(** *** The formats of a declination *)

Definition is_digit (c : ascii) : bool :=
  match digit_of_ascii c with
  | Some _ => true
  | None => false
  end.

Fixpoint all_digits (s : string) : bool :=
  match s with
  | EmptyString => true
  | String c rest => is_digit c && all_digits rest
  end.

(** The leading digits of a string, and what follows them. *)
Fixpoint span_digits (s : string) : string * string :=
  match s with
  | EmptyString => (EmptyString, EmptyString)
  | String c rest =>
      if is_digit c
      then let (ds, r) := span_digits rest in (String c ds, r)
      else (EmptyString, s)
  end.

(** A natural number in decimal without padding: digits, one at least,
    and no leading zero but in ["0"]. *)
Definition unpadded_number (s : string) : bool :=
  all_digits s
  && match s with
     | EmptyString => false
     | String "0" (String _ _) => false
     | _ => true
     end.

(** [SS.SS] *)
Definition seconds_shape (s : string) : bool :=
  match s with
  | String a (String b (String "." (String c (String d EmptyString)))) =>
      is_digit a && is_digit b && is_digit c && is_digit d
  | _ => false
  end.

(** The encoding [±DDdMMmSS.SSs] of the specification: a sign, two
    digits, [d], two digits, [m], two digits, a point, two digits,
    [s]. *)
Definition padded_dms_format (s : string) : bool :=
  match s with
  | String sign (String d1 (String d2 (String "d"
      (String m1 (String m2 (String "m" rest)))))) =>
      (Ascii.eqb sign "+" || Ascii.eqb sign "-")
      && is_digit d1 && is_digit d2 && is_digit m1 && is_digit m2
      && match rest with
         | String a (String b (String "." (String c (String d
             (String "s" EmptyString))))) =>
             is_digit a && is_digit b && is_digit c && is_digit d
         | _ => false
         end
  | _ => false
  end.

(** What [dec_arcsec_to_dms] writes: one sign, the degrees and the
    arcminutes as unpadded numbers, each followed by its letter, and
    the seconds as [SS.SS] followed by [s].  No other sign can occur:
    every other character is a digit, a letter or the point. *)
Definition dms_format (s : string) : bool :=
  match s with
  | String sign r0 =>
      (Ascii.eqb sign "+" || Ascii.eqb sign "-")
      && let (deg, r1) := span_digits r0 in
         unpadded_number deg
         && match r1 with
            | String "d" r2 =>
                let (mn, r3) := span_digits r2 in
                unpadded_number mn
                && match r3 with
                   | String "m" r4 =>
                       match String.rev r4 with
                       | String "s" sec => seconds_shape (String.rev sec)
                       | _ => false
                       end
                   | _ => false
                   end
            | _ => false
            end
  | EmptyString => false
  end.

(** [r] is [Ok q], with the same numerator and denominator. *)
Definition result_is (r : result Q) (q : Q) : bool :=
  match r with
  | Ok v => (Qnum v =? Qnum q) && Pos.eqb (Qden v) (Qden q)
  | Raise _ => false
  end.

(** The integers [0, 1, ..., n - 1]. *)
Definition upto (n : Z) : list Z := map Z.of_nat (seq 0 (Z.to_nat n)).

(** What the proofs check of the seconds field of [h] hundredths: it
    is the text [.2f] gives, [float] reads it back, [05.2f] pads it,
    and it holds no separator. *)
Definition seconds_field_ok (h : Z) : bool :=
  let q := Qred (h # 100) in
  String.eqb (format_0w_2f 0 q) (fixed2 h)
  && result_is (py_float (fixed2 h)) q
  && String.eqb (format_0w_2f 5 q) (seconds_text h)
  && result_is (py_float (seconds_text h)) q
  && clean "h" (seconds_text h) && clean "d" (seconds_text h).

(** The seconds field of [h] hundredths has the shape [SS.SS]. *)
Definition seconds_shape_ok (h : Z) : bool :=
  seconds_shape (seconds_text h)
  && String.eqb (String.rev (seconds_text h +:+ "s"))
       (String "s" (String.rev (seconds_text h)))
  && String.eqb (String.rev (String.rev (seconds_text h))) (seconds_text h).

(** The same of a two-digit field [k]. *)
Definition two_digit_field_ok (k : Z) : bool :=
  result_is (py_float (format_0wd 2 k)) (inject_Z k)
  && result_is (py_float (str_int k)) (inject_Z k)
  && clean "h" (format_0wd 2 k) && clean "d" (str_int k)
  && (String.length (format_0wd 2 k) =? 2)%nat.

(** The same of a field of degrees [k], which is not padded. *)
Definition degrees_field_ok (k : Z) : bool :=
  result_is (py_float (str_int k)) (inject_Z k) && clean "d" (str_int k).

(** * Properties *)

(** ** [CosmologyCalculator] *)

Section CosmologyFacts.

Context {F : Type} `{FloatArith F}.
Variable py_pow : F -> F -> result F.

Lemma getattr_h0 (h0 omega_m : F) :
  getattr (CosmologyCalculator h0 omega_m) "h0" = Ok h0.
Proof.
  unfold getattr, CosmologyCalculator.
  rewrite lookup_insert_ne by discriminate.
  now rewrite lookup_insert_eq.
Qed.

Lemma getattr_omega_m (h0 omega_m : F) :
  getattr (CosmologyCalculator h0 omega_m) "omega_m" = Ok omega_m.
Proof.
  unfold getattr, CosmologyCalculator. now rewrite lookup_insert_eq.
Qed.

(** [__init__] never sets [omega_l]: reading it raises. *)
Lemma getattr_omega_l (h0 omega_m : F) :
  getattr (CosmologyCalculator h0 omega_m) "omega_l"
  = Raise (AttributeError "omega_l").
Proof.
  unfold getattr, CosmologyCalculator.
  rewrite !lookup_insert_ne by discriminate.
  now rewrite lookup_empty.
Qed.

(** The defect behind C1, C2 and C6: for a redshift other than zero the
    numerator reads [self.omega_l], which no instance has (the local
    [omega_l] of the line before is the one that was meant).  Neither
    [**] nor the division is reached. *)
Lemma angular_diameter_distance_no_omega_l (h0 omega_m redshift : F) :
  feqb redshift (lit 0) = false ->
  angular_diameter_distance py_pow (CosmologyCalculator h0 omega_m) redshift
  = Raise (AttributeError "omega_l").
Proof.
  intros Hz. unfold angular_diameter_distance. rewrite Hz.
  rewrite getattr_omega_m. cbn [bind].
  now rewrite getattr_omega_l.
Qed.

Lemma angular_diameter_distance_zero (self : gmap string F) (redshift : F) :
  feqb redshift (lit 0) = true ->
  angular_diameter_distance py_pow self redshift = Ok (lit 0).
Proof. intros Hz. unfold angular_diameter_distance. now rewrite Hz. Qed.

(** C1. For a redshift other than zero, [angular_diameter_distance]
    returns no distance at all, closed form or other: the call ends in
    an [AttributeError], whatever [h0], [omega_m] and [**] are. *)
Theorem angular_diameter_distance_raises (h0 omega_m redshift : F) :
  feqb redshift (lit 0) = false ->
  angular_diameter_distance py_pow (CosmologyCalculator h0 omega_m) redshift
  = Raise (AttributeError "omega_l")
  /\ ~ returns (angular_diameter_distance py_pow
                  (CosmologyCalculator h0 omega_m) redshift).
Proof.
  intros Hz. rewrite angular_diameter_distance_no_omega_l by exact Hz.
  split; [reflexivity | intros [d Hd]; discriminate].
Qed.

(** C2. At the reference redshift, [calculate_flux_density(F, z, z,
    alpha)] does not return [F] for [z] other than zero: its first call
    of [angular_diameter_distance] raises the [AttributeError] of C1. *)
Theorem calculate_flux_density_same_redshift_raises
    (h0 omega_m flux_ref z spectral_index : F) :
  feqb z (lit 0) = false ->
  calculate_flux_density py_pow (CosmologyCalculator h0 omega_m)
    flux_ref z z spectral_index
  = Raise (AttributeError "omega_l").
Proof.
  intros Hz. unfold calculate_flux_density.
  now rewrite angular_diameter_distance_no_omega_l.
Qed.

(** The short-circuit itself is in the code: with both redshifts zero
    the reference flux comes back unchanged. *)
Lemma calculate_flux_density_both_zero
    (self : gmap string F) (flux_ref z_ref z_target spectral_index : F) :
  feqb z_ref (lit 0) = true -> feqb z_target (lit 0) = true ->
  feqb (lit 0) (lit 0) = true ->
  calculate_flux_density py_pow self flux_ref z_ref z_target spectral_index
  = Ok flux_ref.
Proof.
  intros Hr Ht H0. unfold calculate_flux_density.
  rewrite !angular_diameter_distance_zero by assumption.
  cbn [bind]. now rewrite H0.
Qed.

End CosmologyFacts.

Section CosmologyBinary64.

Variable py_pow : float -> float -> result float.

Lemma binary64_lit_zero : lit (F := float) 0 = 0%float.
Proof. vm_compute. reflexivity. Qed.

Lemma binary64_zero_eqb : feqb 0%float (lit 0) = true.
Proof. vm_compute. reflexivity. Qed.

(** C6. The short-circuit does not give the reference flux back when
    only one of the two distances is zero: with [z_ref = 0], so that
    [angular_diameter_distance(z_ref) == 0], and any other target
    redshift, the second call of [angular_diameter_distance] raises the
    [AttributeError] of C1 before the test is reached. *)
Theorem calculate_flux_density_zero_reference_raises
    (h0 omega_m flux_ref z_target spectral_index : float) :
  PrimFloat.eqb z_target 0 = false ->
  angular_diameter_distance py_pow (CosmologyCalculator h0 omega_m) 0%float
  = Ok 0%float
  /\ calculate_flux_density py_pow (CosmologyCalculator h0 omega_m)
       flux_ref 0%float z_target spectral_index
     = Raise (AttributeError "omega_l").
Proof.
  intros Hz. split.
  - exact (angular_diameter_distance_zero py_pow _ _ binary64_zero_eqb).
  - unfold calculate_flux_density.
    rewrite (angular_diameter_distance_zero py_pow _ _ binary64_zero_eqb).
    cbn [bind].
    rewrite angular_diameter_distance_no_omega_l; [reflexivity |].
    rewrite binary64_lit_zero. exact Hz.
Qed.

(** C8. [angular_diameter_distance(0)] is exactly [0.0], for every
    [h0] and [omega_m]: the test [redshift == 0] comes first, and
    neither the attributes nor [**] are consulted. *)
Theorem angular_diameter_distance_at_zero (h0 omega_m : float) :
  angular_diameter_distance py_pow (CosmologyCalculator h0 omega_m) 0%float
  = Ok 0%float.
Proof.
  exact (angular_diameter_distance_zero py_pow _ _ binary64_zero_eqb).
Qed.

End CosmologyBinary64.

Lemma angular_diameter_distance_raises_witness :
  angular_diameter_distance (fun _ _ => Raise OverflowError)
    (CosmologyCalculator HUBBLE_CONSTANT MATTER_DENSITY_PARAMETER) 0.5%float
  = Raise (AttributeError "omega_l")
  /\ ~ returns (angular_diameter_distance (fun _ _ => Raise OverflowError)
        (CosmologyCalculator HUBBLE_CONSTANT MATTER_DENSITY_PARAMETER)
        0.5%float).
Proof.
  apply (angular_diameter_distance_raises (F := float)). reflexivity.
Defined.

Lemma calculate_flux_density_same_redshift_raises_witness :
  calculate_flux_density (fun _ _ => Raise OverflowError)
    (CosmologyCalculator HUBBLE_CONSTANT MATTER_DENSITY_PARAMETER)
    0.6%float 0.1%float 0.1%float (-1.6)%float
  = Raise (AttributeError "omega_l").
Proof.
  apply (calculate_flux_density_same_redshift_raises (F := float)).
  reflexivity.
Defined.

Lemma calculate_flux_density_zero_reference_raises_witness :
  angular_diameter_distance (fun _ _ => Raise OverflowError)
    (CosmologyCalculator HUBBLE_CONSTANT MATTER_DENSITY_PARAMETER) 0%float
  = Ok 0%float
  /\ calculate_flux_density (fun _ _ => Raise OverflowError)
       (CosmologyCalculator HUBBLE_CONSTANT MATTER_DENSITY_PARAMETER)
       0.6%float 0%float 0.5%float (-1.6)%float
     = Raise (AttributeError "omega_l").
Proof.
  apply calculate_flux_density_zero_reference_raises. reflexivity.
Defined.

(** ** The validators *)

Section ValidatorFacts.

Context {F : Type} `{FloatArith F}.

(** On a number the chained comparison does not raise. *)
Lemma chained_le_numeric (lo hi : F) (v : pyval F) :
  isinstance_int_float v = true -> exists b, chained_le lo v hi = Ok b.
Proof.
  unfold chained_le.
  destruct v; cbn; try discriminate; intros _;
    match goal with
    | |- context [if ?c then _ else _] => destruct c; eauto
    end.
Qed.

Lemma within_or_not (lo hi : F) (v : pyval F) :
  within lo hi v \/ ~ within lo hi v.
Proof.
  unfold within.
  destruct (isinstance_int_float v) eqn:Hn.
  - destruct (chained_le_numeric lo hi v Hn) as [[|] Hb]; rewrite Hb.
    + now left.
    + right. intros [_ Hc]. discriminate.
  - right. intros [Hc _]. discriminate.
Qed.

(** One turn of a validation loop: a value that is [within] passes, any
    other ends in a [ValueError]. *)
Lemma validate_redshifts_loop_cons (z : pyval F) (rest : list (pyval F)) :
  (within MIN_REDSHIFT MAX_REDSHIFT z ->
   validate_redshifts_loop (z :: rest) = validate_redshifts_loop rest)
  /\ (~ within MIN_REDSHIFT MAX_REDSHIFT z ->
      is_ValueError (validate_redshifts_loop (z :: rest))).
Proof.
  unfold within. cbn [validate_redshifts_loop].
  destruct (isinstance_int_float z) eqn:Hn; cbn [negb].
  - destruct (chained_le_numeric MIN_REDSHIFT MAX_REDSHIFT z Hn)
      as [[|] Hb]; rewrite Hb; cbn [bind negb]; split.
    + reflexivity.
    + intros Hc. exfalso. now apply Hc.
    + intros [_ Hc]. discriminate.
    + intros _. eexists. reflexivity.
  - split.
    + intros [Hc _]. discriminate.
    + intros _. eexists. reflexivity.
Qed.

Lemma validate_redshifts_loop_ok (zs : list (pyval F)) :
  Forall (within MIN_REDSHIFT MAX_REDSHIFT) zs ->
  validate_redshifts_loop zs = Ok true.
Proof.
  induction 1 as [| z rest Hz _ IH]; [reflexivity |].
  now rewrite (proj1 (validate_redshifts_loop_cons z rest) Hz).
Qed.

Lemma validate_redshifts_loop_fail (zs : list (pyval F)) :
  ~ Forall (within MIN_REDSHIFT MAX_REDSHIFT) zs ->
  is_ValueError (validate_redshifts_loop zs).
Proof.
  induction zs as [| z rest IH]; intros Hno.
  - exfalso. apply Hno. constructor.
  - destruct (within_or_not MIN_REDSHIFT MAX_REDSHIFT z) as [Hz | Hz].
    + rewrite (proj1 (validate_redshifts_loop_cons z rest) Hz).
      apply IH. intros Hrest. apply Hno. now constructor.
    + now apply validate_redshifts_loop_cons.
Qed.

Lemma validate_redshifts_ok (zs : list (pyval F)) :
  zs <> [] -> Forall (within MIN_REDSHIFT MAX_REDSHIFT) zs ->
  validate_redshifts (PyList zs) = Ok true.
Proof.
  intros Hne Hall. unfold validate_redshifts.
  destruct zs as [| z rest]; [congruence |].
  cbn [length Nat.eqb]. now apply validate_redshifts_loop_ok.
Qed.

Lemma validate_redshifts_fail (zs : list (pyval F)) (z : pyval F) :
  In z zs -> ~ within MIN_REDSHIFT MAX_REDSHIFT z ->
  is_ValueError (validate_redshifts (PyList zs)).
Proof.
  intros Hin Hz. unfold validate_redshifts.
  destruct zs as [| z0 rest]; [destruct Hin |].
  cbn [length Nat.eqb]. apply validate_redshifts_loop_fail.
  intros Hall. apply Hz.
  rewrite Forall_forall in Hall. apply Hall.
  now apply list_elem_of_In.
Qed.

Lemma validate_redshifts_not_a_list (v : pyval F) :
  (forall zs, v <> PyList zs) -> is_ValueError (validate_redshifts v).
Proof.
  intros Hv. destruct v; cbn; try (eexists; reflexivity).
  exfalso. now apply (Hv l).
Qed.

Lemma validate_flux_density_iff (flux_jy : pyval F) :
  (validate_flux_density flux_jy = Ok true
   <-> within MIN_FLUX_DENSITY_JY MAX_FLUX_DENSITY_JY flux_jy)
  /\ (~ within MIN_FLUX_DENSITY_JY MAX_FLUX_DENSITY_JY flux_jy ->
      is_ValueError (validate_flux_density flux_jy)).
Proof.
  unfold within, validate_flux_density.
  destruct (isinstance_int_float flux_jy) eqn:Hn; cbn [negb].
  - destruct (chained_le_numeric MIN_FLUX_DENSITY_JY MAX_FLUX_DENSITY_JY
                flux_jy Hn) as [[|] Hb]; rewrite Hb; cbn [bind negb].
    + split; [tauto |]. intros Hc. exfalso. now apply Hc.
    + split.
      * split; [discriminate | intros [_ Hc]; discriminate].
      * intros _. eexists. reflexivity.
  - split.
    + split; [discriminate | intros [Hc _]; discriminate].
    + intros _. eexists. reflexivity.
Qed.

End ValidatorFacts.

(** ** The order of binary64 floats *)

Section Binary64Order.

Lemma digits2_pos_bounds (m : positive) :
  2 ^ (Zpos (digits2_pos m) - 1) <= Zpos m < 2 ^ Zpos (digits2_pos m).
Proof.
  induction m as [p IH | p IH |]; cbn [digits2_pos].
  - rewrite Pos2Z.inj_succ.
    replace (Z.succ (Zpos (digits2_pos p)) - 1)
      with (Z.succ (Zpos (digits2_pos p) - 1)) by lia.
    rewrite !Z.pow_succ_r by lia. lia.
  - rewrite Pos2Z.inj_succ.
    replace (Z.succ (Zpos (digits2_pos p)) - 1)
      with (Z.succ (Zpos (digits2_pos p) - 1)) by lia.
    rewrite !Z.pow_succ_r by lia. lia.
  - cbn. lia.
Qed.

(** A valid significand has at most 53 bits, and exactly 53 above the
    subnormal exponent. *)
Lemma valid_finite_bounds (s : bool) (m : positive) (e : Z) :
  valid_binary (S754_finite s m e) = true ->
  -1074 <= e /\ Zpos m < 2 ^ 53 /\ (-1074 < e -> 2 ^ 52 <= Zpos m).
Proof.
  unfold valid_binary, SpecFloat.valid_binary, bounded, canonical_mantissa,
    fexp, emin, prec, emax.
  intros Hv. apply andb_true_iff in Hv as [Hc _].
  apply Z.eqb_eq in Hc.
  pose proof (digits2_pos_bounds m) as [Hlo Hhi].
  set (d := Zpos (digits2_pos m)) in *.
  assert (Hd : 0 < d) by (unfold d; lia).
  assert (Hd53 : d <= 53) by lia.
  split; [lia |]. split.
  - apply Z.lt_le_trans with (2 ^ d); [exact Hhi |].
    apply Z.pow_le_mono_r; lia.
  - intros He. assert (d = 53) by lia.
    replace 52 with (d - 1) by lia. exact Hlo.
Qed.

Lemma scaled_pos (m : positive) (e : Z) : -1074 <= e -> 0 < scaled m e.
Proof.
  intros He. unfold scaled. apply Z.mul_pos_pos; [lia |].
  apply Z.pow_pos_nonneg; lia.
Qed.

Lemma finite_value_scaled (m : positive) (e : Z) :
  -1074 <= e ->
  (finite_value m e == scaled m e # Z.to_pos (2 ^ 1074))%Q.
Proof.
  intros He. unfold finite_value, scaled, Qeq.
  assert (HP : 0 < 2 ^ 1074) by (apply Z.pow_pos_nonneg; lia).
  destruct (0 <=? e) eqn:Hs; cbn [Qnum Qden].
  - apply Z.leb_le in Hs.
    rewrite Z2Pos.id by exact HP.
    rewrite Z.pow_add_r by lia. ring.
  - apply Z.leb_gt in Hs.
    rewrite !Z2Pos.id by (try exact HP; apply Z.pow_pos_nonneg; lia).
    rewrite <- Z.mul_assoc, <- Z.pow_add_r by lia.
    do 2 f_equal. lia.
Qed.

Lemma scaled_compare (s1 s2 : bool) (m1 m2 : positive) (e1 e2 : Z) :
  valid_binary (S754_finite s1 m1 e1) = true ->
  valid_binary (S754_finite s2 m2 e2) = true ->
  match e1 ?= e2 with
  | Lt => Lt
  | Gt => Gt
  | Eq => Pos.compare_cont Eq m1 m2
  end = (scaled m1 e1 ?= scaled m2 e2).
Proof.
  intros H1 H2.
  apply valid_finite_bounds in H1 as (He1 & Hm1 & Hn1).
  apply valid_finite_bounds in H2 as (He2 & Hm2 & Hn2).
  unfold scaled.
  assert (Hlt : forall ma mb ea eb : Z,
             -1074 <= ea < eb -> 0 < ma < 2 ^ 53 -> 2 ^ 52 <= mb ->
             ma * 2 ^ (ea + 1074) < mb * 2 ^ (eb + 1074)).
  { intros ma mb ea eb Hab Hma Hmb.
    assert (HB : 2 ^ (eb + 1074)
                 = 2 ^ (ea + 1074) * (2 * 2 ^ (eb - ea - 1))).
    { rewrite <- Z.pow_succ_r, <- Z.pow_add_r by lia. f_equal. lia. }
    assert (0 < 2 ^ (ea + 1074)) by (apply Z.pow_pos_nonneg; lia).
    assert (0 < 2 ^ (eb - ea - 1)) by (apply Z.pow_pos_nonneg; lia).
    rewrite HB. set (A := 2 ^ (ea + 1074)) in *.
    set (B := 2 ^ (eb - ea - 1)) in *.
    change (2 ^ 53) with (2 ^ 52 * 2) in Hma.
    set (C := 2 ^ 52) in *. nia. }
  destruct (Z.compare_spec e1 e2) as [Heq | Hl | Hg].
  - subst e2.
    rewrite <- Zmult_compare_compat_r
      by (apply Z.lt_gt, Z.pow_pos_nonneg; lia).
    reflexivity.
  - symmetry. apply Z.compare_lt_iff. apply Hlt; lia.
  - symmetry. apply Z.compare_gt_iff. apply Hlt; lia.
Qed.

(** On the finite floats, [SFcompare] is the order of the values. *)
Lemma SFcompare_scaled (a b : spec_float) :
  valid_binary a = true -> valid_binary b = true ->
  (exists qa, SF_classify a = FFin qa) ->
  (exists qb, SF_classify b = FFin qb) ->
  SFcompare a b = Some (SF_scaled a ?= SF_scaled b).
Proof.
  intros Ha Hb [qa Hqa] [qb Hqb].
  destruct a as [sa | sa | | sa ma ea]; try discriminate;
    destruct b as [sb | sb | | sb mb eb]; try discriminate;
    cbn [SFcompare SF_scaled].
  - reflexivity.
  - pose proof (scaled_pos mb eb
                  (proj1 (valid_finite_bounds _ _ _ Hb))) as Hp.
    destruct sb; f_equal; symmetry.
    + apply Z.compare_gt_iff. lia.
    + apply Z.compare_lt_iff. lia.
  - pose proof (scaled_pos ma ea
                  (proj1 (valid_finite_bounds _ _ _ Ha))) as Hp.
    destruct sa; f_equal; symmetry.
    + apply Z.compare_lt_iff. lia.
    + apply Z.compare_gt_iff. lia.
  - pose proof (scaled_pos ma ea
                  (proj1 (valid_finite_bounds _ _ _ Ha))) as Hpa.
    pose proof (scaled_pos mb eb
                  (proj1 (valid_finite_bounds _ _ _ Hb))) as Hpb.
    pose proof (scaled_compare sa sb ma mb ea eb Ha Hb) as Hc.
    destruct sa, sb; f_equal.
    + rewrite Z.compare_opp, (Z.compare_antisym (scaled ma ea)), <- Hc.
      now destruct (ea ?= eb).
    + symmetry. apply Z.compare_lt_iff. lia.
    + symmetry. apply Z.compare_gt_iff. lia.
    + exact Hc.
Qed.

End Binary64Order.

Section Binary64Exact.

Lemma SF_classify_scaled (a : spec_float) (q : Q) :
  valid_binary a = true -> SF_classify a = FFin q ->
  (q == SF_scaled a # Z.to_pos (2 ^ 1074))%Q.
Proof.
  intros Hv Hq.
  destruct a as [s | s | | s m e]; try discriminate;
    cbn [SF_classify SF_scaled] in *; injection Hq as <-.
  - reflexivity.
  - rewrite Qred_correct.
    pose proof (finite_value_scaled m e
                  (proj1 (valid_finite_bounds _ _ _ Hv))) as Hs.
    destruct s; rewrite Hs; reflexivity.
Qed.

Lemma Qcompare_same_den (x y : Z) (d : positive) :
  (x # d ?= y # d)%Q = (x ?= y).
Proof.
  unfold Qcompare. cbn [Qnum Qden].
  symmetry. apply Zmult_compare_compat_r. lia.
Qed.

(** The comparison of two binary64 floats is the comparison of their
    exact values. *)
Lemma binary64_compare_exact (x y : float) :
  SFcompare (Prim2SF x) (Prim2SF y)
  = fclass_compare (classify x) (classify y).
Proof.
  cbn [classify binary64]. unfold binary64_classify.
  pose proof (Prim2SF_valid x) as Hx. pose proof (Prim2SF_valid y) as Hy.
  destruct (SF_classify (Prim2SF x)) as [| sx | qx] eqn:Cx;
    destruct (SF_classify (Prim2SF y)) as [| sy | qy] eqn:Cy;
    try (destruct (Prim2SF x) as [? | ? | | ? ? ?];
         destruct (Prim2SF y) as [? | ? | | ? ? ?];
         try discriminate; cbn in *;
         repeat match goal with
                | H : FInf _ = FInf _ |- _ => injection H as <-
                end;
         reflexivity).
  cbn [fclass_compare].
  rewrite SFcompare_scaled by eauto. f_equal.
  rewrite <- (Qcompare_same_den _ _ (Z.to_pos (2 ^ 1074))).
  symmetry. apply Qcompare_comp; now apply SF_classify_scaled.
Qed.

Lemma Qle_bool_compare (p q : Q) :
  Qle_bool p q = match (p ?= q)%Q with Gt => false | _ => true end.
Proof. reflexivity. Qed.

Lemma binary64_leb_exact (x y : float) :
  PrimFloat.leb x y
  = match fclass_compare (classify x) (classify y) with
    | Some (Lt | Eq) => true
    | _ => false
    end.
Proof. now rewrite FloatAxioms.leb_spec, <- binary64_compare_exact. Qed.

Lemma binary64_ltb_exact (x y : float) :
  PrimFloat.ltb x y
  = match fclass_compare (classify x) (classify y) with
    | Some Lt => true
    | _ => false
    end.
Proof. now rewrite FloatAxioms.ltb_spec, <- binary64_compare_exact. Qed.

Lemma binary64_eqb_exact (x y : float) :
  PrimFloat.eqb x y
  = match fclass_compare (classify x) (classify y) with
    | Some Eq => true
    | _ => false
    end.
Proof. now rewrite FloatAxioms.eqb_spec, <- binary64_compare_exact. Qed.

End Binary64Exact.

(** ** The validators on binary64 *)

Section ValidatorBinary64.

Lemma binary64_classify_lit_0 : classify (lit (F := float) 0) = FFin 0.
Proof. vm_compute. reflexivity. Qed.

Lemma binary64_classify_lit_10 : classify (lit (F := float) 10) = FFin 10.
Proof. vm_compute. reflexivity. Qed.

Lemma binary64_classify_lit_1e6 :
  classify (lit (F := float) 1000000) = FFin 1000000.
Proof. vm_compute. reflexivity. Qed.

Lemma binary64_leb_finite (x y : float) (qx qy : Q) :
  classify x = FFin qx -> classify y = FFin qy ->
  PrimFloat.leb x y = Qle_bool qx qy.
Proof. intros Hx Hy. now rewrite binary64_leb_exact, Hx, Hy. Qed.

(** For bounds that are rationals, the chained comparison of the code
    is membership of the exact value in the closed interval. *)
Lemma within_in_interval (lo hi : float) (qlo qhi : Q) (v : pyval float) :
  classify lo = FFin qlo -> classify hi = FFin qhi ->
  within lo hi v <-> in_interval qlo qhi v.
Proof.
  intros Hlo Hhi. unfold within, in_interval, chained_le.
  destruct v as [| b | n | x | s | l]; cbn [isinstance_int_float exact_value
    float_le_val val_le_float bind];
    try (split; [intros [Hc _]; discriminate
                | intros (q & Hq & _); discriminate]).
  - unfold float_le_int, int_le_float. rewrite Hlo, Hhi.
    split.
    + intros [_ Hc]. exists (inject_Z (bool_to_int b)).
      split; [reflexivity |].
      destruct (Qle_bool qlo (inject_Z (bool_to_int b))) eqn:H1;
        [| discriminate].
      injection Hc as H2.
      split; now apply Qle_bool_iff.
    + intros (q & Hq & H1 & H2). injection Hq as <-.
      apply Qle_bool_iff in H1, H2. now rewrite H1, H2.
  - unfold float_le_int, int_le_float. rewrite Hlo, Hhi.
    split.
    + intros [_ Hc]. exists (inject_Z n).
      split; [reflexivity |].
      destruct (Qle_bool qlo (inject_Z n)) eqn:H1; [| discriminate].
      injection Hc as H2.
      split; now apply Qle_bool_iff.
    + intros (q & Hq & H1 & H2). injection Hq as <-.
      apply Qle_bool_iff in H1, H2. now rewrite H1, H2.
  - cbn [fleb binary64].
    destruct (classify x) as [| sx | qx] eqn:Cx.
    + split; [| intros (q & Hq & _); discriminate].
      intros [_ Hc]. exfalso.
      rewrite !binary64_leb_exact, Cx, Hlo, Hhi in Hc. discriminate.
    + split; [| intros (q & Hq & _); discriminate].
      intros [_ Hc]. exfalso.
      rewrite !binary64_leb_exact, Cx, Hlo, Hhi in Hc.
      destruct sx; discriminate.
    + rewrite (binary64_leb_finite lo x qlo qx Hlo Cx),
        (binary64_leb_finite x hi qx qhi Cx Hhi).
      split.
      * intros [_ Hc]. exists qx. split; [reflexivity |].
        destruct (Qle_bool qlo qx) eqn:H1; [| discriminate].
        injection Hc as H2. split; now apply Qle_bool_iff.
      * intros (q & Hq & H1 & H2). injection Hq as <-.
        apply Qle_bool_iff in H1, H2. now rewrite H1, H2.
Qed.

Lemma within_redshift_range (v : pyval float) :
  within MIN_REDSHIFT MAX_REDSHIFT v <-> in_interval 0 10 v.
Proof.
  apply within_in_interval;
    [exact binary64_classify_lit_0 | exact binary64_classify_lit_10].
Qed.

Lemma within_flux_range (v : pyval float) :
  within MIN_FLUX_DENSITY_JY MAX_FLUX_DENSITY_JY v
  <-> in_interval 0 1000000 v.
Proof.
  apply within_in_interval;
    [exact binary64_classify_lit_0 | exact binary64_classify_lit_1e6].
Qed.

(** C9. [validate_redshifts] raises [ValueError] on the empty list and
    on every list with an entry that is not a number of the closed
    interval [[0, 10]] (so on [[-0.1, 0.5]] and [[0.1, 100.0]]), and
    returns [True] on every non-empty list of numbers whose exact values
    all lie in [[0, 10]], such as the thirteen redshifts of the
    specification. *)
Theorem validate_redshifts_accepts_exactly :
  is_ValueError (validate_redshifts (F := float) (PyList []))
  /\ is_ValueError
       (validate_redshifts (PyList [PyFloat (-0.1)%float; PyFloat 0.5%float]))
  /\ is_ValueError
       (validate_redshifts (PyList [PyFloat 0.1%float; PyFloat 100%float]))
  /\ validate_redshifts
       (PyList (map PyFloat
          [0.05; 0.1; 0.13; 0.15; 0.17; 0.2; 0.3; 0.4; 0.5; 0.6; 0.8; 0.9;
           1.0]%float))
     = Ok true
  /\ (forall (zs : list (pyval float)) (z : pyval float),
        In z zs -> ~ in_interval 0 10 z ->
        is_ValueError (validate_redshifts (PyList zs)))
  /\ (forall zs : list (pyval float),
        zs <> [] -> Forall (in_interval 0 10) zs ->
        validate_redshifts (PyList zs) = Ok true).
Proof.
  refine (conj _ (conj _ (conj _ (conj _ (conj _ _))))).
  - eexists. reflexivity.
  - eexists. vm_compute. reflexivity.
  - eexists. vm_compute. reflexivity.
  - vm_compute. reflexivity.
  - intros zs z Hin Hz. apply (validate_redshifts_fail zs z Hin).
    intros Hw. apply Hz. now apply within_redshift_range.
  - intros zs Hne Hall. apply validate_redshifts_ok; [exact Hne |].
    eapply Forall_impl; [exact Hall |].
    intros v Hv. now apply within_redshift_range.
Qed.

(** C10. [validate_flux_density] enforces an upper bound: it returns
    [True] exactly on the numbers whose value lies in the closed
    interval [[0, 1e6]], and raises [ValueError] on every other value;
    [2e6], which is not negative, is rejected. *)
Theorem validate_flux_density_upper_bound :
  (forall v : pyval float,
     validate_flux_density v = Ok true <-> in_interval 0 1000000 v)
  /\ (forall v : pyval float,
        ~ in_interval 0 1000000 v -> is_ValueError (validate_flux_density v))
  /\ classify 2e6%float = FFin 2000000
  /\ validate_flux_density (PyFloat 2e6%float)
     = Raise (ValueError "Flux density out of range")
  /\ validate_flux_density (PyFloat 0%float) = Ok true
  /\ validate_flux_density (PyFloat 1e6%float) = Ok true.
Proof.
  refine (conj _ (conj _ (conj _ (conj _ (conj _ _))))).
  - intros v. rewrite <- within_flux_range.
    apply (validate_flux_density_iff v).
  - intros v Hv. apply (validate_flux_density_iff v).
    intros Hw. apply Hv. now apply within_flux_range.
  - vm_compute. reflexivity.
  - vm_compute. reflexivity.
  - vm_compute. reflexivity.
  - vm_compute. reflexivity.
Qed.

End ValidatorBinary64.

(** ** The sexagesimal codec on concrete inputs *)

Section CodecExamples.

(** What [float] raises on a string is a [ValueError], which the [try]
    block of the parsers turns into their own. *)
Lemma float_or_cases (msg part : string) :
  (exists x : float, py_float part = Ok x /\ float_or msg part = Ok x)
  \/ (~ returns (py_float (F := float) part)
      /\ float_or (F := float) msg part = Raise (ValueError msg)).
Proof.
  unfold float_or, py_float.
  destruct (parse_float_text part) as [[negative [| | q]] |];
    cbn [finf fnan binary64];
    try (left; eexists; split; reflexivity);
    right; (split; [intros [x Hx]; discriminate | reflexivity]).
Qed.

(** The three fields, once split: any field that [float] does not read
    ends the parser in its [ValueError]. *)
Lemma fields_not_numeric (msg p0 p1 p2 : string) (k : float -> float -> float -> result float) :
  ~ returns (py_float (F := float) p0)
  \/ ~ returns (py_float (F := float) p1)
  \/ ~ returns (py_float (F := float) p2) ->
  (let* a := float_or msg p0 in
   let* b := float_or msg p1 in
   let* c := float_or msg p2 in
   k a b c) = Raise (ValueError msg).
Proof.
  intros Hbad.
  destruct (float_or_cases msg p0) as [(a & Pa & ->) | [Na ->]];
    [| reflexivity].
  destruct (float_or_cases msg p1) as [(b & Pb & ->) | [Nb ->]];
    [| reflexivity].
  destruct (float_or_cases msg p2) as [(c & Pc & ->) | [Nc ->]];
    [| reflexivity].
  exfalso. destruct Hbad as [Hb | [Hb | Hb]]; apply Hb; eexists; eassumption.
Qed.

(** C4. The strings ["4:30:15.5"] and ["45:30:15.5"] are not rejected:
    the parsers turn the unit letters into colons and split at the
    colons, so a string written with colons goes the same way, and the
    results are [4 + 30/60 + 15.5/3600] hours and
    [45 + 30/60 + 15.5/3600] degrees.  What fails, for every string, is
    a string that does not split into three fields, with the
    [ValueError] of the format, and a string with a field that [float]
    does not read, with the [ValueError] of the components; ["4:30"]
    and ["4:xx:15.5"] are such strings. *)
Theorem parse_colon_separated :
  parse_ra_hms "4:30:15.5" = Ok (4 + 30 / 60 + 15.5 / 3600)%float
  /\ parse_dec_dms "45:30:15.5" = Ok (45 + 30 / 60 + 15.5 / 3600)%float
  /\ parse_ra_hms (F := Q) "4:30:15.5" = Ok (32431 # 7200)
  /\ parse_dec_dms (F := Q) "45:30:15.5" = Ok (327631 # 7200)
  /\ (forall ra_string : string,
        length (split_char ":"
                  (replace_char "s" ""
                     (replace_char "m" ":"
                        (replace_char "h" ":" ra_string)))) <> 3%nat ->
        parse_ra_hms (F := float) ra_string
        = Raise (ValueError "Invalid RA format"))
  /\ (forall ra_string p0 p1 p2 : string,
        split_char ":"
          (replace_char "s" ""
             (replace_char "m" ":" (replace_char "h" ":" ra_string)))
        = [p0; p1; p2] ->
        ~ returns (py_float (F := float) p0)
        \/ ~ returns (py_float (F := float) p1)
        \/ ~ returns (py_float (F := float) p2) ->
        parse_ra_hms (F := float) ra_string
        = Raise (ValueError "Could not parse RA components"))
  /\ (forall dec_string : string,
        let unsigned :=
          if startswith_char "-" dec_string then drop_first dec_string
          else if startswith_char "+" dec_string then drop_first dec_string
          else dec_string in
        length (split_char ":"
                  (replace_char "s" ""
                     (replace_char "m" ":"
                        (replace_char "d" ":" unsigned)))) <> 3%nat ->
        parse_dec_dms (F := float) dec_string
        = Raise (ValueError "Invalid DEC format"))
  /\ (forall dec_string p0 p1 p2 : string,
        let unsigned :=
          if startswith_char "-" dec_string then drop_first dec_string
          else if startswith_char "+" dec_string then drop_first dec_string
          else dec_string in
        split_char ":"
          (replace_char "s" ""
             (replace_char "m" ":" (replace_char "d" ":" unsigned)))
        = [p0; p1; p2] ->
        ~ returns (py_float (F := float) p0)
        \/ ~ returns (py_float (F := float) p1)
        \/ ~ returns (py_float (F := float) p2) ->
        parse_dec_dms (F := float) dec_string
        = Raise (ValueError "Could not parse DEC components"))
  /\ parse_ra_hms (F := float) "4:30"
     = Raise (ValueError "Invalid RA format")
  /\ parse_ra_hms (F := float) "4:30:15.5:2"
     = Raise (ValueError "Invalid RA format")
  /\ parse_ra_hms (F := float) "4:xx:15.5"
     = Raise (ValueError "Could not parse RA components")
  /\ parse_dec_dms (F := float) "45:30"
     = Raise (ValueError "Invalid DEC format")
  /\ parse_dec_dms (F := float) "45d30mxs"
     = Raise (ValueError "Could not parse DEC components").
Proof.
  refine (conj _ (conj _ (conj _ (conj _ (conj _ (conj _ (conj _ (conj _
            (conj _ (conj _ (conj _ (conj _ _)))))))))))).
  1-4, 9-13: vm_compute; reflexivity.
  - intros ra_string Hlen. unfold parse_ra_hms. cbv zeta.
    destruct (split_char ":" _) as [| p0 [| p1 [| p2 [| p3 rest]]]];
      try reflexivity.
    exfalso. now apply Hlen.
  - intros ra_string p0 p1 p2 Hsplit Hbad. unfold parse_ra_hms. cbv zeta.
    rewrite Hsplit. now apply fields_not_numeric.
  - intros dec_string unsigned Hlen. unfold parse_dec_dms.
    subst unsigned.
    destruct (startswith_char "-" dec_string);
      [| destruct (startswith_char "+" dec_string)];
      cbv zeta iota beta in *;
      (destruct (split_char ":" _) as [| p0 [| p1 [| p2 [| p3 rest]]]];
       try reflexivity; exfalso; now apply Hlen).
  - intros dec_string p0 p1 p2 unsigned Hsplit Hbad. unfold parse_dec_dms.
    subst unsigned.
    destruct (startswith_char "-" dec_string);
      [| destruct (startswith_char "+" dec_string)];
      cbv zeta iota beta in *;
      rewrite Hsplit; now apply fields_not_numeric.
Qed.

Lemma parse_colon_separated_not_rejected :
  ~ (is_ValueError (parse_ra_hms (F := float) "4:30:15.5")
     /\ is_ValueError (parse_dec_dms (F := float) "45:30:15.5")).
Proof.
  intros [[msg Hra] _]. vm_compute in Hra. discriminate.
Qed.

(** C5. No carry follows the rounding of the seconds: where the
    seconds round to [60.00], the string says [60.00], in right
    ascension and in declination, and the parser of the same module
    refuses such a string. *)
Theorem seconds_field_reaches_60 :
  ra_arcsec_to_hms 899.95%float = Ok "00h00m60.00s"
  /\ ra_arcsec_to_hms (89995 # 100)%Q = Ok "00h00m60.00s"
  /\ ra_arcsec_to_hms 243900%float = Ok "04h30m60.00s"
  /\ dec_arcsec_to_dms 3599.996%float = Ok "+0d59m60.00s"
  /\ dec_arcsec_to_dms (-3599.996)%float = Ok "-0d59m60.00s"
  /\ dec_arcsec_to_dms (3599996 # 1000)%Q = Ok "+0d59m60.00s"
  /\ parse_ra_hms (F := float) "00h00m60.00s"
     = Raise (ValueError "RA values out of range")
  /\ parse_dec_dms (F := float) "+0d59m60.00s"
     = Raise (ValueError "DEC values out of range").
Proof. vm_compute. repeat split; reflexivity. Qed.

End CodecExamples.

(** ** Strings: replacing and splitting *)

Section StringFacts.

Lemma app_String (x : ascii) (a b : string) :
  String x a +:+ b = String x (a +:+ b).
Proof. reflexivity. Qed.

Lemma app_empty (b : string) : "" +:+ b = b.
Proof. reflexivity. Qed.

Lemma app_empty_r (a : string) : a +:+ "" = a.
Proof.
  induction a as [| x a IH]; [reflexivity |].
  now rewrite app_String, IH.
Qed.

Lemma app_assoc_string (a b c : string) :
  (a +:+ b) +:+ c = a +:+ (b +:+ c).
Proof.
  induction a as [| x a IH]; [reflexivity |].
  now rewrite !app_String, IH.
Qed.

Lemma no_char_app (c : ascii) (a b : string) :
  no_char c (a +:+ b) = no_char c a && no_char c b.
Proof.
  induction a as [| x a IH]; rewrite ?app_String, ?app_empty; cbn [no_char]; [reflexivity |].
  now rewrite IH, andb_assoc.
Qed.

Lemma replace_char_app (old : ascii) (new a b : string) :
  replace_char old new (a +:+ b)
  = replace_char old new a +:+ replace_char old new b.
Proof.
  induction a as [| x a IH]; rewrite ?app_String, ?app_empty;
    cbn [replace_char]; [reflexivity |].
  rewrite IH. destruct (Ascii.eqb x old).
  - now rewrite app_assoc_string.
  - reflexivity.
Qed.

Lemma replace_char_id (old : ascii) (new a : string) :
  no_char old a = true -> replace_char old new a = a.
Proof.
  induction a as [| x a IH]; cbn [replace_char no_char]; [reflexivity |].
  intros Hn. apply andb_true_iff in Hn as [Hx Ha].
  apply negb_true_iff in Hx. rewrite Hx, app_String, app_empty.
  now rewrite IH.
Qed.

Lemma split_char_none (sep : ascii) (a : string) :
  no_char sep a = true -> split_char sep a = [a].
Proof.
  induction a as [| x a IH]; cbn [split_char no_char]; [reflexivity |].
  intros Hn. apply andb_true_iff in Hn as [Hx Ha].
  apply negb_true_iff in Hx. rewrite Hx. now rewrite IH.
Qed.

Lemma split_char_app_sep (sep : ascii) (a rest : string) :
  no_char sep a = true ->
  split_char sep (a +:+ String sep rest) = a :: split_char sep rest.
Proof.
  induction a as [| x a IH]; rewrite ?app_String, ?app_empty;
    cbn [split_char no_char].
  - intros _. now rewrite Ascii.eqb_refl.
  - intros Hn. apply andb_true_iff in Hn as [Hx Ha].
    apply negb_true_iff in Hx. rewrite Hx. now rewrite IH.
Qed.

Lemma replace_char_cons_eq (old : ascii) (new rest : string) :
  replace_char old new (String old rest)
  = new +:+ replace_char old new rest.
Proof. cbn [replace_char]. now rewrite Ascii.eqb_refl. Qed.

Lemma replace_char_cons_ne (old x : ascii) (new rest : string) :
  x <> old ->
  replace_char old new (String x rest)
  = String x (replace_char old new rest).
Proof.
  intros Hne. cbn [replace_char].
  apply Ascii.eqb_neq in Hne. now rewrite Hne.
Qed.

Lemma replace_char_field (old : ascii) (new a rest : string) :
  no_char old a = true ->
  replace_char old new (a +:+ rest) = a +:+ replace_char old new rest.
Proof.
  intros Ha. now rewrite replace_char_app, replace_char_id.
Qed.

(** The three fields of a string written by the encoders come back
    from the replacements and the split of the parsers. *)
Lemma fields_of_encoding (u : ascii) (a b c : string) :
  u <> "m"%char -> u <> "s"%char -> u <> ":"%char ->
  clean u a = true -> clean u b = true -> clean u c = true ->
  split_char ":"
    (replace_char "s" ""
       (replace_char "m" ":"
          (replace_char u ":"
             (a +:+ String u (b +:+ String "m" (c +:+ "s"))))))
  = [a; b; c].
Proof.
  intros Hum Hus Huc Ha Hb Hc. unfold clean in *.
  repeat match goal with
         | H : _ && _ = true |- _ => apply andb_true_iff in H as [? ?]
         end.
  rewrite (replace_char_field u) by assumption.
  rewrite replace_char_cons_eq, app_String, app_empty.
  rewrite (replace_char_field u) by assumption.
  rewrite (replace_char_cons_ne u "m") by congruence.
  rewrite (replace_char_field u) by assumption.
  rewrite (replace_char_cons_ne u "s") by congruence.
  cbn [replace_char].
  rewrite (replace_char_field "m") by assumption.
  rewrite (replace_char_cons_ne "m" ":") by discriminate.
  rewrite (replace_char_field "m") by assumption.
  rewrite replace_char_cons_eq, app_String, app_empty.
  rewrite (replace_char_field "m") by assumption.
  rewrite (replace_char_cons_ne "m" "s") by discriminate.
  cbn [replace_char].
  rewrite (replace_char_field "s") by assumption.
  rewrite (replace_char_cons_ne "s" ":") by discriminate.
  rewrite (replace_char_field "s") by assumption.
  rewrite (replace_char_cons_ne "s" ":") by discriminate.
  rewrite (replace_char_field "s") by assumption.
  rewrite replace_char_cons_eq, app_empty.
  cbn [replace_char]. rewrite app_empty_r.
  rewrite split_char_app_sep by assumption.
  rewrite split_char_app_sep by assumption.
  now rewrite split_char_none.
Qed.

End StringFacts.

(** ** Exact rationals: rounding *)

Section RoundingFacts.

Local Open Scope Z_scope.

Lemma round_half_even_bounds (n d : Z) :
  0 < d ->
  2 * d * round_half_even n d - d <= 2 * n <= 2 * d * round_half_even n d + d.
Proof.
  intros Hd. unfold round_half_even.
  pose proof (Z.div_mod n d ltac:(lia)) as Hdm.
  pose proof (Z.mod_pos_bound n d Hd) as Hm.
  destruct (Z.compare_spec (2 * (n mod d)) d) as [He | Hl | Hg].
  - destruct (Z.even (n / d)); nia.
  - nia.
  - nia.
Qed.

(** The rounding depends on the ratio only. *)
Lemma round_half_even_ratio (n1 d1 n2 d2 : Z) :
  0 < d1 -> 0 < d2 -> n1 * d2 = n2 * d1 ->
  round_half_even n1 d1 = round_half_even n2 d2.
Proof.
  intros H1 H2 Heq.
  assert (Hq : n1 / d1 = n2 / d2).
  { pose proof (Z.div_mod n1 d1 ltac:(lia)).
    pose proof (Z.mod_pos_bound n1 d1 H1).
    pose proof (Z.div_mod n2 d2 ltac:(lia)).
    pose proof (Z.mod_pos_bound n2 d2 H2).
    set (k1 := n1 / d1) in *. set (k2 := n2 / d2) in *.
    set (r1 := n1 mod d1) in *. set (r2 := n2 mod d2) in *.
    assert (Hd : 0 < d1 * d2) by nia.
    destruct (Z.lt_trichotomy k1 k2) as [Hlt | [-> | Hgt]];
      [exfalso | reflexivity | exfalso].
    - assert (d1 * d2 * (k1 + 1) <= d1 * d2 * k2) by nia. nia.
    - assert (d1 * d2 * (k2 + 1) <= d1 * d2 * k1) by nia. nia. }
  unfold round_half_even. rewrite <- Hq.
  assert (Hc : (2 * (n1 mod d1) ?= d1) = (2 * (n2 mod d2) ?= d2)).
  { rewrite (Zmult_compare_compat_r _ _ d2) by lia.
    rewrite (Zmult_compare_compat_r (2 * (n2 mod d2)) _ d1) by lia.
    f_equal; [| ring].
    rewrite !Z.mod_eq by lia. rewrite <- Hq. nia. }
  now rewrite Hc.
Qed.

End RoundingFacts.

(** ** Exact rationals: the fields of the codec *)

Section FieldFacts.

Local Open Scope Z_scope.

Lemma result_is_true (r : result Q) (q : Q) :
  result_is r q = true -> r = Ok q.
Proof.
  destruct r as [[vn vd] | e]; [| discriminate].
  destruct q as [qn qd]. cbn [result_is Qnum Qden].
  intros Hc. apply andb_true_iff in Hc as [Hn Hd].
  apply Z.eqb_eq in Hn. apply Pos.eqb_eq in Hd. now subst.
Qed.

Lemma in_upto (n k : Z) : 0 <= k < n -> In k (upto n).
Proof.
  intros Hk. unfold upto. apply in_map_iff.
  exists (Z.to_nat k). split; [lia |]. apply in_seq. lia.
Qed.

Lemma all_seconds_fields_ok : forallb seconds_field_ok (upto 6001) = true.
Proof. vm_compute. reflexivity. Qed.

Lemma all_two_digit_fields_ok : forallb two_digit_field_ok (upto 60) = true.
Proof. vm_compute. reflexivity. Qed.

Lemma seconds_field_facts (h : Z) :
  0 <= h <= 6000 -> seconds_field_ok h = true.
Proof.
  intros Hh. pose proof all_seconds_fields_ok as Hall.
  rewrite forallb_forall in Hall. apply Hall, in_upto. lia.
Qed.

Lemma two_digit_field_facts (k : Z) :
  0 <= k < 60 -> two_digit_field_ok k = true.
Proof.
  intros Hk. pose proof all_two_digit_fields_ok as Hall.
  rewrite forallb_forall in Hall. apply Hall, in_upto. lia.
Qed.

End FieldFacts.

(** ** Exact rationals: the encoders *)

Section ExactEncoders.

Local Open Scope Q_scope.

#[global] Instance hundredths_proper : Proper (Qeq ==> eq) hundredths.
Proof.
  intros p q Hpq. unfold hundredths.
  apply round_half_even_ratio; [lia | lia |].
  unfold Qeq in Hpq.
  assert (Ha : (Z.abs (Qnum p) * Zpos (Qden q)
                = Z.abs (Qnum q) * Zpos (Qden p))%Z).
  { rewrite <- (Z.abs_eq (Zpos (Qden q))), <- (Z.abs_eq (Zpos (Qden p)))
      by lia.
    rewrite <- !Z.abs_mul. now f_equal. }
  nia.
Qed.

#[global] Instance Qtrunc_proper : Proper (Qeq ==> eq) Qtrunc.
Proof.
  intros p q Hpq. unfold Qtrunc.
  assert (Hs : (Qnum p <? 0)%Z = (Qnum q <? 0)%Z).
  { unfold Qeq in Hpq.
    destruct (Z.ltb_spec (Qnum p) 0), (Z.ltb_spec (Qnum q) 0);
      try reflexivity; nia. }
  rewrite Hs. destruct (Qnum q <? 0)%Z.
  - now apply Qceiling_comp.
  - now apply Qfloor_comp.
Qed.

#[global] Instance Qltb_proper : Proper (Qeq ==> Qeq ==> eq) Qltb.
Proof. intros p q Hpq r s Hrs. unfold Qltb. now rewrite Hpq, Hrs. Qed.

Lemma format_0w_2f_exact (width : nat) (x : Q) :
  0 <= x ->
  format_0w_2f width x = zero_pad width (fixed2 (hundredths x)).
Proof.
  intros Hx. unfold format_0w_2f. cbn [signbit classify exactQ].
  unfold Qltb. apply Qle_bool_iff in Hx. rewrite Hx. cbn [negb].
  now rewrite Nat.sub_0_r.
Qed.

#[global] Instance format_0w_2f_proper (width : nat) :
  Proper (Qeq ==> eq) (format_0w_2f (F := Q) width).
Proof.
  intros p q Hpq. unfold format_0w_2f. cbn [signbit classify exactQ].
  now rewrite Hpq.
Qed.

Lemma Qtrunc_nonneg (x : Q) : 0 <= x -> Qtrunc x = Qfloor x.
Proof.
  intros Hx. unfold Qtrunc.
  destruct (Z.ltb_spec (Qnum x) 0) as [Hn | Hn]; [| reflexivity].
  exfalso. unfold Qle in Hx. cbn in Hx. lia.
Qed.

(** The fields of a non-negative quantity: the minutes below 60, the
    seconds in [[0, 60)], and the three fields add up. *)
Lemma sexagesimal_spec (t : Q) :
  0 <= t ->
  let '(h, m, s) := sexagesimal t in
  (0 <= h)%Z /\ (0 <= m < 60)%Z /\ 0 <= s /\ s < 60
  /\ t == inject_Z h + inject_Z m / 60 + s / 3600.
Proof.
  intros Ht. unfold sexagesimal.
  set (h := Qfloor t).
  set (r := 60 * (t - inject_Z h)).
  set (m := Qfloor r).
  assert (Hh1 : inject_Z h <= t) by apply Qfloor_le.
  assert (Hh2 : t < inject_Z h + 1).
  { pose proof (Qlt_floor t) as Hl. rewrite inject_Z_plus in Hl.
    exact Hl. }
  assert (Hr0 : 0 <= r) by (unfold r; lra).
  assert (Hr60 : r < 60) by (unfold r; lra).
  assert (Hm1 : inject_Z m <= r) by apply Qfloor_le.
  assert (Hm2 : r < inject_Z m + 1).
  { pose proof (Qlt_floor r) as Hl. rewrite inject_Z_plus in Hl.
    exact Hl. }
  assert (Hh0 : (0 <= h)%Z).
  { unfold h. change 0%Z with (Qfloor 0). now apply Qfloor_resp_le. }
  assert (Hm0 : (0 <= m)%Z).
  { unfold m. change 0%Z with (Qfloor 0). now apply Qfloor_resp_le. }
  assert (Hm60 : (m < 60)%Z).
  { apply Z.lt_nge. intros Hge.
    assert (H60 : inject_Z 60 <= inject_Z m)
      by (rewrite <- Zle_Qle; exact Hge).
    change (inject_Z 60) with 60 in H60. lra. }
  repeat split; try assumption; try lia.
  - lra.
  - lra.
  - unfold r. field.
Qed.

End ExactEncoders.

(** ** Exact rationals: right ascension *)

Section ExactRA.
Local Open Scope Q_scope.

Lemma py_float_seconds (s : Q) :
  0 <= s -> s < 60 ->
  py_float (format_0w_2f 0 s) = Ok (Qred (hundredths s # 100))
  /\ format_0w_2f 5 (Qred (hundredths s # 100))
     = seconds_text (hundredths s)
  /\ (0 <= hundredths s <= 6000)%Z.
Proof.
  intros H0 H60.
  assert (Hh : (0 <= hundredths s <= 6000)%Z).
  { unfold hundredths.
    pose proof (round_half_even_bounds (Z.abs (Qnum s) * 100)
                  (Zpos (Qden s)) ltac:(lia)) as Hb.
    unfold Qle, Qlt in *. cbn in H0, H60.
    rewrite Z.abs_eq by lia. rewrite Z.abs_eq in Hb by lia.
    set (r := round_half_even _ _) in *. nia. }
  pose proof (seconds_field_facts _ Hh) as Hok.
  unfold seconds_field_ok in Hok.
  repeat match type of Hok with
         | _ && _ = true => apply andb_true_iff in Hok as [Hok ?]
         end.
  split; [| split; [| exact Hh]].
  - rewrite format_0w_2f_exact by exact H0.
    unfold zero_pad. cbn [Nat.sub zeros].
    now apply result_is_true.
  - now apply String.eqb_eq.
Qed.

Lemma ra_arcsec_to_hms_exact (x : Q) :
  0 <= x ->
  let '(h, m, s) := sexagesimal (x / 54000) in
  ra_arcsec_to_hms x
  = Ok (format_0wd 2 h +:+ "h" +:+ format_0wd 2 m +:+ "m"
        +:+ seconds_text (hundredths s) +:+ "s").
Proof.
  intros Hx.
  assert (Ht : 0 <= x / 54000) by (apply Qle_shift_div_l; lra).
  pose proof (sexagesimal_spec (x / 54000) Ht) as Hspec.
  unfold sexagesimal in *.
  destruct Hspec as (Hh & Hm & Hs0 & Hs60 & _).
  unfold ra_arcsec_to_hms, fdiv, py_int, of_int, lit, RA_ARCSEC_PER_SECOND, lit.
  cbn [fltb fmul fsub fquot feqb classify of_Q exactQ].
  replace (Qltb x (Qred (inject_Z 0))) with false
    by (symmetry; unfold Qltb; apply negb_false_iff, Qle_bool_iff;
        rewrite Qred_correct; exact Hx).
  replace (Qeq_bool (Qred (Qred 3600 * Qred 15)) (Qred 0)) with false
    by reflexivity.
  cbn [bind].
  set (ra := Qred (x / Qred (Qred 3600 * Qred 15))).
  assert (E1 : ra == x / 54000).
  { unfold ra. rewrite !Qred_correct. reflexivity. }
  assert (EH : Qtrunc ra = Qfloor (x / 54000)).
  { rewrite <- (Qtrunc_nonneg _ Ht). now apply Qtrunc_proper. }
  rewrite EH. clear EH.
  set (h := Qfloor (x / 54000)) in *.
  set (r := 60 * (x / 54000 - inject_Z h)) in *.
  set (rem := Qred (Qred 60 * Qred (ra - Qred (inject_Z h)))).
  assert (E2 : rem == r).
  { unfold rem, r. rewrite !Qred_correct, E1. reflexivity. }
  assert (Hr : 0 <= r).
  { apply Qle_trans with (inject_Z (Qfloor r)); [| apply Qfloor_le].
    change 0 with (inject_Z 0). rewrite <- Zle_Qle. lia. }
  assert (EM : Qtrunc rem = Qfloor r).
  { rewrite <- (Qtrunc_nonneg _ Hr). now apply Qtrunc_proper. }
  rewrite EM. clear EM.
  set (m := Qfloor r) in *.
  set (s := 60 * (r - inject_Z m)) in *.
  set (sec := Qred (Qred 60 * Qred (rem - Qred (inject_Z m)))).
  assert (E3 : sec == s).
  { unfold sec, s. rewrite !Qred_correct, E2. reflexivity. }
  rewrite (format_0w_2f_proper 0%nat _ _ E3).
  destruct (py_float_seconds s Hs0 Hs60) as (Hp & Hf & _).
  rewrite Hp. cbn [bind]. now rewrite Hf.
Qed.

End ExactRA.

Section ExactRAParse.
Local Open Scope Q_scope.

Lemma hundredths_error (s : Q) :
  0 <= s -> Qabs (inject_Z (hundredths s) / 100 - s) <= 5 # 1000.
Proof.
  intros Hs. unfold hundredths.
  pose proof (round_half_even_bounds (Z.abs (Qnum s) * 100)
                (Zpos (Qden s)) ltac:(lia)) as Hb.
  assert (Hn : (0 <= Qnum s)%Z) by (unfold Qle in Hs; cbn in Hs; lia).
  rewrite Z.abs_eq in * by exact Hn.
  set (r := round_half_even _ _) in *.
  apply Qabs_Qle_condition. destruct s as [n d]. cbn [Qnum Qden] in *.
  unfold Qle, Qminus, Qplus, Qdiv, Qmult, Qinv, Qopp, inject_Z.
  cbn [Qnum Qden]. split; cbn; nia.
Qed.

Lemma hundredths_below (s : Q) (k : Z) :
  0 <= s -> s < inject_Z k - (5 # 1000) -> (hundredths s < 100 * k)%Z.
Proof.
  intros Hs Hk. unfold hundredths.
  pose proof (round_half_even_bounds (Z.abs (Qnum s) * 100)
                (Zpos (Qden s)) ltac:(lia)) as Hb.
  assert (Hn : (0 <= Qnum s)%Z) by (unfold Qle in Hs; cbn in Hs; lia).
  rewrite Z.abs_eq in * by exact Hn.
  set (r := round_half_even _ _) in *.
  destruct s as [n d]. cbn [Qnum Qden] in *.
  unfold Qlt, Qminus, Qplus, Qopp, inject_Z in Hk. cbn in Hk. nia.
Qed.

Lemma two_digit_parts (k : Z) :
  (0 <= k < 60)%Z ->
  py_float (format_0wd 2 k) = Ok (inject_Z k)
  /\ py_float (str_int k) = Ok (inject_Z k)
  /\ clean "h" (format_0wd 2 k) = true
  /\ clean "d" (str_int k) = true.
Proof.
  intros Hk. pose proof (two_digit_field_facts k Hk) as Hok.
  unfold two_digit_field_ok in Hok.
  repeat match type of Hok with
         | _ && _ = true => apply andb_true_iff in Hok as [Hok ?]
         end.
  repeat split; try assumption; now apply result_is_true.
Qed.

Lemma seconds_parts (n : Z) :
  (0 <= n <= 6000)%Z ->
  py_float (seconds_text n) = Ok (Qred (n # 100))
  /\ clean "h" (seconds_text n) = true
  /\ clean "d" (seconds_text n) = true.
Proof.
  intros Hn. pose proof (seconds_field_facts n Hn) as Hok.
  unfold seconds_field_ok in Hok.
  repeat match type of Hok with
         | _ && _ = true => apply andb_true_iff in Hok as [Hok ?]
         end.
  repeat split; try assumption; now apply result_is_true.
Qed.

Lemma float_or_Ok (msg part : string) (q : Q) :
  py_float part = Ok q -> float_or msg part = Ok q.
Proof. intros Hp. unfold float_or. now rewrite Hp. Qed.

Lemma in_half_open_exact (q : Q) (hi : Z) :
  in_half_open q hi = true <-> 0 <= q /\ q < inject_Z hi.
Proof.
  unfold in_half_open, of_int. cbn [fleb fltb of_Q exactQ]. unfold Qltb.
  rewrite andb_true_iff, negb_true_iff, Qle_bool_iff.
  rewrite !Qred_correct. change (inject_Z 0) with 0.
  split; intros [H1 H2]; (split; [exact H1 |]).
  - apply Qnot_le_lt. intros Hc. apply Qle_bool_iff in Hc.
    rewrite Hc in H2. discriminate.
  - destruct (Qle_bool (inject_Z hi) q) eqn:Hc; [| reflexivity].
    apply Qle_bool_iff in Hc. exfalso. now apply (Qlt_not_le _ _ H2).
Qed.

(** The parser reads back what the encoder writes for [h] hours, [m]
    minutes and [n] hundredths of a second, below 24 h, 60 min and
    60 s. *)
Lemma parse_ra_hms_encoding (h m n : Z) :
  (0 <= h < 24)%Z -> (0 <= m < 60)%Z -> (0 <= n < 6000)%Z ->
  exists v,
    parse_ra_hms (format_0wd 2 h +:+ "h" +:+ format_0wd 2 m +:+ "m"
                  +:+ seconds_text n +:+ "s") = Ok v
    /\ v == inject_Z h + inject_Z m / 60 + (n # 100) / 3600.
Proof.
  intros Hh Hm Hn.
  destruct (two_digit_parts h ltac:(lia)) as (Ph & _ & Ch & _).
  destruct (two_digit_parts m ltac:(lia)) as (Pm & _ & Cm & _).
  destruct (seconds_parts n ltac:(lia)) as (Pn & Cn & _).
  unfold parse_ra_hms.
  rewrite !app_String, !app_empty.
  rewrite fields_of_encoding by (assumption || discriminate).
  rewrite (float_or_Ok _ _ _ Ph), (float_or_Ok _ _ _ Pm),
    (float_or_Ok _ _ _ Pn).
  cbn [bind].
  assert (R1 : in_half_open (inject_Z h) 24 = true).
  { apply in_half_open_exact. rewrite <- Zlt_Qlt.
    change 0 with (inject_Z 0). rewrite <- Zle_Qle. lia. }
  assert (R2 : in_half_open (inject_Z m) 60 = true).
  { apply in_half_open_exact. rewrite <- Zlt_Qlt.
    change 0 with (inject_Z 0). rewrite <- Zle_Qle. lia. }
  assert (R3 : in_half_open (Qred (n # 100)) 60 = true).
  { apply in_half_open_exact. rewrite Qred_correct.
    unfold Qle, Qlt, inject_Z. cbn. lia. }
  rewrite R1, R2, R3. cbn [andb negb].
  unfold fdiv, lit. cbn [feqb fquot fadd of_Q exactQ].
  replace (Qeq_bool (Qred 60) (Qred 0)) with false by reflexivity.
  replace (Qeq_bool (Qred 3600) (Qred 0)) with false by reflexivity.
  cbn [bind]. eexists. split; [reflexivity |].
  rewrite !Qred_correct. reflexivity.
Qed.

End ExactRAParse.

Section RoundTripRA.
Local Open Scope Q_scope.

(** With the operations taken as exact, and not as the binary64
    operations the code computes with: for [0 <= ra_arcsec < 1296000]
    (below 24 h) and seconds that do not round up to [60.00] (below
    [59.995]), [parse_ra_hms (ra_arcsec_to_hms ra_arcsec)] returns a
    value within [0.01 / 3600] hours of [ra_arcsec / (3600 * 15)].  On
    binary64 the seconds of [243900] reach [60.00], see
    [ra_round_trip_raises]. *)
Lemma ra_round_trip (x : Q) :
  0 <= x -> x < 1296000 ->
  snd (sexagesimal (x / 54000)) < 59995 # 1000 ->
  exists s v,
    ra_arcsec_to_hms x = Ok s /\ parse_ra_hms s = Ok v
    /\ Qabs (v - x / 54000) <= (1 # 100) / 3600.
Proof.
  intros Hx H24 Hsec.
  assert (Ht : 0 <= x / 54000) by (apply Qle_shift_div_l; lra).
  pose proof (ra_arcsec_to_hms_exact x Hx) as Henc.
  pose proof (sexagesimal_spec (x / 54000) Ht) as Hspec.
  destruct (sexagesimal (x / 54000)) as [[h m] s].
  cbn [snd] in Hsec.
  destruct Hspec as (Hh & Hm & Hs0 & Hs60 & Hsum).
  assert (Hh24 : (h < 24)%Z).
  { apply Z.lt_nge. intros Hge.
    assert (H' : inject_Z 24 <= inject_Z h)
      by (rewrite <- Zle_Qle; exact Hge).
    change (inject_Z 24) with 24 in H'.
    assert (Hm0 : 0 <= inject_Z m / 60).
    { apply Qle_shift_div_l; [reflexivity |].
      change 0 with (inject_Z 0) at 1. rewrite Qmult_0_l.
      change 0 with (inject_Z 0). rewrite <- Zle_Qle. lia. }
    assert (x / 54000 < 24) by (apply Qlt_shift_div_r; lra).
    assert (0 <= s / 3600) by (apply Qle_shift_div_l; lra).
    lra. }
  assert (Hn : (0 <= hundredths s < 6000)%Z).
  { split.
    - pose proof (py_float_seconds s Hs0 Hs60) as (_ & _ & Hb). lia.
    - apply (hundredths_below s 60 Hs0).
      change (inject_Z 60) with 60. lra. }
  destruct (parse_ra_hms_encoding h m (hundredths s) ltac:(lia) Hm Hn)
    as (v & Hparse & Hv).
  eexists. exists v. split; [exact Henc |]. split; [exact Hparse |].
  pose proof (hundredths_error s Hs0) as Herr.
  apply Qabs_Qle_condition in Herr as [He1 He2].
  assert (Hq : hundredths s # 100 == inject_Z (hundredths s) / 100).
  { unfold Qeq, Qdiv, Qmult, Qinv, inject_Z. cbn. lia. }
  apply Qabs_Qle_condition. rewrite Hv, Hsum, Hq.
  set (e := inject_Z (hundredths s) / 100) in *.
  assert (D : forall y, y / 3600 == y * (1 # 3600))
    by (intros y; field).
  rewrite !D. split; lra.
Qed.

Lemma ra_round_trip_witness :
  exists s v,
    ra_arcsec_to_hms (67815 : Q) = Ok s /\ parse_ra_hms s = Ok v
    /\ Qabs (v - 67815 / 54000) <= (1 # 100) / 3600.
Proof.
  apply (ra_round_trip 67815).
  - vm_compute. discriminate.
  - vm_compute. reflexivity.
  - vm_compute. reflexivity.
Defined.

(** C3. The round trip does not succeed for every [ra_arcsec >= 0],
    and not for every one below 24 hours: on binary64 the encoder
    writes the seconds of [243900] (4 h 31 min) and of [899.95] as
    [60.00], without a carry, and [parse_ra_hms] refuses what it wrote
    with a [ValueError]. *)
Theorem ra_round_trip_raises :
  classify 243900%float = FFin 243900
  /\ ra_arcsec_to_hms 243900%float = Ok "04h30m60.00s"
  /\ parse_ra_hms (F := float) "04h30m60.00s"
     = Raise (ValueError "RA values out of range")
  /\ (let* s := ra_arcsec_to_hms 243900%float in parse_ra_hms s)
     = Raise (ValueError "RA values out of range")
  /\ ra_arcsec_to_hms 899.95%float = Ok "00h00m60.00s"
  /\ (let* s := ra_arcsec_to_hms 899.95%float in parse_ra_hms s)
     = Raise (ValueError "RA values out of range")
  /\ ~ returns (let* s := ra_arcsec_to_hms 243900%float in parse_ra_hms s).
Proof.
  refine (conj _ (conj _ (conj _ (conj _ (conj _ (conj _ _)))))).
  1-6: vm_compute; reflexivity.
  intros [v Hv]. vm_compute in Hv. discriminate.
Qed.

(** Where the round trip ends in the range test of the parser: at
    seconds that round to [60.00], and at 24 hours. *)
Lemma ra_round_trip_fails :
  (let* s := ra_arcsec_to_hms 899.95%float in parse_ra_hms s)
  = Raise (ValueError "RA values out of range")
  /\ (let* s := ra_arcsec_to_hms 1296000%float in parse_ra_hms s)
     = Raise (ValueError "RA values out of range")
  /\ (let* s := ra_arcsec_to_hms (89995 # 100) in parse_ra_hms (F := Q) s)
     = Raise (ValueError "RA values out of range")
  /\ (let* s := ra_arcsec_to_hms 1296000 in parse_ra_hms (F := Q) s)
     = Raise (ValueError "RA values out of range").
Proof. vm_compute. repeat split; reflexivity. Qed.

End RoundTripRA.

(** ** Strings: decimal digits *)

Section DigitFacts.
Local Open Scope Z_scope.

Lemma ascii_of_digit_is_digit (d : Z) :
  0 <= d < 10 -> is_digit (ascii_of_digit d) = true.
Proof.
  intros Hd.
  assert (Hc : d = 0 \/ d = 1 \/ d = 2 \/ d = 3 \/ d = 4 \/ d = 5
               \/ d = 6 \/ d = 7 \/ d = 8 \/ d = 9) by lia.
  repeat destruct Hc as [-> | Hc]; try subst d; reflexivity.
Qed.

Lemma ascii_of_digit_zero (d : Z) :
  0 <= d < 10 -> ascii_of_digit d = "0"%char -> d = 0.
Proof.
  intros Hd.
  assert (Hc : d = 0 \/ d = 1 \/ d = 2 \/ d = 3 \/ d = 4 \/ d = 5
               \/ d = 6 \/ d = 7 \/ d = 8 \/ d = 9) by lia.
  repeat destruct Hc as [-> | Hc]; try subst d;
    (reflexivity || (vm_compute; discriminate)).
Qed.

Lemma all_digits_app (a b : string) :
  all_digits (a +:+ b) = all_digits a && all_digits b.
Proof.
  induction a as [| x a IH]; rewrite ?app_String, ?app_empty;
    cbn [all_digits]; [reflexivity |].
  now rewrite IH, andb_assoc.
Qed.

(** The first character, or a space for the empty string. *)
Lemma digits_fuel_spec (fuel : nat) :
  forall (n : Z) (acc : string),
    (0 < fuel)%nat -> 0 <= n < 2 ^ Z.of_nat fuel ->
    exists p,
      digits_fuel fuel n acc = p +:+ acc
      /\ all_digits p = true
      /\ (exists c rest, p = String c rest
                         /\ (c = "0"%char -> n = 0 /\ rest = "")).
Proof.
  induction fuel as [| fuel IH]; intros n acc Hfuel Hn.
  - exfalso. lia.
  - cbn [digits_fuel].
    assert (Hd : 0 <= n mod 10 < 10) by (apply Z.mod_pos_bound; lia).
    destruct (Z.ltb_spec n 10) as [Hlt | Hge].
    + exists (String (ascii_of_digit (n mod 10)) "").
      rewrite Z.mod_small in * by lia.
      split; [reflexivity |]. split.
      * cbn [all_digits]. now rewrite ascii_of_digit_is_digit.
      * eexists _, _. split; [reflexivity |].
        intros Hz. split; [| reflexivity].
        now apply ascii_of_digit_zero.
    + assert (Hq : 0 < n / 10) by (apply Z.div_str_pos; lia).
      assert (Hf : n / 10 < 2 ^ Z.of_nat fuel).
      { rewrite Nat2Z.inj_succ, Z.pow_succ_r in Hn by lia.
        apply Z.div_lt_upper_bound; lia. }
      assert (Hfuel' : (0 < fuel)%nat).
      { destruct fuel; [cbn in Hf; lia | lia]. }
      destruct (IH (n / 10) (String (ascii_of_digit (n mod 10)) acc)
                  Hfuel' ltac:(lia))
        as (p & Hp & Hall & c & rest & -> & Hc).
      exists (String c rest +:+ String (ascii_of_digit (n mod 10)) "").
      split; [| split].
      * rewrite Hp, app_assoc_string. reflexivity.
      * rewrite all_digits_app, Hall. cbn [all_digits].
        now rewrite ascii_of_digit_is_digit.
      * rewrite app_String. eexists _, _. split; [reflexivity |].
        intros Hz. destruct (Hc Hz) as [H0 _]. lia.
Qed.

Lemma str_nat_unpadded (n : Z) :
  0 <= n -> unpadded_number (str_nat n) = true.
Proof.
  intros Hn. unfold str_nat.
  destruct (digits_fuel_spec (S (Z.to_nat (Z.log2 n))) n "")
    as (p & Hp & Hall & c & rest & -> & Hc).
  { lia. }
  { split; [exact Hn |].
    rewrite Nat2Z.inj_succ, Z2Nat.id by apply Z.log2_nonneg.
    destruct (Z.eq_dec n 0) as [-> | Hne]; [reflexivity |].
    apply Z.log2_spec. lia. }
  rewrite Hp, app_empty_r. unfold unpadded_number. rewrite Hall.
  cbn [andb].
  destruct (Ascii.eqb_spec c "0") as [-> | Hne].
  - destruct (Hc eq_refl) as [_ ->]. reflexivity.
  - destruct c as [[] [] [] [] [] [] [] []]; try reflexivity.
    now exfalso.
Qed.

Lemma span_digits_app (p : string) (c : ascii) (rest : string) :
  all_digits p = true -> is_digit c = false ->
  span_digits (p +:+ String c rest) = (p, String c rest).
Proof.
  intros Hp Hc. induction p as [| x p IH];
    rewrite ?app_String, ?app_empty; cbn [span_digits].
  - now rewrite Hc.
  - cbn [all_digits] in Hp. apply andb_true_iff in Hp as [Hx Hp].
    rewrite Hx, (IH Hp). reflexivity.
Qed.

End DigitFacts.

(** ** Exact rationals: declination *)

Section ExactDec.
Local Open Scope Q_scope.

Lemma all_seconds_shapes_ok : forallb seconds_shape_ok (upto 6001) = true.
Proof. vm_compute. reflexivity. Qed.

Lemma dec_arcsec_to_dms_exact (x : Q) :
  let '(h, m, s) := sexagesimal (Qabs (x / 3600)) in
  dec_arcsec_to_dms x
  = Ok (String (if Qltb x 0 then "-" else "+")%char
          (str_int h +:+ "d" +:+ str_int m +:+ "m"
           +:+ seconds_text (hundredths s) +:+ "s")).
Proof.
  assert (Ht : 0 <= Qabs (x / 3600)) by apply Qabs_nonneg.
  pose proof (sexagesimal_spec (Qabs (x / 3600)) Ht) as Hspec.
  unfold sexagesimal in *.
  destruct Hspec as (Hh & Hm & Hs0 & Hs60 & _).
  unfold dec_arcsec_to_dms, fdiv, py_int, of_int, lit.
  cbn [fltb fmul fsub fadd fabs fquot feqb classify of_Q exactQ].
  replace (Qeq_bool (Qred 3600) (Qred 0)) with false by reflexivity.
  cbn [bind].
  set (dv := Qred (x / Qred 3600)).
  assert (E1 : dv == x / 3600).
  { unfold dv. rewrite !Qred_correct. reflexivity. }
  set (t := Qabs (x / 3600)) in *.
  set (h := Qfloor t) in *.
  set (r := 60 * (t - inject_Z h)) in *.
  set (m := Qfloor r) in *.
  set (s := 60 * (r - inject_Z m)) in *.
  assert (Hr : 0 <= r).
  { apply Qle_trans with (inject_Z (Qfloor r)); [| apply Qfloor_le].
    change 0 with (inject_Z 0). rewrite <- Zle_Qle. lia. }
  assert (Hsign : Qltb dv (Qred 0) = Qltb x 0).
  { unfold Qltb. f_equal.
    destruct (Qle_bool 0 x) eqn:H1.
    - apply Qle_bool_iff in H1. apply Qle_bool_iff.
      rewrite Qred_correct, E1. apply Qle_shift_div_l; lra.
    - destruct (Qle_bool (Qred 0) dv) eqn:H2; [| reflexivity].
      apply Qle_bool_iff in H2. rewrite Qred_correct, E1 in H2.
      assert (Hx0 : 0 <= x / 3600 * 3600)
        by (apply Qmult_le_0_compat; [exact H2 | discriminate]).
      assert (Hxe : x / 3600 * 3600 == x) by field.
      rewrite Hxe in Hx0. apply Qle_bool_iff in Hx0. congruence. }
  rewrite Hsign.
  destruct (Qltb x 0) eqn:Hneg.
  - (* negative declination *)
    assert (Hx : x < 0).
    { unfold Qltb in Hneg. apply negb_true_iff in Hneg.
      apply Qnot_le_lt. intros Hc. apply Qle_bool_iff in Hc. congruence. }
    assert (Et : t == - (x / 3600)).
    { unfold t. apply Qabs_neg. apply Qle_shift_div_r; lra. }
    assert (EH : Qtrunc (Qabs dv) = h).
    { unfold h. rewrite <- (Qtrunc_nonneg _ Ht).
      apply Qtrunc_proper. unfold t. now rewrite E1. }
    rewrite EH. clear EH.
    set (rem := Qred (Qred 60 * Qred (dv + Qred (inject_Z h)))).
    assert (E2 : rem == - r).
    { unfold rem, r. rewrite !Qred_correct, E1, Et. ring. }
    assert (EM : Qtrunc (Qabs rem) = m).
    { unfold m. rewrite <- (Qtrunc_nonneg _ Hr).
      apply Qtrunc_proper. rewrite E2, Qabs_opp. now apply Qabs_pos. }
    rewrite EM. clear EM.
    set (sec := Qabs (Qred (Qred 60 * Qred (rem + Qred (inject_Z m))))).
    assert (E3 : sec == s).
    { unfold sec, s. rewrite !Qred_correct, E2.
      assert (Eo : 60 * (- r + inject_Z m) == - (60 * (r - inject_Z m)))
        by ring.
      rewrite Eo, Qabs_opp. now apply Qabs_pos. }
    rewrite (format_0w_2f_proper 0%nat _ _ E3).
    destruct (py_float_seconds s Hs0 Hs60) as (Hp & Hf & _).
    rewrite Hp. cbn [bind]. rewrite Hf. reflexivity.
  - (* positive declination *)
    assert (Hx : 0 <= x).
    { unfold Qltb in Hneg. apply negb_false_iff in Hneg.
      now apply Qle_bool_iff. }
    assert (Et : t == x / 3600).
    { unfold t. apply Qabs_pos. apply Qle_shift_div_l; lra. }
    assert (EH : Qtrunc dv = h).
    { unfold h. rewrite <- (Qtrunc_nonneg _ Ht).
      apply Qtrunc_proper. now rewrite E1, Et. }
    rewrite EH. clear EH.
    set (rem := Qred (Qred 60 * Qred (dv - Qred (inject_Z h)))).
    assert (E2 : rem == r).
    { unfold rem, r. rewrite !Qred_correct, E1, Et. reflexivity. }
    assert (EM : Qtrunc rem = m).
    { unfold m. rewrite <- (Qtrunc_nonneg _ Hr).
      now apply Qtrunc_proper. }
    rewrite EM. clear EM.
    set (sec := Qred (Qred 60 * Qred (rem - Qred (inject_Z m)))).
    assert (E3 : sec == s).
    { unfold sec, s. rewrite !Qred_correct, E2. reflexivity. }
    rewrite (format_0w_2f_proper 0%nat _ _ E3).
    destruct (py_float_seconds s Hs0 Hs60) as (Hp & Hf & _).
    rewrite Hp. cbn [bind]. rewrite Hf. reflexivity.
Qed.

Lemma seconds_shape_facts (n : Z) :
  (0 <= n <= 6000)%Z ->
  seconds_shape (seconds_text n) = true
  /\ String.rev (seconds_text n +:+ "s")
     = String "s" (String.rev (seconds_text n))
  /\ String.rev (String.rev (seconds_text n)) = seconds_text n.
Proof.
  intros Hn. pose proof all_seconds_shapes_ok as Hall.
  rewrite forallb_forall in Hall.
  specialize (Hall n (in_upto 6001 n ltac:(lia))).
  unfold seconds_shape_ok in Hall.
  apply andb_true_iff in Hall as [Hall H3].
  apply andb_true_iff in Hall as [H1 H2].
  apply String.eqb_eq in H2, H3. now repeat split.
Qed.

Lemma is_digit_letters :
  is_digit "d" = false /\ is_digit "m" = false.
Proof. split; reflexivity. Qed.

(** A string put together as the encoder does has the format. *)
Lemma dms_format_encoding (sign : ascii) (h m n : Z) :
  sign = "+"%char \/ sign = "-"%char ->
  (0 <= h)%Z -> (0 <= m)%Z -> (0 <= n <= 6000)%Z ->
  dms_format
    (String sign
       (str_int h +:+ String "d"
          (str_int m +:+ String "m" (seconds_text n +:+ "s"))))
  = true.
Proof.
  intros Hsign Hh Hm Hn.
  pose proof (str_nat_unpadded h Hh) as Uh.
  pose proof (str_nat_unpadded m Hm) as Um.
  destruct (seconds_shape_facts n Hn) as (Hs1 & Hs2 & Hs3).
  unfold str_int.
  replace (h <? 0)%Z with false by (symmetry; apply Z.ltb_ge; lia).
  replace (m <? 0)%Z with false by (symmetry; apply Z.ltb_ge; lia).
  assert (Ah : all_digits (str_nat h) = true).
  { unfold unpadded_number in Uh. now apply andb_true_iff in Uh. }
  assert (Am : all_digits (str_nat m) = true).
  { unfold unpadded_number in Um. now apply andb_true_iff in Um. }
  cbn [dms_format].
  rewrite (span_digits_app _ "d" _ Ah (proj1 is_digit_letters)).
  rewrite Uh.
  rewrite (span_digits_app _ "m" _ Am (proj2 is_digit_letters)).
  rewrite Um, Hs2, Hs3, Hs1.
  now destruct Hsign as [-> | ->].
Qed.

(** With the operations taken as exact, and not as the binary64
    operations the code computes with, [dec_arcsec_to_dms] never fails,
    and what it returns is one sign, the degrees and the arcminutes as
    unpadded numbers (not as two zero-padded digits), and the seconds
    with two integer digits and two decimals.  On binary64 a negative
    zero gets two signs, see [dec_arcsec_to_dms_unpadded]. *)
Lemma dec_arcsec_to_dms_format (x : Q) :
  exists s,
    dec_arcsec_to_dms x = Ok s
    /\ dms_format s = true
    /\ (startswith_char "-" s = true <-> x < 0)
    /\ (startswith_char "+" s = true <-> 0 <= x).
Proof.
  pose proof (dec_arcsec_to_dms_exact x) as Henc.
  assert (Ht : 0 <= Qabs (x / 3600)) by apply Qabs_nonneg.
  pose proof (sexagesimal_spec (Qabs (x / 3600)) Ht) as Hspec.
  destruct (sexagesimal (Qabs (x / 3600))) as [[h m] s].
  destruct Hspec as (Hh & Hm & Hs0 & Hs60 & _).
  destruct (py_float_seconds s Hs0 Hs60) as (_ & _ & Hn).
  eexists. split; [exact Henc |]. split.
  - apply dms_format_encoding; try lia.
    destruct (Qltb x 0); [now right | now left].
  - cbn [startswith_char]. unfold Qltb.
    destruct (Qle_bool 0 x) eqn:Hx; cbn [negb].
    + apply Qle_bool_iff in Hx. split; split; try discriminate;
        try reflexivity; intros; try assumption.
      exfalso. now apply (Qlt_not_le x 0).
    + assert (Hlt : x < 0).
      { apply Qnot_le_lt. intros Hc. apply Qle_bool_iff in Hc.
        congruence. }
      split; split; try discriminate; try reflexivity; intros;
        try assumption.
      exfalso. now apply (Qlt_not_le x 0).
Qed.

Lemma dec_arcsec_to_dms_not_padded :
  dec_arcsec_to_dms 0%float = Ok "+0d0m00.00s"
  /\ padded_dms_format "+0d0m00.00s" = false
  /\ dec_arcsec_to_dms 162000%float = Ok "+45d0m00.00s"
  /\ padded_dms_format "+45d0m00.00s" = false
  /\ dec_arcsec_to_dms (0 : Q) = Ok "+0d0m00.00s".
Proof. vm_compute. repeat split; reflexivity. Qed.

(** C7. [dec_arcsec_to_dms] does not write the encoding
    [±DDdMMmSS.SSs]: on binary64 the degrees and the arcminutes come
    without padding, so that 45 degrees ([162000]), the example of the
    docstring, are ["+45d0m00.00s"] and not ["+45d00m00.00s"], and zero
    is ["+0d0m00.00s"]; and the sign is not always one sign in front:
    the negative zero, and the smallest negative float, get a [+] in
    front and a [-] on the seconds. *)
Theorem dec_arcsec_to_dms_unpadded :
  dec_arcsec_to_dms 162000%float = Ok "+45d0m00.00s"
  /\ padded_dms_format "+45d0m00.00s" = false
  /\ padded_dms_format "+45d00m00.00s" = true
  /\ dec_arcsec_to_dms 0%float = Ok "+0d0m00.00s"
  /\ padded_dms_format "+0d0m00.00s" = false
  /\ dec_arcsec_to_dms (-3723.5)%float = Ok "-1d2m03.50s"
  /\ padded_dms_format "-1d2m03.50s" = false
  /\ dec_arcsec_to_dms (-0)%float = Ok "+0d0m-0.00s"
  /\ classify (-0)%float = FFin 0
  /\ dec_arcsec_to_dms (-5e-324)%float = Ok "+0d0m-0.00s"
  /\ fltb (-5e-324)%float 0%float = true
  /\ dms_format "+0d0m-0.00s" = false.
Proof. vm_compute. repeat split; reflexivity. Qed.

End ExactDec.

(** ** [CosmologyCalculator] and [ImageMaker] on binary64 *)

Section CosmologyTotal.

Variable py_pow : float -> float -> result float.
Variable float_repr : float -> string.

(** The distance for both cases of the test [redshift == 0]. *)
Lemma angular_diameter_distance_cases (h0 omega_m redshift : float) :
  angular_diameter_distance py_pow (CosmologyCalculator h0 omega_m) redshift
  = if PrimFloat.eqb redshift 0 then Ok 0%float
    else Raise (AttributeError "omega_l").
Proof.
  destruct (PrimFloat.eqb redshift 0) eqn:Hz.
  - rewrite angular_diameter_distance_zero
      by (rewrite binary64_lit_zero; exact Hz).
    now rewrite binary64_lit_zero.
  - apply angular_diameter_distance_no_omega_l.
    rewrite binary64_lit_zero. exact Hz.
Qed.

(** X1. [calculate_angular_size] never computes an angular size: for a
    redshift equal to zero it returns [0.0], whatever the linear size,
    and for every other redshift it ends in the [AttributeError] of
    [angular_diameter_distance]. *)
Theorem calculate_angular_size_zero_or_raises
    (h0 omega_m linear_size_mpc redshift : float) :
  calculate_angular_size py_pow (CosmologyCalculator h0 omega_m)
    linear_size_mpc redshift
  = if PrimFloat.eqb redshift 0 then Ok 0%float
    else Raise (AttributeError "omega_l").
Proof.
  unfold calculate_angular_size.
  rewrite angular_diameter_distance_cases.
  destruct (PrimFloat.eqb redshift 0); [| reflexivity].
  cbn [bind]. now rewrite binary64_zero_eqb, binary64_lit_zero.
Qed.

(** X2. [calculate_flux_density] never applies the inverse-square law
    or the k-correction: it returns the reference flux unchanged when
    both redshifts equal zero, and ends in an [AttributeError] for
    every other pair of redshifts. *)
Theorem calculate_flux_density_unchanged_or_raises
    (h0 omega_m flux_ref z_ref z_target spectral_index : float) :
  calculate_flux_density py_pow (CosmologyCalculator h0 omega_m)
    flux_ref z_ref z_target spectral_index
  = if PrimFloat.eqb z_ref 0 && PrimFloat.eqb z_target 0 then Ok flux_ref
    else Raise (AttributeError "omega_l").
Proof.
  unfold calculate_flux_density.
  rewrite !angular_diameter_distance_cases.
  destruct (PrimFloat.eqb z_ref 0); [| reflexivity].
  destruct (PrimFloat.eqb z_target 0); [| reflexivity].
  cbn [bind andb]. now rewrite binary64_zero_eqb.
Qed.

(** One turn of the loop of [create_model_sky]. *)
Lemma create_model_sky_loop_cons
    (h0 omega_m first z : float) (rest : list float)
    (linear_size_mpc reference_flux_jy spectral_index : float) :
  create_model_sky_loop py_pow float_repr (CosmologyCalculator h0 omega_m)
    first (z :: rest) linear_size_mpc reference_flux_jy spectral_index
  = if PrimFloat.eqb first 0 && PrimFloat.eqb z 0
    then
      let* images :=
        create_model_sky_loop py_pow float_repr
          (CosmologyCalculator h0 omega_m) first rest
          linear_size_mpc reference_flux_jy spectral_index in
      Ok (("modelsky_" +:+ float_repr z +:+ ".im") :: images)
    else Raise (AttributeError "omega_l").
Proof.
  cbn [create_model_sky_loop].
  unfold calculate_flux_density, calculate_angular_size.
  rewrite !angular_diameter_distance_cases.
  destruct (PrimFloat.eqb first 0); [| reflexivity].
  destruct (PrimFloat.eqb z 0); [| reflexivity].
  cbn [bind andb]. rewrite binary64_zero_eqb. cbn [orb bind].
  reflexivity.
Qed.

Lemma create_model_sky_loop_zero
    (h0 omega_m first : float) (zs : list float)
    (linear_size_mpc reference_flux_jy spectral_index : float) :
  PrimFloat.eqb first 0 = true ->
  create_model_sky_loop py_pow float_repr (CosmologyCalculator h0 omega_m)
    first zs linear_size_mpc reference_flux_jy spectral_index
  = if forallb (fun z => PrimFloat.eqb z 0) zs
    then Ok (map (fun z => "modelsky_" +:+ float_repr z +:+ ".im") zs)
    else Raise (AttributeError "omega_l").
Proof.
  intros Hf. induction zs as [| z rest IH]; [reflexivity |].
  rewrite create_model_sky_loop_cons, Hf, IH. cbn [andb forallb map].
  destruct (PrimFloat.eqb z 0); [| reflexivity].
  cbn [andb]. now destruct (forallb _ rest).
Qed.

(** X3. Within CASA, [create_model_sky] returns a list of image names
    only for redshifts that all equal zero, one name for each in the
    order of the list; a list that passes [validate_redshifts] and
    holds a redshift other than zero ends in the [AttributeError] of
    [angular_diameter_distance]. *)
Theorem create_model_sky_zero_or_raises
    (h0 omega_m : float) (redshifts : list float)
    (linear_size_mpc reference_flux_jy spectral_index : float) :
  validate_redshifts (PyList (map PyFloat redshifts)) = Ok true ->
  create_model_sky py_pow float_repr true (CosmologyCalculator h0 omega_m)
    redshifts linear_size_mpc reference_flux_jy spectral_index
  = Finished
      (if forallb (fun z => PrimFloat.eqb z 0) redshifts
       then Ok (map (fun z => "modelsky_" +:+ float_repr z +:+ ".im")
                  redshifts)
       else Raise (AttributeError "omega_l")).
Proof.
  intros Hv. unfold create_model_sky. rewrite Hv. cbn [negb].
  f_equal. destruct redshifts as [| first rest]; [reflexivity |].
  destruct (PrimFloat.eqb first 0) eqn:Hf.
  - now apply create_model_sky_loop_zero.
  - rewrite create_model_sky_loop_cons, Hf. cbn [forallb andb].
    now rewrite Hf.
Qed.

End CosmologyTotal.

Lemma create_model_sky_zero_or_raises_witness :
  create_model_sky (fun _ _ => Raise OverflowError) (fun _ => "z") true
    (CosmologyCalculator HUBBLE_CONSTANT MATTER_DENSITY_PARAMETER)
    [0.05; 0.1; 0.13]%float 0.5%float 0.6%float (-1.6)%float
  = Finished (Raise (AttributeError "omega_l")).
Proof.
  apply (create_model_sky_zero_or_raises (fun _ _ => Raise OverflowError)
           (fun _ => "z") HUBBLE_CONSTANT MATTER_DENSITY_PARAMETER
           [0.05; 0.1; 0.13]%float).
  vm_compute. reflexivity.
Defined.

(** ** [validate_spectral_index] and [validate_frequency] *)

Section MoreValidatorFacts.

Context {F : Type} `{FloatArith F}.

Lemma validate_spectral_index_iff (alpha : pyval F) :
  (validate_spectral_index alpha = Ok true
   <-> within MIN_SPECTRAL_INDEX MAX_SPECTRAL_INDEX alpha)
  /\ (~ within MIN_SPECTRAL_INDEX MAX_SPECTRAL_INDEX alpha ->
      is_ValueError (validate_spectral_index alpha)).
Proof.
  unfold within, validate_spectral_index.
  destruct (isinstance_int_float alpha) eqn:Hn; cbn [negb].
  - destruct (chained_le_numeric MIN_SPECTRAL_INDEX MAX_SPECTRAL_INDEX
                alpha Hn) as [[|] Hb]; rewrite Hb; cbn [bind negb].
    + split; [tauto |]. intros Hc. exfalso. now apply Hc.
    + split.
      * split; [discriminate | intros [_ Hc]; discriminate].
      * intros _. eexists. reflexivity.
  - split.
    + split; [discriminate | intros [Hc _]; discriminate].
    + intros _. eexists. reflexivity.
Qed.

(** A value is positive for [validate_frequency] when [value <= 0] is
    false: a positive rational, the positive infinity, and a NaN, for
    which every comparison is false. *)
Lemma val_le_int_zero (v : pyval F) (c : fclass) :
  exact_value v = Some c ->
  val_le_int v 0
  = Ok match c with
       | FFin q => Qle_bool q 0
       | FInf negative => negative
       | FNan => false
       end.
Proof.
  destruct v as [| b | n | x | s | l]; cbn [exact_value val_le_int];
    try discriminate; intros Hc; injection Hc as <-.
  - now destruct b.
  - f_equal. unfold Qle_bool. cbn [Qnum Qden inject_Z].
    now rewrite Z.mul_1_r.
  - reflexivity.
Qed.

(** X5. [validate_frequency] returns [True] exactly for a unit among
    [Hz], [MHz] and [GHz] and a number for which [value <= 0] is false:
    a positive number, but also the positive infinity and a NaN.
    Everything else ends in a [ValueError], the unit being tested
    first. *)
Theorem validate_frequency_accepts_exactly
    (freq_value : pyval F) (freq_unit : string) :
  (validate_frequency freq_value freq_unit = Ok true
   <-> (freq_unit = "Hz" \/ freq_unit = "MHz" \/ freq_unit = "GHz")
       /\ exists c, exact_value freq_value = Some c
                    /\ match c with
                       | FFin q => (0 < q)%Q
                       | FInf negative => negative = false
                       | FNan => True
                       end)
  /\ (validate_frequency freq_value freq_unit = Ok true
      \/ is_ValueError (validate_frequency freq_value freq_unit))
  /\ (freq_unit <> "Hz" -> freq_unit <> "MHz" -> freq_unit <> "GHz" ->
      validate_frequency freq_value freq_unit
      = Raise (ValueError "Invalid frequency unit")).
Proof.
  unfold validate_frequency. cbn [existsb orb].
  destruct (String.eqb_spec freq_unit "Hz") as [-> | N1];
    [| destruct (String.eqb_spec freq_unit "MHz") as [-> | N2];
       [| destruct (String.eqb_spec freq_unit "GHz") as [-> | N3]]];
    cbn [orb negb].
  4: { split; [| split].
       - split; [discriminate |]. intros [[? | [? | ?]] _]; congruence.
       - right. eexists. reflexivity.
       - reflexivity. }
  all: (split; [| split; [| intros; congruence]]).
  all: destruct (exact_value freq_value) as [c |] eqn:Hc.
  all: try (assert (Hn : isinstance_int_float freq_value = false)
              by (destruct freq_value; try discriminate; reflexivity);
            rewrite Hn; cbn [negb bind]).
  all: try (assert (Hn : isinstance_int_float freq_value = true)
              by (destruct freq_value; try discriminate; reflexivity);
            rewrite Hn, (val_le_int_zero _ _ Hc); cbn [negb bind]).
  all: try (right; eexists; reflexivity).
  all: try (split; [discriminate | intros [_ (c' & Hc' & _)]; discriminate]).
  all: try (destruct c as [| [|] | q]; [now left | right; eexists; reflexivity
                                        | now left |];
            destruct (Qle_bool q 0); [right; eexists; reflexivity | now left]).
  all: (split; [intros Hok; split; [tauto |]; exists c; split; [reflexivity |]
               | intros [_ (c' & Hc' & Hpos)]; injection Hc' as <-]).
  all: destruct c as [| [|] | q]; try discriminate; try reflexivity;
    try exact I.
  all: destruct (Qle_bool q 0) eqn:Hq; try discriminate; try reflexivity.
  all: try (apply Qnot_le_lt; intros Hle; apply Qle_bool_iff in Hle;
            congruence).
  all: apply Qle_bool_iff in Hq; exfalso; now apply (Qlt_not_le 0 q).
Qed.

End MoreValidatorFacts.

Section MoreValidatorBinary64.

Lemma binary64_classify_lit_minus_5 :
  classify (lit (F := float) (-5)) = FFin (-5).
Proof. vm_compute. reflexivity. Qed.

Lemma within_spectral_range (v : pyval float) :
  within MIN_SPECTRAL_INDEX MAX_SPECTRAL_INDEX v <-> in_interval (-5) 0 v.
Proof.
  apply within_in_interval;
    [exact binary64_classify_lit_minus_5 | exact binary64_classify_lit_0].
Qed.

(** X4. On binary64 floats and [int]s, [validate_spectral_index]
    returns [True] exactly on the numbers whose value lies in the
    closed interval [[-5, 0]] and raises [ValueError] on every other
    value; [-1.6] passes, [1.0] and [-10.0] do not. *)
Theorem validate_spectral_index_accepts_exactly :
  (forall v : pyval float,
     validate_spectral_index v = Ok true <-> in_interval (-5) 0 v)
  /\ (forall v : pyval float,
        ~ in_interval (-5) 0 v -> is_ValueError (validate_spectral_index v))
  /\ validate_spectral_index (PyFloat (-1.6)%float) = Ok true
  /\ validate_spectral_index (PyFloat 1%float)
     = Raise (ValueError "Spectral index out of range")
  /\ validate_spectral_index (PyFloat (-10)%float)
     = Raise (ValueError "Spectral index out of range").
Proof.
  refine (conj _ (conj _ (conj _ (conj _ _)))).
  - intros v. rewrite <- within_spectral_range.
    apply (validate_spectral_index_iff v).
  - intros v Hv. apply (validate_spectral_index_iff v).
    intros Hw. apply Hv. now apply within_spectral_range.
  - vm_compute. reflexivity.
  - vm_compute. reflexivity.
  - vm_compute. reflexivity.
Qed.

(** A NaN and the positive infinity pass [validate_frequency] as
    positive frequencies, and so does [True]; zero and the negative
    infinity do not. *)
Theorem validate_frequency_nan :
  validate_frequency (PyFloat nan) "GHz" = Ok true
  /\ validate_frequency (PyFloat infinity) "GHz" = Ok true
  /\ validate_frequency (F := float) (PyBool true) "GHz" = Ok true
  /\ is_ValueError (validate_frequency (PyFloat 0%float) "GHz")
  /\ is_ValueError (validate_frequency (PyFloat neg_infinity) "GHz").
Proof.
  refine (conj _ (conj _ (conj _ (conj _ _))));
    try (vm_compute; reflexivity); eexists; vm_compute; reflexivity.
Qed.

End MoreValidatorBinary64.

(** ** [ra_arcsec_to_hms]: the inputs it refuses, on binary64 *)

Section EncoderFailures.

Lemma classify_nan_SF (x : float) :
  classify x = FNan -> Prim2SF x = S754_nan.
Proof.
  cbn [classify binary64]. unfold binary64_classify.
  destruct (Prim2SF x); cbn; intros Hc; try discriminate; reflexivity.
Qed.

Lemma classify_inf_SF (x : float) (s : bool) :
  classify x = FInf s -> Prim2SF x = S754_infinity s.
Proof.
  cbn [classify binary64]. unfold binary64_classify.
  destruct (Prim2SF x); cbn; intros Hc; try discriminate.
  now injection Hc as ->.
Qed.

Lemma classify_div_nan (x y : float) :
  classify x = FNan -> classify (PrimFloat.div x y) = FNan.
Proof.
  intros Hx. cbn [classify binary64]. unfold binary64_classify.
  rewrite FloatAxioms.div_spec, (classify_nan_SF x Hx). reflexivity.
Qed.

Lemma classify_div_inf (x y : float) (s : bool) (m : positive) (e : Z) :
  classify x = FInf false -> Prim2SF y = S754_finite s m e ->
  classify (PrimFloat.div x y) = FInf s.
Proof.
  intros Hx Hy. cbn [classify binary64]. unfold binary64_classify.
  rewrite FloatAxioms.div_spec, (classify_inf_SF x false Hx), Hy.
  reflexivity.
Qed.

Lemma binary64_of_int_0 : of_int (F := float) 0 = 0%float.
Proof. vm_compute. reflexivity. Qed.

Lemma binary64_classify_zero : classify 0%float = FFin 0.
Proof. vm_compute. reflexivity. Qed.

Lemma binary64_hour : fmul (lit 3600) RA_ARCSEC_PER_SECOND = 54000%float.
Proof. vm_compute. reflexivity. Qed.

(** X6. On binary64, [ra_arcsec_to_hms] refuses every input of
    negative value, the negative infinity with them, with its own
    [ValueError]; a NaN passes that test and fails in [int] with a
    [ValueError] of Python, and the positive infinity fails there with
    an [OverflowError]. *)
Theorem ra_arcsec_to_hms_refuses (x : float) :
  (match classify x with
   | FFin q => (q < 0)%Q
   | FInf negative => negative = true
   | FNan => False
   end ->
   ra_arcsec_to_hms x
   = Raise (ValueError "RA in arcseconds must be non-negative"))
  /\ (classify x = FNan ->
      ra_arcsec_to_hms x
      = Raise (ValueError "cannot convert float NaN to integer"))
  /\ (classify x = FInf false -> ra_arcsec_to_hms x = Raise OverflowError).
Proof.
  unfold ra_arcsec_to_hms. cbn [fltb binary64].
  rewrite binary64_of_int_0, binary64_ltb_exact, binary64_classify_zero.
  rewrite binary64_hour. unfold fdiv.
  replace (feqb 54000%float (lit 0)) with false by (vm_compute; reflexivity).
  cbn [bind fquot binary64]. unfold py_int.
  refine (conj _ (conj _ _)).
  - destruct (classify x) as [| [|] | q]; cbn [fclass_compare];
      try (intros Hc; (contradiction || discriminate || reflexivity)).
    intros Hq. assert (E : (q ?= 0)%Q = Lt) by now apply Qlt_alt.
    now rewrite E.
  - intros Hx. rewrite Hx. cbn [fclass_compare].
    now rewrite (classify_div_nan x 54000 Hx).
  - intros Hx. rewrite Hx. cbn [fclass_compare].
    assert (Hy : Prim2SF 54000%float
                 = S754_finite false 7421703487488000 (-37))
      by (vm_compute; reflexivity).
    now rewrite (classify_div_inf x 54000 _ _ _ Hx Hy).
Qed.

End EncoderFailures.

(** ** Exact rationals: the fields of a right ascension *)

Section ExactRAFields.

(** In a tie the rounding gives the even neighbour. *)
Lemma round_half_even_tie (n d : Z) :
  0 < d -> 2 * n = d * (2 * round_half_even n d + 1) ->
  Z.even (round_half_even n d) = true.
Proof.
  intros Hd. unfold round_half_even.
  pose proof (Z.div_mod n d ltac:(lia)) as Hdm.
  pose proof (Z.mod_pos_bound n d Hd) as Hm.
  destruct (Z.compare_spec (2 * (n mod d)) d) as [He | Hl | Hg].
  - destruct (Z.even (n / d)) eqn:Hev; [intros _; exact Hev |].
    intros Ht. exfalso. nia.
  - intros Ht. exfalso. nia.
  - intros Ht. exfalso. nia.
Qed.

Local Open Scope Q_scope.

(** From [k - 0.005] on, with [k] hundredths even, the seconds round
    to [k] at least. *)
Lemma hundredths_above (s : Q) (k : Z) :
  0 <= s -> Z.even k = true -> inject_Z k / 100 - (5 # 1000) <= s ->
  (k <= hundredths s)%Z.
Proof.
  intros Hs Hk Hle. unfold hundredths.
  pose proof (round_half_even_bounds (Z.abs (Qnum s) * 100)
                (Zpos (Qden s)) ltac:(lia)) as Hb.
  pose proof (round_half_even_tie (Z.abs (Qnum s) * 100)
                (Zpos (Qden s)) ltac:(lia)) as Ht.
  assert (Hn : (0 <= Qnum s)%Z) by (unfold Qle in Hs; cbn in Hs; lia).
  rewrite Z.abs_eq in * by exact Hn.
  set (r := round_half_even _ _) in *.
  destruct s as [n d]. cbn [Qnum Qden] in *.
  unfold Qle, Qminus, Qplus, Qopp, Qdiv, Qmult, Qinv, inject_Z in Hle.
  cbn in Hle.
  destruct (Z.lt_ge_cases r (k - 1)%Z) as [Hlt | Hge]; [exfalso; nia |].
  destruct (Z.eq_dec r (k - 1)%Z) as [Heq | Hne]; [| lia].
  exfalso.
  assert (Hodd : Z.even r = false).
  { rewrite Heq, Z.even_sub, Hk. reflexivity. }
  rewrite Ht in Hodd; [discriminate |]. nia.
Qed.

(** In exact arithmetic [ra_arcsec_to_hms] returns, for every
    [ra_arcsec >= 0], the hours (which have no upper bound) on two
    digits at least, the minutes, below 60, on two digits, and the
    seconds as [n] hundredths with [0 <= n <= 6000], within half a
    hundredth of the seconds of the input.  The seconds field is
    [60.00] exactly when the seconds of the input are [59.995] or
    more: no carry follows the rounding. *)
Theorem ra_arcsec_to_hms_fields (x : Q) :
  0 <= x ->
  let '(h, m, s) := sexagesimal (x / 54000) in
  exists n,
    ra_arcsec_to_hms x
    = Ok (format_0wd 2 h +:+ "h" +:+ format_0wd 2 m +:+ "m"
          +:+ seconds_text n +:+ "s")
    /\ (0 <= h)%Z /\ (0 <= m < 60)%Z /\ (0 <= n <= 6000)%Z
    /\ Qabs (inject_Z n / 100 - s) <= 5 # 1000
    /\ (n = 6000%Z <-> 59995 # 1000 <= s).
Proof.
  intros Hx.
  assert (Ht : 0 <= x / 54000) by (apply Qle_shift_div_l; lra).
  pose proof (ra_arcsec_to_hms_exact x Hx) as Henc.
  pose proof (sexagesimal_spec (x / 54000) Ht) as Hspec.
  destruct (sexagesimal (x / 54000)) as [[h m] s].
  destruct Hspec as (Hh & Hm & Hs0 & Hs60 & _).
  destruct (py_float_seconds s Hs0 Hs60) as (_ & _ & Hn).
  exists (hundredths s).
  refine (conj Henc (conj Hh (conj Hm (conj Hn (conj _ _))))).
  - now apply hundredths_error.
  - split.
    + intros H6000. apply Qnot_lt_le. intros Hlt.
      pose proof (hundredths_below s 60 Hs0) as Hb.
      change (inject_Z 60) with 60 in Hb.
      assert (hundredths s < 100 * 60)%Z by (apply Hb; lra). lia.
    + intros Hge.
      assert (E : inject_Z 6000 / 100 - (5 # 1000) == 59995 # 1000)
        by reflexivity.
      assert (6000 <= hundredths s)%Z
        by (apply (hundredths_above s 6000 Hs0 eq_refl); now rewrite E).
      lia.
Qed.

End ExactRAFields.

Lemma ra_arcsec_to_hms_fields_witness :
  let '(h, m, s) := sexagesimal ((89995 # 100) / 54000) in
  exists n,
    ra_arcsec_to_hms (89995 # 100)%Q
    = Ok (format_0wd 2 h +:+ "h" +:+ format_0wd 2 m +:+ "m"
          +:+ seconds_text n +:+ "s")
    /\ (0 <= h)%Z /\ (0 <= m < 60)%Z /\ (0 <= n <= 6000)%Z
    /\ (Qabs (inject_Z n / 100 - s) <= 5 # 1000)%Q
    /\ (n = 6000%Z <-> (59995 # 1000 <= s)%Q).
Proof.
  apply (ra_arcsec_to_hms_fields (89995 # 100)).
  vm_compute. discriminate.
Defined.

(** ** Exact rationals: the round trip of a declination *)

Section RoundTripDec.
Local Open Scope Q_scope.

Lemma all_degrees_fields_ok : forallb degrees_field_ok (upto 360) = true.
Proof. vm_compute. reflexivity. Qed.

Lemma degrees_parts (k : Z) :
  (0 <= k < 360)%Z ->
  py_float (str_int k) = Ok (inject_Z k) /\ clean "d" (str_int k) = true.
Proof.
  intros Hk. pose proof all_degrees_fields_ok as Hall.
  rewrite forallb_forall in Hall.
  specialize (Hall k (in_upto 360 k Hk)).
  unfold degrees_field_ok in Hall.
  apply andb_true_iff in Hall as [H1 H2].
  split; [now apply result_is_true | exact H2].
Qed.

(** The parser reads back what the encoder writes for [h] degrees, [m]
    arcminutes and [n] hundredths of an arcsecond, below 360 degrees,
    60 arcminutes and 60 arcseconds, with the sign in front. *)
Lemma parse_dec_dms_encoding (negative : bool) (h m n : Z) :
  (0 <= h < 360)%Z -> (0 <= m < 60)%Z -> (0 <= n < 6000)%Z ->
  exists v,
    parse_dec_dms
      (String (if negative then "-" else "+")%char
         (str_int h +:+ "d" +:+ str_int m +:+ "m"
          +:+ seconds_text n +:+ "s")) = Ok v
    /\ v == (if negative then -1 else 1)
            * (inject_Z h + inject_Z m / 60 + (n # 100) / 3600).
Proof.
  intros Hh Hm Hn.
  destruct (degrees_parts h Hh) as (Ph & Ch).
  destruct (two_digit_parts m ltac:(lia)) as (_ & Pm & _ & Cm).
  destruct (seconds_parts n ltac:(lia)) as (Pn & _ & Cn).
  unfold parse_dec_dms.
  assert (R1 : in_half_open (inject_Z h) 360 = true).
  { apply in_half_open_exact. rewrite <- Zlt_Qlt.
    change 0 with (inject_Z 0). rewrite <- Zle_Qle. lia. }
  assert (R2 : in_half_open (inject_Z m) 60 = true).
  { apply in_half_open_exact. rewrite <- Zlt_Qlt.
    change 0 with (inject_Z 0). rewrite <- Zle_Qle. lia. }
  assert (R3 : in_half_open (Qred (n # 100)) 60 = true).
  { apply in_half_open_exact. rewrite Qred_correct.
    unfold Qle, Qlt, inject_Z. cbn. lia. }
  destruct negative; cbn [startswith_char Ascii.eqb Bool.eqb drop_first];
    rewrite !app_String, !app_empty;
    rewrite fields_of_encoding by (assumption || discriminate);
    rewrite (float_or_Ok _ _ _ Ph), (float_or_Ok _ _ _ Pm),
      (float_or_Ok _ _ _ Pn);
    cbn [bind]; rewrite R1, R2, R3; cbn [andb negb];
    unfold fdiv, lit; cbn [feqb fquot fadd fmul of_Q exactQ];
    replace (Qeq_bool (Qred 60) (Qred 0)) with false by reflexivity;
    replace (Qeq_bool (Qred 3600) (Qred 0)) with false by reflexivity;
    cbn [bind]; (eexists; split; [reflexivity |]);
    rewrite !Qred_correct; reflexivity.
Qed.

(** In exact arithmetic, for a declination of less than 360
    degrees in magnitude whose arcseconds do not round up to [60.00],
    [parse_dec_dms (dec_arcsec_to_dms dec_arcsec)] returns a value
    within [0.01 / 3600] degrees of [dec_arcsec / 3600]: the sign and
    the unpadded fields come back. *)
Theorem dec_round_trip (x : Q) :
  Qabs x < 1296000 ->
  snd (sexagesimal (Qabs (x / 3600))) < 59995 # 1000 ->
  exists s v,
    dec_arcsec_to_dms x = Ok s /\ parse_dec_dms s = Ok v
    /\ Qabs (v - x / 3600) <= (1 # 100) / 3600.
Proof.
  intros H360 Hsec.
  assert (Ht : 0 <= Qabs (x / 3600)) by apply Qabs_nonneg.
  pose proof (dec_arcsec_to_dms_exact x) as Henc.
  pose proof (sexagesimal_spec (Qabs (x / 3600)) Ht) as Hspec.
  destruct (sexagesimal (Qabs (x / 3600))) as [[h m] s].
  cbn [snd] in Hsec.
  destruct Hspec as (Hh & Hm & Hs0 & Hs60 & Hsum).
  assert (Hm0 : 0 <= inject_Z m / 60).
  { apply Qle_shift_div_l; [reflexivity |].
    rewrite Qmult_0_l.
    change 0 with (inject_Z 0). rewrite <- Zle_Qle. lia. }
  assert (Hs3600 : 0 <= s / 3600) by (apply Qle_shift_div_l; lra).
  assert (Habs : Qabs (x / 3600) < 360).
  { assert (E : x / 3600 == x * (1 # 3600)) by field.
    rewrite E, Qabs_Qmult.
    change (Qabs (1 # 3600)) with (1 # 3600). lra. }
  assert (Hh360 : (h < 360)%Z).
  { apply Z.lt_nge. intros Hge.
    assert (H' : inject_Z 360 <= inject_Z h)
      by (rewrite <- Zle_Qle; exact Hge).
    change (inject_Z 360) with 360 in H'. lra. }
  assert (Hn : (0 <= hundredths s < 6000)%Z).
  { split.
    - pose proof (py_float_seconds s Hs0 Hs60) as (_ & _ & Hb). lia.
    - apply (hundredths_below s 60 Hs0).
      change (inject_Z 60) with 60. lra. }
  destruct (parse_dec_dms_encoding (Qltb x 0) h m (hundredths s)
              ltac:(lia) Hm Hn) as (v & Hparse & Hv).
  eexists. exists v. split; [exact Henc |]. split; [exact Hparse |].
  pose proof (hundredths_error s Hs0) as Herr.
  apply Qabs_Qle_condition in Herr as [He1 He2].
  assert (Hq : hundredths s # 100 == inject_Z (hundredths s) / 100).
  { unfold Qeq, Qdiv, Qmult, Qinv, inject_Z. cbn. lia. }
  assert (D : forall y, y / 3600 == y * (1 # 3600)) by (intros y; field).
  apply Qabs_Qle_condition. rewrite Hv, Hq.
  set (e := inject_Z (hundredths s) / 100) in *.
  destruct (Qltb x 0) eqn:Hneg.
  - assert (Hx : x < 0).
    { unfold Qltb in Hneg. apply negb_true_iff in Hneg.
      apply Qnot_le_lt. intros Hc. apply Qle_bool_iff in Hc. congruence. }
    assert (Et : Qabs (x / 3600) == - (x / 3600)).
    { apply Qabs_neg. apply Qle_shift_div_r; lra. }
    rewrite Et in Hsum.
    assert (Ex : x / 3600 == - (inject_Z h + inject_Z m / 60 + s / 3600))
      by (rewrite <- Hsum; ring).
    rewrite Ex, !D. split; lra.
  - assert (Hx : 0 <= x).
    { unfold Qltb in Hneg. apply negb_false_iff in Hneg.
      now apply Qle_bool_iff. }
    assert (Et : Qabs (x / 3600) == x / 3600).
    { apply Qabs_pos. apply Qle_shift_div_l; lra. }
    rewrite Et in Hsum. rewrite Hsum, !D. split; lra.
Qed.

End RoundTripDec.

Lemma dec_round_trip_witness :
  exists s v,
    dec_arcsec_to_dms (-73845 : Q) = Ok s /\ parse_dec_dms s = Ok v
    /\ (Qabs (v - (-73845) / 3600) <= (1 # 100) / 3600)%Q.
Proof.
  apply (dec_round_trip (-73845)).
  - vm_compute. reflexivity.
  - vm_compute. reflexivity.
Defined.

(** ** The parsers do not tell the separators apart *)

Section Separators.

Lemma replace_char_absent (old : ascii) (new s : string) :
  no_char old new = true -> no_char old (replace_char old new s) = true.
Proof.
  intros Hn. induction s as [| x s IH]; cbn [replace_char]; [reflexivity |].
  rewrite no_char_app, IH, andb_true_r.
  destruct (Ascii.eqb x old) eqn:Hx; [exact Hn |].
  cbn [no_char]. now rewrite Hx.
Qed.

Lemma replace_char_idem (old : ascii) (new s : string) :
  no_char old new = true ->
  replace_char old new (replace_char old new s) = replace_char old new s.
Proof. intros Hn. now apply replace_char_id, replace_char_absent. Qed.

(** Two replacements that do not touch each other's texts commute. *)
Lemma replace_char_comm (a b : ascii) (na nb s : string) :
  a <> b -> no_char a nb = true -> no_char b na = true ->
  replace_char a na (replace_char b nb s)
  = replace_char b nb (replace_char a na s).
Proof.
  intros Hab Ha Hb. induction s as [| x s IH]; [reflexivity |].
  cbn [replace_char].
  rewrite !replace_char_app, IH.
  destruct (Ascii.eqb_spec x b) as [-> | Hxb].
  - apply Ascii.eqb_neq in Hab. rewrite Ascii.eqb_sym in Hab.
    rewrite Hab. rewrite (replace_char_id a na nb Ha).
    cbn [replace_char]. now rewrite Ascii.eqb_refl, app_empty_r.
  - destruct (Ascii.eqb_spec x a) as [-> | Hxa].
    + rewrite (replace_char_id b nb na Hb).
      cbn [replace_char]. now rewrite Ascii.eqb_refl, app_empty_r.
    + cbn [replace_char].
      apply Ascii.eqb_neq in Hxb, Hxa. now rewrite Hxb, Hxa.
Qed.

(** Writing [a] for [b] first, and then [new] for [a], leaves [new] at
    every [a] and every [b]. *)
Lemma replace_char_merge (a b : ascii) (new s : string) :
  a <> b -> no_char a new = true -> no_char b new = true ->
  replace_char a new (replace_char b (String a "") s)
  = replace_char b new (replace_char a new s).
Proof.
  intros Hab Ha Hb. induction s as [| x s IH]; [reflexivity |].
  cbn [replace_char].
  rewrite !replace_char_app, IH.
  destruct (Ascii.eqb_spec x b) as [-> | Hxb].
  - apply Ascii.eqb_neq in Hab. rewrite Ascii.eqb_sym in Hab.
    rewrite Hab. cbn [replace_char].
    now rewrite !Ascii.eqb_refl, !app_empty_r.
  - destruct (Ascii.eqb_spec x a) as [-> | Hxa].
    + rewrite (replace_char_id b new new Hb).
      cbn [replace_char]. now rewrite Ascii.eqb_refl, app_empty_r.
    + cbn [replace_char].
      apply Ascii.eqb_neq in Hxb, Hxa. now rewrite Hxb, Hxa.
Qed.

(** What the parsers split, for the unit letter [u]: the same for a
    string and for the string with a separator written otherwise. *)
Lemma separators_unit (u : ascii) (s : string) :
  u <> ":"%char ->
  replace_char "s" ""
    (replace_char "m" ":" (replace_char u ":" (replace_char u ":" s)))
  = replace_char "s" "" (replace_char "m" ":" (replace_char u ":" s)).
Proof.
  intros Hu. rewrite replace_char_idem; [reflexivity |].
  cbn [no_char]. apply Ascii.eqb_neq in Hu. rewrite Ascii.eqb_sym in Hu.
  now rewrite Hu.
Qed.

Lemma separators_m (u : ascii) (s : string) :
  u <> ":"%char -> u <> "m"%char ->
  replace_char "s" ""
    (replace_char "m" ":" (replace_char u ":" (replace_char "m" ":" s)))
  = replace_char "s" "" (replace_char "m" ":" (replace_char u ":" s)).
Proof.
  intros Hu Hum.
  assert (Nu : no_char u ":" = true).
  { cbn [no_char]. apply Ascii.eqb_neq in Hu. rewrite Ascii.eqb_sym in Hu.
    now rewrite Hu. }
  rewrite (replace_char_comm u "m" ":" ":" s Hum Nu eq_refl).
  now rewrite replace_char_idem.
Qed.

Lemma separators_s (u : ascii) (s : string) :
  u <> ":"%char -> u <> "s"%char ->
  replace_char "s" ""
    (replace_char "m" ":" (replace_char u ":" (replace_char "s" "" s)))
  = replace_char "s" "" (replace_char "m" ":" (replace_char u ":" s)).
Proof.
  intros Hu Hus.
  rewrite (replace_char_comm u "s" ":" "" s Hus eq_refl eq_refl).
  rewrite (replace_char_comm "m" "s" ":" "" _ ltac:(discriminate)
             eq_refl eq_refl).
  now rewrite replace_char_idem.
Qed.

Lemma separators_swap (u : ascii) (s : string) :
  u <> ":"%char -> u <> "m"%char ->
  replace_char "s" ""
    (replace_char "m" ":"
       (replace_char u ":" (replace_char "m" (String u "") s)))
  = replace_char "s" "" (replace_char "m" ":" (replace_char u ":" s)).
Proof.
  intros Hu Hum.
  assert (Nu : no_char u ":" = true).
  { cbn [no_char]. apply Ascii.eqb_neq in Hu. rewrite Ascii.eqb_sym in Hu.
    now rewrite Hu. }
  rewrite (replace_char_merge u "m" ":" s Hum Nu eq_refl).
  now rewrite replace_char_idem.
Qed.

Context {F : Type} `{FloatArith F}.

(** X7. [parse_ra_hms] does not tell the separators apart: an [h] or
    an [m] written as a colon, an [h] written for an [m], and an [s]
    left out, anywhere in the string, change nothing in what is
    returned or raised.  So ["4:30:15.5"] and ["4m30h15.5"] are read as
    ["4h30m15.5s"] is. *)
Theorem parse_ra_hms_separators (ra_string : string) :
  parse_ra_hms (F := F) (replace_char "h" ":" ra_string)
  = parse_ra_hms ra_string
  /\ parse_ra_hms (F := F) (replace_char "m" ":" ra_string)
     = parse_ra_hms ra_string
  /\ parse_ra_hms (F := F) (replace_char "s" "" ra_string)
     = parse_ra_hms ra_string
  /\ parse_ra_hms (F := F) (replace_char "m" "h" ra_string)
     = parse_ra_hms ra_string.
Proof.
  unfold parse_ra_hms. cbv zeta.
  rewrite (separators_unit "h"), (separators_m "h"), (separators_s "h"),
    (separators_swap "h") by discriminate.
  repeat split; reflexivity.
Qed.

Lemma startswith_replace (c old y : ascii) (new s : string) :
  c <> old -> c <> y ->
  startswith_char c (replace_char old (String y new) s)
  = startswith_char c s.
Proof.
  intros Hc Hy. destruct s as [| x s]; [reflexivity |].
  cbn [replace_char startswith_char].
  destruct (Ascii.eqb_spec x old) as [-> | Hx].
  - rewrite app_String. cbn [startswith_char].
    apply Ascii.eqb_neq in Hc, Hy.
    rewrite Ascii.eqb_sym in Hc, Hy. now rewrite Hc, Hy.
  - reflexivity.
Qed.

(** What follows the sign is replaced as the whole string is. *)
Lemma drop_first_replace (c old : ascii) (new s : string) :
  c <> old -> startswith_char c s = true ->
  drop_first (replace_char old new s) = replace_char old new (drop_first s).
Proof.
  intros Hc Hs. destruct s as [| x s]; [discriminate |].
  cbn [startswith_char] in Hs. apply Ascii.eqb_eq in Hs. subst x.
  now rewrite replace_char_cons_ne by exact Hc.
Qed.

(** X8. [parse_dec_dms] does not tell a [d] or an [m] from a colon,
    wherever it stands: the sign is taken off first, and what follows
    is split at the letters and at the colons alike. *)
Theorem parse_dec_dms_separators (dec_string : string) :
  parse_dec_dms (F := F) (replace_char "d" ":" dec_string)
  = parse_dec_dms dec_string
  /\ parse_dec_dms (F := F) (replace_char "m" ":" dec_string)
     = parse_dec_dms dec_string.
Proof.
  unfold parse_dec_dms.
  rewrite !startswith_replace by discriminate.
  destruct (startswith_char "-" dec_string) eqn:Hminus;
    [| destruct (startswith_char "+" dec_string) eqn:Hplus];
    cbv iota zeta beta;
    rewrite ?(drop_first_replace "-") by (discriminate || assumption);
    rewrite ?(drop_first_replace "+") by (discriminate || assumption);
    rewrite (separators_unit "d"), (separators_m "d") by discriminate;
    split; reflexivity.
Qed.

End Separators.

(** ** Exact rationals: what the parsers return *)

Section ParserRange.
Local Open Scope Q_scope.

Lemma Qltb_lt (p q : Q) : Qltb p q = true <-> p < q.
Proof.
  unfold Qltb. rewrite negb_true_iff. split.
  - intros Hc. apply Qnot_le_lt. intros Hle.
    apply Qle_bool_iff in Hle. congruence.
  - intros Hlt. destruct (Qle_bool q p) eqn:Hc; [| reflexivity].
    apply Qle_bool_iff in Hc. exfalso. now apply (Qlt_not_le _ _ Hlt).
Qed.

(** The sum of three fields that passed the range test. *)
Lemma fields_sum (a b c : Q) (hi : Z) :
  in_half_open a hi && in_half_open b 60 && in_half_open c 60 = true ->
  exists v,
    (let* m := fdiv b (lit 60) in
     let* s := fdiv c (lit 3600) in
     Ok (fadd (fadd a m) s)) = Ok v
    /\ v == a + b / 60 + c / 3600
    /\ 0 <= v /\ v < inject_Z hi + 1 + (1 # 60).
Proof.
  intros Hr.
  apply andb_true_iff in Hr as [Hr Hc]. apply andb_true_iff in Hr as [Ha Hb].
  apply in_half_open_exact in Ha as [Ha0 Ha1], Hb as [Hb0 Hb1],
    Hc as [Hc0 Hc1].
  change (inject_Z 60) with 60 in *.
  unfold fdiv, lit. cbn [feqb fquot fadd of_Q exactQ].
  replace (Qeq_bool (Qred 60) (Qred 0)) with false by reflexivity.
  replace (Qeq_bool (Qred 3600) (Qred 0)) with false by reflexivity.
  cbn [bind]. eexists. split; [reflexivity |].
  assert (E : Qred (Qred (a + Qred (b / Qred 60)) + Qred (c / Qred 3600))
              == a + b / 60 + c / 3600)
    by (rewrite !Qred_correct; reflexivity).
  rewrite E. split; [reflexivity |].
  assert (D60 : b / 60 == b * (1 # 60)) by field.
  assert (D3600 : c / 3600 == c * (1 # 3600)) by field.
  rewrite D60, D3600. split; lra.
Qed.

(** In exact arithmetic a right ascension that [parse_ra_hms]
    returns lies in [[0, 25 + 1/60)] hours: each field is tested
    against its own range, and the fields need not be whole numbers, so
    the sum is not kept below 24. *)
Theorem parse_ra_hms_range (ra_string : string) (v : Q) :
  parse_ra_hms ra_string = Ok v -> 0 <= v /\ v < 25 + (1 # 60).
Proof.
  unfold parse_ra_hms. cbv zeta.
  destruct (split_char ":" _) as [| p0 [| p1 [| p2 [| p3 rest]]]];
    try discriminate.
  destruct (float_or _ p0) as [a |]; [| discriminate].
  destruct (float_or _ p1) as [b |]; [| discriminate].
  destruct (float_or _ p2) as [c |]; [| discriminate].
  cbn [bind].
  destruct (in_half_open a 24 && in_half_open b 60 && in_half_open c 60)
    eqn:Hr; [| discriminate].
  cbn [negb].
  destruct (fields_sum a b c 24 Hr) as (w & Hw & _ & H0 & H1).
  rewrite Hw. intros Hv. injection Hv as <-.
  split; [exact H0 |].
  change (inject_Z 24) with 24 in H1. lra.
Qed.

(** In exact arithmetic a declination that [parse_dec_dms]
    returns is less than [361 + 1/60] degrees in magnitude (the degrees
    are tested against 360, not 90); it is negative or zero for a
    string that starts with [-], and positive or zero for every
    other. *)
Theorem parse_dec_dms_range (dec_string : string) (v : Q) :
  parse_dec_dms dec_string = Ok v ->
  Qabs v < 361 + (1 # 60)
  /\ (if startswith_char "-" dec_string then v <= 0 else 0 <= v).
Proof.
  unfold parse_dec_dms.
  set (signed := if startswith_char "-" dec_string then _ else _).
  assert (Hs : exists rest,
             signed = (Qred (if startswith_char "-" dec_string
                             then -1 else 1), rest)).
  { unfold signed.
    destruct (startswith_char "-" dec_string);
      [| destruct (startswith_char "+" dec_string)];
      eexists; reflexivity. }
  destruct Hs as [rest ->]. cbv zeta iota beta.
  destruct (split_char ":" _) as [| p0 [| p1 [| p2 [| p3 more]]]];
    try discriminate.
  destruct (float_or _ p0) as [a |]; [| discriminate].
  destruct (float_or _ p1) as [b |]; [| discriminate].
  destruct (float_or _ p2) as [c |]; [| discriminate].
  cbn [bind].
  destruct (in_half_open a 360 && in_half_open b 60 && in_half_open c 60)
    eqn:Hr; [| discriminate].
  cbn [negb].
  destruct (fields_sum a b c 360 Hr) as (w & Hw & _ & H0 & H1).
  change (inject_Z 360) with 360 in H1.
  unfold fdiv, lit in *. cbn [feqb fquot fadd fmul of_Q exactQ] in *.
  replace (Qeq_bool (Qred 60) (Qred 0)) with false in * by reflexivity.
  replace (Qeq_bool (Qred 3600) (Qred 0)) with false in * by reflexivity.
  cbn [bind] in *. injection Hw as Hw. rewrite Hw.
  intros Hv. injection Hv as <-.
  destruct (startswith_char "-" dec_string).
  - assert (E : Qred (Qred (-1) * w) == - w)
      by (rewrite !Qred_correct; ring).
    rewrite E, Qabs_opp, Qabs_pos by exact H0. split; lra.
  - assert (E : Qred (Qred 1 * w) == w)
      by (rewrite !Qred_correct; ring).
    rewrite E, Qabs_pos by exact H0. split; lra.
Qed.

End ParserRange.

Lemma parse_ra_hms_range_witness :
  (0 <= 89639 # 3600 /\ 89639 # 3600 < 25 + (1 # 60))%Q.
Proof.
  apply (parse_ra_hms_range "23.9h59m59s" (89639 # 3600)).
  vm_compute. reflexivity.
Defined.

Lemma parse_dec_dms_range_witness :
  (Qabs (-6497977 # 18000) < 361 + (1 # 60)
   /\ (if startswith_char "-" "-359.999d59m59s"
       then (-6497977 # 18000) <= 0 else 0 <= (-6497977 # 18000)))%Q.
Proof.
  apply (parse_dec_dms_range "-359.999d59m59s" (-6497977 # 18000)).
  vm_compute. reflexivity.
Defined.

(** ** [ConfigLoader] *)

Section ConfigFacts.

Context {F : Type} `{FloatArith F}.

Lemma get_loop_default_or_value
    (keys : list string) (k : string) (value default : config F) :
  get_loop (k :: keys) value default = default
  \/ get_loop (k :: keys) value default <> Value PyNone.
Proof.
  revert k value. induction keys as [| k' keys IH]; intros k value.
  - cbn [get_loop]. destruct value as [v | d]; [now left |].
    destruct (d !! k) as [[[] | d'] |]; (now left) || (right; discriminate).
  - cbn [get_loop]. destruct value as [v | d]; [now left |].
    destruct (d !! k) as [[v | d'] |] eqn:Hk; [| | now left].
    + destruct v; (now left) || (apply (IH k' (Value _))).
    + apply (IH k' (Dict d')).
Qed.

(** X10. [ConfigLoader.get] never returns a [None] of the
    configuration: what it returns is the default, or a value other
    than [None].  A key whose value is [None] reads as a key that is
    not there. *)
Theorem get_default_or_value
    (self_config : config F) (key : string) (default : config F) :
  get self_config key default = default
  \/ get self_config key default <> Value PyNone.
Proof.
  unfold get. destruct (split_char "." key) as [| k keys] eqn:Hs.
  - exfalso. destruct key as [| c key]; cbn [split_char] in Hs;
      [discriminate |].
    destruct (Ascii.eqb c "."); [discriminate |].
    destruct (split_char "." key); discriminate.
  - apply get_loop_default_or_value.
Qed.

(** X11. A dotted key is a path: [get] of [k.rest], for a part [k]
    without a dot, looks [k] up in the mapping and goes on with [rest]
    in what it finds; the default comes back when [k] is not there or
    holds [None]. *)
Theorem get_dotted
    (d : gmap string (config F)) (k rest : string) (default : config F) :
  no_char "." k = true ->
  get (Dict d) (k +:+ "." +:+ rest) default
  = match d !! k with
    | None | Some (Value PyNone) => default
    | Some value => get value rest default
    end.
Proof.
  intros Hk. unfold get. rewrite app_String, app_empty.
  rewrite split_char_app_sep by exact Hk. reflexivity.
Qed.

(** What is not a mapping has no keys. *)
Lemma get_of_value (v : pyval F) (key : string) (default : config F) :
  get (Value v) key default = default.
Proof.
  unfold get. destruct (split_char "." key) as [| k keys] eqn:Hs;
    [| reflexivity].
  exfalso. destruct key as [| c key]; cbn [split_char] in Hs;
    [discriminate |].
  destruct (Ascii.eqb c "."); [discriminate |].
  destruct (split_char "." key); discriminate.
Qed.

Lemma size_lookup_Some (d : gmap string (config F)) (k : string)
    (v : config F) :
  d !! k = Some v -> (size d =? 0)%nat = false.
Proof.
  intros Hk. apply Nat.eqb_neq. intros Hs.
  apply map_size_empty_iff in Hs. subst d.
  rewrite lookup_empty in Hk. discriminate.
Qed.

(** X12. [_validate_config] looks at the section [simulation] and at
    nothing else: adding or changing any other key of a configuration
    that is not empty changes nothing in what it returns or raises. *)
Theorem validate_config_other_sections
    (d : gmap string (config F)) (k : string) (v : config F) :
  k <> "simulation" -> d <> ∅ ->
  _validate_config (Dict (<[k := v]> d)) = _validate_config (Dict d).
Proof.
  intros Hk Hd. unfold _validate_config. cbn [falsy if_in].
  rewrite lookup_insert_ne by exact Hk.
  rewrite (size_lookup_Some (<[k := v]> d) k v (lookup_insert_eq d k v)).
  destruct (size d =? 0)%nat eqn:Hs; [| reflexivity].
  exfalso. apply Hd. apply map_size_empty_iff. now apply Nat.eqb_eq.
Qed.

Lemma validate_redshifts_loop_within (zs : list (pyval F)) (b : bool) :
  validate_redshifts_loop zs = Ok b ->
  b = true /\ Forall (within MIN_REDSHIFT MAX_REDSHIFT) zs.
Proof.
  induction zs as [| z rest IH]; intros Hok.
  - cbn in Hok. injection Hok as <-. now split.
  - destruct (within_or_not MIN_REDSHIFT MAX_REDSHIFT z) as [Hz | Hz].
    + rewrite (proj1 (validate_redshifts_loop_cons z rest) Hz) in Hok.
      destruct (IH Hok) as [-> Hall]. split; [reflexivity |].
      now constructor.
    + destruct (proj2 (validate_redshifts_loop_cons z rest) Hz) as [msg Hm].
      rewrite Hm in Hok. discriminate.
Qed.

(** [validate_redshifts] returns for the lists it accepts, and that
    is all. *)
Lemma validate_redshifts_returns (v : pyval F) :
  (let* _ := validate_redshifts v in Ok tt) = Ok tt
  <-> exists zs, v = PyList zs /\ zs <> []
                 /\ Forall (within MIN_REDSHIFT MAX_REDSHIFT) zs.
Proof.
  split.
  - destruct v as [| b | n | x | s | zs]; try discriminate.
    cbn [validate_redshifts].
    destruct zs as [| z rest]; [discriminate |].
    cbn [length Nat.eqb].
    destruct (validate_redshifts_loop (z :: rest)) as [b | e] eqn:Hl;
      [| discriminate].
    intros _. exists (z :: rest).
    split; [reflexivity |]. split; [discriminate |].
    now apply (validate_redshifts_loop_within _ b).
  - intros (zs & -> & Hne & Hall).
    now rewrite validate_redshifts_ok.
Qed.

Lemma validate_spectral_index_returns (v : pyval F) :
  (let* _ := validate_spectral_index v in Ok tt) = Ok tt
  <-> within MIN_SPECTRAL_INDEX MAX_SPECTRAL_INDEX v.
Proof.
  rewrite <- (proj1 (validate_spectral_index_iff v)).
  unfold validate_spectral_index.
  destruct (isinstance_int_float v) eqn:Hn; cbn [negb].
  - destruct (chained_le_numeric MIN_SPECTRAL_INDEX MAX_SPECTRAL_INDEX
                v Hn) as [[|] Hb]; rewrite Hb; cbn [bind negb].
    + tauto.
    + split; discriminate.
  - split; discriminate.
Qed.

End ConfigFacts.

Section ConfigBinary64.

(** X13. On binary64, for a configuration whose section [simulation]
    is a mapping, [_validate_config] returns exactly when [redshifts],
    if it is there, is a non-empty list of numbers of [[0, 10]], and
    [spectral_index], if it is there, is a number of [[-5, 0]]; no
    other key is looked at. *)
Theorem validate_config_checks
    (d sim : gmap string (config float)) :
  d !! "simulation" = Some (Dict sim) ->
  _validate_config (Dict d) = Ok tt
  <-> (forall v, sim !! "redshifts" = Some v ->
         exists zs, v = Value (PyList zs) /\ zs <> []
                    /\ Forall (in_interval 0 10) zs)
      /\ (forall v, sim !! "spectral_index" = Some v ->
            exists a, v = Value a /\ in_interval (-5) 0 a).
Proof.
  intros Hsim. unfold _validate_config. cbn [falsy if_in].
  rewrite (size_lookup_Some d _ _ Hsim), Hsim. cbn [if_in].
  assert (Hz : forall v : config float,
             (let* _ := validate_redshifts (plain v) in Ok tt) = Ok tt
             <-> exists zs, v = Value (PyList zs) /\ zs <> []
                            /\ Forall (in_interval 0 10) zs).
  { intros v. rewrite validate_redshifts_returns. split.
    - intros (zs & Hv & Hne & Hall). exists zs.
      destruct v as [p | m]; cbn [plain] in Hv; [| discriminate].
      subst p. split; [reflexivity |]. split; [exact Hne |].
      eapply Forall_impl; [exact Hall |].
      intros z Hw. now apply within_redshift_range.
    - intros (zs & -> & Hne & Hall). exists zs.
      split; [reflexivity |]. split; [exact Hne |].
      eapply Forall_impl; [exact Hall |].
      intros z Hw. now apply within_redshift_range. }
  assert (Ha : forall v : config float,
             (let* _ := validate_spectral_index (plain v) in Ok tt) = Ok tt
             <-> exists a, v = Value a /\ in_interval (-5) 0 a).
  { intros v. rewrite validate_spectral_index_returns,
      within_spectral_range. split.
    - intros Hin. destruct v as [p | m]; cbn [plain] in Hin.
      + now exists p.
      + destruct Hin as (q & Hq & _). discriminate.
    - now intros (a & -> & Hin). }
  destruct (sim !! "redshifts") as [vz |] eqn:Ez;
    destruct (sim !! "spectral_index") as [va |] eqn:Ea; cbv beta.
  - split.
    + intros Hok.
      destruct (let* _ := validate_redshifts (plain vz) in Ok tt)
        as [[] |] eqn:E1; [| discriminate].
      cbn [bind] in Hok. split.
      * intros v Hv. injection Hv as <-. now apply Hz.
      * intros v Hv. injection Hv as <-. now apply Ha.
    + intros [H1 H2].
      rewrite (proj2 (Hz vz) (H1 vz eq_refl)). cbn [bind].
      exact (proj2 (Ha va) (H2 va eq_refl)).
  - split.
    + intros Hok.
      destruct (let* _ := validate_redshifts (plain vz) in Ok tt)
        as [[] |] eqn:E1; [| discriminate].
      split.
      * intros v Hv. injection Hv as <-. now apply Hz.
      * intros v Hv. discriminate.
    + intros [H1 _].
      now rewrite (proj2 (Hz vz) (H1 vz eq_refl)).
  - cbn [bind]. split.
    + intros Hok. split.
      * intros v Hv. discriminate.
      * intros v Hv. injection Hv as <-. now apply Ha.
    + intros [_ H2]. exact (proj2 (Ha va) (H2 va eq_refl)).
  - cbn [bind]. split; [| reflexivity].
    intros _. split; intros v Hv; discriminate.
Qed.

(** X14. The default configuration passes the validation of the
    loader, and [get] finds its values by their dotted keys: the 13
    redshifts, the spectral index [-1.6], the image size; a key that
    goes below a plain value, or that is not there, gives the
    default. *)
Theorem create_default_config_valid :
  _validate_config (F := float) create_default_config = Ok tt
  /\ get (F := float) create_default_config "simulation.redshifts"
       (Value PyNone)
     = Value (PyList (map PyFloat
         [0.05; 0.1; 0.13; 0.15; 0.17; 0.2; 0.3; 0.4; 0.5; 0.6; 0.8; 0.9;
          1.0]%float))
  /\ get (F := float) create_default_config "simulation.spectral_index"
       (Value PyNone)
     = Value (PyFloat (-1.6)%float)
  /\ get (F := float) create_default_config "image.image_size" (Value PyNone)
     = Value (PyInt 7200)
  /\ get (F := float) create_default_config "image.image_size.pixels"
       (Value (PyInt 0))
     = Value (PyInt 0)
  /\ get (F := float) create_default_config "simulation.noise"
       (Value (PyStr "0.0Jy"))
     = Value (PyStr "0.0Jy").
Proof. vm_compute. repeat split; reflexivity. Qed.

End ConfigBinary64.

Lemma get_dotted_witness :
  get (F := float) (Dict {["a" := Dict {["b" := Value (PyInt 1)]}]}) "a.b"
    (Value PyNone)
  = match ({["a" := Dict {["b" := Value (PyInt 1)]}]}
           : gmap string (config float)) !! "a" with
    | None | Some (Value PyNone) => Value PyNone
    | Some value => get value "b" (Value PyNone)
    end.
Proof.
  apply (get_dotted (F := float)
           {["a" := Dict {["b" := Value (PyInt 1)]}]} "a" "b" (Value PyNone)).
  reflexivity.
Defined.

Lemma validate_config_other_sections_witness :
  _validate_config (F := float)
    (Dict (<["source" := Dict {["flux_density_jy" := Value (PyInt (-1))]}]>
             {["simulation" := Dict ∅]}))
  = _validate_config (Dict {["simulation" := Dict ∅]}).
Proof.
  apply (validate_config_other_sections (F := float)).
  - discriminate.
  - intros Hc.
    apply (f_equal (fun m : gmap string (config float) => m !! "simulation"))
      in Hc.
    vm_compute in Hc. discriminate.
Defined.

Lemma validate_config_checks_witness :
  _validate_config (F := float)
    (Dict {["simulation" :=
              Dict {["spectral_index" := Value (PyFloat 1%float)]}]})
  = Ok tt
  <-> (forall v,
         ({["spectral_index" := Value (PyFloat 1%float)]}
          : gmap string (config float)) !! "redshifts" = Some v ->
         exists zs, v = Value (PyList zs) /\ zs <> []
                    /\ Forall (in_interval 0 10) zs)
      /\ (forall v,
            ({["spectral_index" := Value (PyFloat 1%float)]}
             : gmap string (config float)) !! "spectral_index" = Some v ->
            exists a, v = Value a /\ in_interval (-5) 0 a).
Proof.
  apply (validate_config_checks
           {["simulation" :=
               Dict {["spectral_index" := Value (PyFloat 1%float)]}]}
           {["spectral_index" := Value (PyFloat 1%float)]}).
  reflexivity.
Defined.

(** ** The sign of a declination *)

Section SignFacts.

Context {F : Type} `{FloatArith F}.

(** X9. The sign in front of a declination does what a sign does: for
    a string with no sign of its own, a [+] in front changes nothing,
    and with a [-] in front the parser returns [-1.0 * w] where it
    returns [1.0 * w] without, for the same [w], or raises the same
    exception. *)
Theorem parse_dec_dms_sign (dec_string : string) :
  startswith_char "-" dec_string = false ->
  startswith_char "+" dec_string = false ->
  parse_dec_dms (F := F) (String "+" dec_string) = parse_dec_dms dec_string
  /\ ((exists w : F,
         parse_dec_dms dec_string = Ok (fmul (lit 1) w)
         /\ parse_dec_dms (String "-" dec_string) = Ok (fmul (lit (-1)) w))
      \/ (exists e : exn,
            parse_dec_dms (F := F) dec_string = Raise e
            /\ parse_dec_dms (F := F) (String "-" dec_string) = Raise e)).
Proof.
  intros Hminus Hplus. unfold parse_dec_dms.
  rewrite Hminus, Hplus.
  cbn [startswith_char drop_first Ascii.eqb Bool.eqb].
  cbv zeta iota beta.
  split; [reflexivity |].
  destruct (split_char ":" _) as [| p0 [| p1 [| p2 [| p3 more]]]];
    try (right; eexists; split; reflexivity).
  destruct (float_or _ p0) as [a | e];
    [| right; eexists; split; reflexivity].
  destruct (float_or _ p1) as [b | e];
    [| right; eexists; split; reflexivity].
  destruct (float_or _ p2) as [c | e];
    [| right; eexists; split; reflexivity].
  cbn [bind].
  destruct (in_half_open a 360 && in_half_open b 60 && in_half_open c 60);
    [| right; eexists; split; reflexivity].
  cbn [negb].
  destruct (fdiv b (lit 60)) as [m | e];
    [| right; eexists; split; reflexivity].
  cbn [bind].
  destruct (fdiv c (lit 3600)) as [s | e];
    [| right; eexists; split; reflexivity].
  cbn [bind]. left. eexists. split; reflexivity.
Qed.

End SignFacts.

Lemma parse_dec_dms_sign_witness :
  parse_dec_dms (F := float) (String "+" "20d30m45.5s")
  = parse_dec_dms "20d30m45.5s"
  /\ ((exists w : float,
         parse_dec_dms "20d30m45.5s" = Ok (fmul (lit 1) w)
         /\ parse_dec_dms (String "-" "20d30m45.5s")
            = Ok (fmul (lit (-1)) w))
      \/ (exists e : exn,
            parse_dec_dms (F := float) "20d30m45.5s" = Raise e
            /\ parse_dec_dms (F := float) (String "-" "20d30m45.5s")
               = Raise e)).
Proof.
  apply (parse_dec_dms_sign (F := float) "20d30m45.5s"); reflexivity.
Defined.

(** ** Regular expressions *)

Section RegexFacts.

Lemma matches_Never (s : string) : matches Never s = false.
Proof. induction s as [| c s IH]; [reflexivity | exact IH]. Qed.

Lemma matches_Empty (s : string) : matches Empty s = true <-> s = "".
Proof.
  destruct s as [| c s]; cbn [matches deriv nullable].
  - tauto.
  - rewrite matches_Never. split; discriminate.
Qed.

Lemma matches_Alt (r1 r2 : regex) (s : string) :
  matches (Alt r1 r2) s = matches r1 s || matches r2 s.
Proof.
  revert r1 r2. induction s as [| c s IH]; intros r1 r2; [reflexivity |].
  cbn [matches deriv]. apply IH.
Qed.

Lemma matches_Never_Seq (r : regex) (s : string) :
  matches (Seq Never r) s = false.
Proof. induction s as [| c s IH]; [reflexivity | exact IH]. Qed.

(** A match of a sequence is a match of each part. *)
Lemma matches_Seq (r1 r2 : regex) (s : string) :
  matches (Seq r1 r2) s = true <->
  exists s1 s2, s = s1 +:+ s2 /\ matches r1 s1 = true
                /\ matches r2 s2 = true.
Proof.
  revert r1 r2. induction s as [| c s IH]; intros r1 r2.
  - cbn [matches nullable]. rewrite andb_true_iff. split.
    + intros [H1 H2]. now exists "", "".
    + intros (s1 & s2 & Hs & H1 & H2).
      destruct s1 as [| x s1]; [| discriminate].
      destruct s2 as [| y s2]; [| discriminate]. now split.
  - cbn [matches deriv].
    destruct (nullable r1) eqn:Hn.
    + rewrite matches_Alt, orb_true_iff, IH. split.
      * intros [(s1 & s2 & -> & H1 & H2) | H2].
        -- exists (String c s1), s2. now rewrite app_String.
        -- exists "", (String c s). now rewrite app_empty.
      * intros (s1 & s2 & Hs & H1 & H2).
        destruct s1 as [| x s1].
        -- right. rewrite app_empty in Hs. now subst s2.
        -- left. rewrite app_String in Hs. injection Hs as -> ->.
           now exists s1, s2.
    + rewrite IH. split.
      * intros (s1 & s2 & -> & H1 & H2).
        exists (String c s1), s2. now rewrite app_String.
      * intros (s1 & s2 & Hs & H1 & H2).
        destruct s1 as [| x s1].
        -- cbn [matches] in H1. congruence.
        -- rewrite app_String in Hs. injection Hs as -> ->.
           now exists s1, s2.
Qed.

Lemma matches_Char (c : ascii) (s : string) :
  matches (Char c) s = true <-> s = String c "".
Proof.
  destruct s as [| x s]; cbn [matches deriv nullable].
  - split; discriminate.
  - destruct (Ascii.eqb_spec x c) as [-> | Hne].
    + rewrite matches_Empty. split; [now intros -> | now intros [= ->]].
    + rewrite matches_Never. split; [discriminate | intros [= -> _]].
      now exfalso.
Qed.

Lemma matches_Digit (s : string) :
  matches Digit s = true <-> exists c, s = String c "" /\ is_digit c = true.
Proof.
  destruct s as [| x s]; cbn [matches deriv nullable].
  - split; [discriminate | intros (c & Hc & _); discriminate].
  - unfold is_digit. destruct (digit_of_ascii x) eqn:Hx.
    + rewrite matches_Empty. split.
      * intros ->. exists x. now rewrite Hx.
      * now intros (c & [= -> ->] & _).
    + rewrite matches_Never. split; [discriminate |].
      intros (c & [= -> ->] & Hc). now rewrite Hx in Hc.
Qed.

Lemma matches_Star_Digit (s : string) :
  matches (Star Digit) s = true -> all_digits s = true.
Proof.
  induction s as [| x s IH]; [reflexivity |].
  cbn [matches deriv all_digits]. unfold is_digit.
  destruct (digit_of_ascii x).
  - intros Hm. apply matches_Seq in Hm as (s1 & s2 & Hs & H1 & H2).
    apply matches_Empty in H1. subst s1. rewrite app_empty in Hs.
    subst s2. now rewrite (IH H2).
  - now rewrite matches_Never_Seq.
Qed.

(** [\d{1,2}] matches digits only, one at least. *)
Lemma matches_one_or_two_digits (s : string) :
  matches one_or_two_digits s = true ->
  all_digits s = true /\ s <> "".
Proof.
  unfold one_or_two_digits, Opt. intros Hm.
  apply matches_Seq in Hm as (s1 & s2 & -> & H1 & H2).
  apply matches_Digit in H1 as (c & -> & Hc).
  rewrite matches_Alt, orb_true_iff, matches_Empty in H2.
  rewrite app_String, app_empty. cbn [all_digits]. rewrite Hc.
  split; [| discriminate].
  destruct H2 as [H2 | ->]; [| reflexivity].
  apply matches_Digit in H2 as (c2 & -> & Hc2).
  cbn [all_digits]. now rewrite Hc2.
Qed.

(** [(?:\.\d+)?] matches nothing, or a point and digits, one at
    least. *)
Lemma matches_decimals (s : string) :
  matches decimals s = true ->
  s = "" \/ exists f, s = String "." f /\ all_digits f = true /\ f <> "".
Proof.
  unfold decimals, Opt, Plus. intros Hm.
  rewrite matches_Alt, orb_true_iff, matches_Empty in Hm.
  destruct Hm as [Hm | ->]; [| now left].
  right. apply matches_Seq in Hm as (s1 & s2 & -> & H1 & H2).
  apply matches_Char in H1. subst s1.
  apply matches_Seq in H2 as (d & ds & -> & Hd & Hds).
  apply matches_Digit in Hd as (c & -> & Hc).
  apply matches_Star_Digit in Hds.
  exists (String c ds). rewrite !app_String, !app_empty.
  split; [reflexivity |]. split; [| discriminate].
  cbn [all_digits]. now rewrite Hc, Hds.
Qed.

End RegexFacts.

(** ** The text of a number *)

Section NumberText.

Lemma rev_app_spec (s1 s2 : string) :
  String.rev_app s1 s2 = String.rev s1 +:+ s2.
Proof.
  revert s2. induction s1 as [| a s1 IH]; intros s2; [reflexivity |].
  unfold String.rev. cbn [String.rev_app].
  rewrite (IH (String a s2)), (IH (String a "")).
  now rewrite app_assoc_string, app_String, app_empty.
Qed.

Lemma rev_cons (a : ascii) (s : string) :
  String.rev (String a s) = String.rev s +:+ String a "".
Proof. unfold String.rev at 1. cbn [String.rev_app]. apply rev_app_spec. Qed.

Lemma rev_app_distr (a b : string) :
  String.rev (a +:+ b) = String.rev b +:+ String.rev a.
Proof.
  induction a as [| x a IH].
  - now rewrite app_empty, app_empty_r.
  - now rewrite app_String, !rev_cons, IH, app_assoc_string.
Qed.

Lemma rev_involutive (s : string) : String.rev (String.rev s) = s.
Proof.
  induction s as [| x s IH]; [reflexivity |].
  rewrite rev_cons, rev_app_distr, IH. reflexivity.
Qed.

Lemma all_digits_rev (s : string) :
  all_digits (String.rev s) = all_digits s.
Proof.
  induction s as [| x s IH]; [reflexivity |].
  rewrite rev_cons, all_digits_app, IH. cbn [all_digits].
  now rewrite andb_true_r, andb_comm.
Qed.

Lemma is_digit_code (c : ascii) :
  is_digit c = true -> 48 <= Z.of_N (N_of_ascii c) <= 57.
Proof.
  unfold is_digit, digit_of_ascii.
  destruct (_ && _) eqn:Hc; [| discriminate].
  apply andb_true_iff in Hc as [H1 H2]. lia.
Qed.

Lemma digit_not_space (c : ascii) : is_digit c = true -> is_space c = false.
Proof.
  intros Hc. apply is_digit_code in Hc. unfold is_space.
  repeat match goal with
         | |- context [(?a <=? ?b)] => destruct (Z.leb_spec a b)
         | |- context [(?a =? ?b)] => destruct (Z.eqb_spec a b)
         end; try reflexivity; lia.
Qed.

Lemma digit_not_char (c x : ascii) :
  is_digit c = true ->
  (Z.of_N (N_of_ascii x) < 48 \/ 57 < Z.of_N (N_of_ascii x)) ->
  Ascii.eqb c x = false.
Proof.
  intros Hc Hx. apply is_digit_code in Hc.
  apply Ascii.eqb_neq. intros ->. lia.
Qed.

(** A string of digits, one at least, starts with a digit. *)
Lemma all_digits_head (s : string) :
  all_digits s = true -> s <> "" ->
  exists c r, s = String c r /\ is_digit c = true /\ all_digits r = true.
Proof.
  destruct s as [| c r]; [congruence |].
  cbn [all_digits]. intros Hs _. apply andb_true_iff in Hs as [Hc Hr].
  now exists c, r.
Qed.

Lemma all_digits_no_char (x : ascii) (s : string) :
  (Z.of_N (N_of_ascii x) < 48 \/ 57 < Z.of_N (N_of_ascii x)) ->
  all_digits s = true -> no_char x s = true.
Proof.
  intros Hx. induction s as [| c s IH]; [reflexivity |].
  cbn [all_digits no_char]. intros Hs.
  apply andb_true_iff in Hs as [Hc Hr].
  now rewrite (digit_not_char c x Hc Hx), IH.
Qed.

(** The numbers of the patterns: digits, and after them nothing, or a
    point and digits. *)
Lemma strip_number (t tail : string) (c0 cl : ascii) (r0 rl : string) :
  t = String c0 r0 -> is_space c0 = false ->
  String.rev t = String cl rl -> is_space cl = false ->
  tail = "" \/ tail = String "010" "" ->
  strip (t +:+ tail) = t.
Proof.
  intros Ht H0 Hr Hl Htail. unfold strip.
  assert (L1 : lstrip (t +:+ tail) = t +:+ tail).
  { rewrite Ht, app_String. cbn [lstrip]. now rewrite H0. }
  rewrite L1, rev_app_distr, Hr.
  assert (L2 : lstrip (String.rev tail +:+ String cl rl) = String cl rl).
  { destruct Htail as [-> | ->].
    - rewrite app_empty. cbn [lstrip]. now rewrite Hl.
    - change (String.rev (String "010" "")) with (String "010" "").
      rewrite app_String, app_empty. cbn [lstrip].
      change (is_space "010") with true. cbn iota. now rewrite Hl. }
  rewrite L2, <- Hr. apply rev_involutive.
Qed.

Lemma scan_digits_digits (i rest : string) :
  all_digits i = true ->
  rest = "" \/ (exists r, rest = String "." r) ->
  forall after_digit,
  exists ds, scan_digits after_digit (i +:+ rest) = (ds, rest)
             /\ (i <> "" -> ds <> []).
Proof.
  intros Hi Hrest. induction i as [| c i IH]; intros after_digit.
  - rewrite app_empty. exists []. split; [| congruence].
    destruct Hrest as [-> | [r ->]]; [reflexivity |].
    cbn [scan_digits]. change (digit_of_ascii ".") with (@None Z).
    cbn iota. change (Ascii.eqb "." "_") with false.
    now rewrite andb_false_r.
  - cbn [all_digits] in Hi. apply andb_true_iff in Hi as [Hc Hi].
    rewrite app_String. cbn [scan_digits].
    unfold is_digit in Hc. destruct (digit_of_ascii c) as [d |];
      [| discriminate].
    destruct (IH Hi true) as (ds & -> & _).
    exists (d :: ds). split; [reflexivity | discriminate].
Qed.

Lemma parse_number_text (i d : string) :
  all_digits i = true -> i <> "" ->
  d = "" \/ (exists f, d = String "." f /\ all_digits f = true /\ f <> "") ->
  exists q, parse_number (i +:+ d) = Some q.
Proof.
  intros Hi Hne Hd. unfold parse_number.
  destruct Hd as [-> | (f & -> & Hf & Hfne)].
  - destruct (scan_digits_digits i "" Hi (or_introl eq_refl) false)
      as (ds & -> & Hds).
    specialize (Hds Hne). destruct ds as [| x ds]; [congruence |].
    cbn [app]. eexists. reflexivity.
  - destruct (scan_digits_digits i (String "." f) Hi
                (or_intror (ex_intro _ f eq_refl)) false)
      as (ds & -> & Hds).
    destruct (scan_digits_digits f "" Hf (or_introl eq_refl) false)
      as (fs & Hfs & _).
    rewrite app_empty_r in Hfs. cbn iota. rewrite Hfs.
    specialize (Hds Hne). destruct ds as [| x ds]; [congruence |].
    cbn [app]. eexists. reflexivity.
Qed.

(** [float] reads such a number, also with a newline after it. *)
Lemma py_float_number (i d tail : string) :
  all_digits i = true -> i <> "" ->
  d = "" \/ (exists f, d = String "." f /\ all_digits f = true /\ f <> "") ->
  tail = "" \/ tail = String "010" "" ->
  returns (py_float (F := float) ((i +:+ d) +:+ tail)).
Proof.
  intros Hi Hne Hd Htail.
  destruct (all_digits_head i Hi Hne) as (c0 & r0 & Ei & Hc0 & Hr0).
  assert (Hlast : exists cl rl,
             String.rev (i +:+ d) = String cl rl /\ is_digit cl = true).
  { rewrite rev_app_distr.
    destruct Hd as [-> | (f & -> & Hf & Hfne)].
    - rewrite app_empty.
      destruct (all_digits_head (String.rev i)) as (cl & rl & E & Hc & _).
      + now rewrite all_digits_rev.
      + intros E. apply (f_equal String.rev) in E.
        rewrite rev_involutive in E. now subst i.
      + now exists cl, rl.
    - rewrite rev_cons, app_assoc_string.
      destruct (all_digits_head (String.rev f)) as (cl & rl & E & Hc & _).
      + now rewrite all_digits_rev.
      + intros E. apply (f_equal String.rev) in E.
        rewrite rev_involutive in E. now subst f.
      + rewrite E, app_String. now eexists _, _. }
  destruct Hlast as (cl & rl & Erev & Hcl).
  destruct (parse_number_text i d Hi Hne Hd) as (q & Hq).
  unfold py_float, parse_float_text.
  rewrite (strip_number (i +:+ d) tail c0 cl (r0 +:+ d) rl);
    [| now rewrite Ei, app_String | now apply digit_not_space
     | exact Erev | now apply digit_not_space | exact Htail].
  assert (Hsign : scan_sign (i +:+ d) = (false, i +:+ d)).
  { rewrite Ei, app_String. unfold scan_sign.
    pose proof (digit_not_char c0 "-" Hc0 ltac:(left; cbn; lia)) as H1.
    pose proof (digit_not_char c0 "+" Hc0 ltac:(left; cbn; lia)) as H2.
    destruct c0 as [[] [] [] [] [] [] [] []]; try reflexivity;
      discriminate. }
  rewrite Hsign.
  assert (Hword : forall (w : ascii) (r : string),
             (Z.of_N (N_of_ascii w) < 48 \/ 57 < Z.of_N (N_of_ascii w)) ->
             String.eqb (lower_string (String c0 (r0 +:+ d))) (String w r)
             = false).
  { intros w r Hw. cbn [lower_string String.eqb].
    assert (El : lower c0 = c0).
    { apply is_digit_code in Hc0. unfold lower.
      destruct ((65 <=? N_of_ascii c0)%N && (N_of_ascii c0 <=? 90)%N)
        eqn:Hup; [| reflexivity].
      apply andb_true_iff in Hup as [H1 H2].
      apply N.leb_le in H1, H2. lia. }
    rewrite El, (digit_not_char c0 w Hc0 Hw). reflexivity. }
  rewrite Ei, app_String.
  rewrite (Hword "n"%char "an" ltac:(right; cbn; lia)).
  rewrite (Hword "i"%char "nf" ltac:(right; cbn; lia)).
  rewrite (Hword "i"%char "nfinity" ltac:(right; cbn; lia)).
  cbn [orb]. rewrite <- app_String, <- Ei, Hq.
  eexists. reflexivity.
Qed.

End NumberText.

(** ** What [validate_coordinate_string] accepts, the parsers read *)

Section ValidatedCoordinates.

Lemma without_final_newline_spec (s s' : string) :
  without_final_newline s = Some s' -> s = s' +:+ String "010" "".
Proof.
  revert s'. induction s as [| c s IH]; intros s'; [discriminate |].
  cbn [without_final_newline]. destruct s as [| c2 s2].
  - destruct (Ascii.eqb_spec c "010") as [-> | Hne]; [| discriminate].
    now intros [= <-].
  - destruct (without_final_newline (String c2 s2)) as [r |];
      [| discriminate].
    intros [= <-]. now rewrite (IH r eq_refl), app_String.
Qed.

(** A match of [re_match] is a match of the string, or of the string
    without the newline that ends it. *)
Lemma re_match_tail (r : regex) (s : string) :
  re_match r s = true ->
  exists core tail,
    s = core +:+ tail /\ matches r core = true
    /\ (tail = "" \/ tail = String "010" "").
Proof.
  unfold re_match. intros Hm. apply orb_true_iff in Hm as [Hm | Hm].
  - exists s, "". rewrite app_empty_r. now repeat split; [| left].
  - destruct (without_final_newline s) as [s' |] eqn:Hs; [| discriminate].
    exists s', (String "010" "").
    split; [now apply without_final_newline_spec |]. now split; [| right].
Qed.

(** The three fields of a string that matches: two runs of digits and
    a number. *)
Lemma matches_fields (u : ascii) (s : string) :
  matches
    (Seq one_or_two_digits
       (Seq (Char u)
          (Seq one_or_two_digits
             (Seq (Char "m")
                (Seq (Seq one_or_two_digits decimals) (Char "s")))))) s
  = true ->
  exists a b i d,
    s = a +:+ String u (b +:+ String "m" ((i +:+ d) +:+ String "s" ""))
    /\ (all_digits a = true /\ a <> "")
    /\ (all_digits b = true /\ b <> "")
    /\ (all_digits i = true /\ i <> "")
    /\ (d = ""
        \/ exists f, d = String "." f /\ all_digits f = true /\ f <> "").
Proof.
  intros Hm.
  apply matches_Seq in Hm as (a & s1 & -> & Ha & Hm).
  apply matches_Seq in Hm as (cu & s2 & -> & Hu & Hm).
  apply matches_Seq in Hm as (b & s3 & -> & Hb & Hm).
  apply matches_Seq in Hm as (cm & s4 & -> & Hcm & Hm).
  apply matches_Seq in Hm as (c & cs & -> & Hc & Hs).
  apply matches_Seq in Hc as (i & d & -> & Hi & Hd).
  apply matches_Char in Hu, Hcm, Hs. subst cu cm cs.
  exists a, b, i, d. rewrite !app_String, !app_empty.
  split; [reflexivity |].
  split; [now apply matches_one_or_two_digits |].
  split; [now apply matches_one_or_two_digits |].
  split; [now apply matches_one_or_two_digits |].
  now apply matches_decimals.
Qed.

Lemma clean_digits (u : ascii) (a : string) :
  u = "h"%char \/ u = "d"%char -> all_digits a = true -> clean u a = true.
Proof.
  intros Hu Ha. unfold clean.
  rewrite !all_digits_no_char by (exact Ha || (right; cbn; lia)
                                  || (destruct Hu as [-> | ->];
                                      right; cbn; lia)).
  reflexivity.
Qed.

Lemma clean_number (u : ascii) (i d tail : string) :
  u = "h"%char \/ u = "d"%char -> all_digits i = true ->
  d = "" \/ (exists f, d = String "." f /\ all_digits f = true /\ f <> "") ->
  tail = "" \/ tail = String "010" "" ->
  clean u ((i +:+ d) +:+ tail) = true.
Proof.
  intros Hu Hi Hd Htail. unfold clean. rewrite !no_char_app.
  pose proof (clean_digits u i Hu Hi) as Ci. unfold clean in Ci.
  repeat match type of Ci with
         | _ && _ = true => apply andb_true_iff in Ci as [Ci ?]
         end.
  assert (Cd : clean u d = true).
  { destruct Hd as [-> | (f & -> & Hf & _)]; [reflexivity |].
    pose proof (clean_digits u f Hu Hf) as Cf. unfold clean in *.
    cbn [no_char].
    repeat match type of Cf with
           | _ && _ = true => apply andb_true_iff in Cf as [Cf ?]
           end.
    destruct Hu as [-> | ->]; cbn; now repeat (apply andb_true_iff; split). }
  assert (Ct : clean u tail = true).
  { destruct Htail as [-> | ->]; [reflexivity |].
    destruct Hu as [-> | ->]; reflexivity. }
  unfold clean in Cd, Ct.
  repeat match type of Cd with
         | _ && _ = true => apply andb_true_iff in Cd as [Cd ?]
         end.
  repeat match type of Ct with
         | _ && _ = true => apply andb_true_iff in Ct as [Ct ?]
         end.
  repeat (apply andb_true_iff; split); assumption.
Qed.

(** The fields of such a string come back from the replacements and
    the split of the parsers, the newline with the last one. *)
Lemma fields_of_text (u : ascii) (a b c tail : string) :
  u <> "m"%char -> u <> "s"%char -> u <> ":"%char ->
  clean u a = true -> clean u b = true -> clean u (c +:+ tail) = true ->
  split_char ":"
    (replace_char "s" ""
       (replace_char "m" ":"
          (replace_char u ":"
             ((a +:+ String u (b +:+ String "m" (c +:+ String "s" "")))
              +:+ tail))))
  = [a; b; c +:+ tail].
Proof.
  intros Hum Hus Huc Ha Hb Hc.
  assert (Hc' := Hc). unfold clean in Hc'. rewrite !no_char_app in Hc'.
  repeat match goal with
         | H : _ && _ = true |- _ => apply andb_true_iff in H as [? ?]
         end.
  assert (Cc : clean u c = true)
    by (unfold clean; repeat (apply andb_true_iff; split); assumption).
  assert (Ct : clean u tail = true)
    by (unfold clean; repeat (apply andb_true_iff; split); assumption).
  set (A := a +:+ String u (b +:+ String "m" (c +:+ String "s" ""))).
  rewrite (replace_char_app u ":" A tail).
  rewrite (replace_char_app "m" ":" (replace_char u ":" A)).
  rewrite (replace_char_app "s" "" (replace_char "m" ":" _)).
  subst A.
  assert (Et : replace_char "s" ""
                 (replace_char "m" ":" (replace_char u ":" tail)) = tail).
  { rewrite (replace_char_id u ":" tail) by assumption.
    rewrite (replace_char_id "m" ":" tail) by assumption.
    now rewrite (replace_char_id "s" "" tail) by assumption. }
  rewrite Et.
  assert (Ef : replace_char "s" ""
                 (replace_char "m" ":"
                    (replace_char u ":"
                       (a +:+ String u (b +:+ String "m" (c +:+ "s")))))
               = a +:+ String ":" (b +:+ String ":" c)).
  { unfold clean in Ha, Hb, Cc.
    repeat match goal with
           | H : _ && _ = true |- _ => apply andb_true_iff in H as [? ?]
           end.
    rewrite (replace_char_field u) by assumption.
    rewrite replace_char_cons_eq, app_String, app_empty.
    rewrite (replace_char_field u) by assumption.
    rewrite (replace_char_cons_ne u "m") by congruence.
    rewrite (replace_char_field u) by assumption.
    rewrite (replace_char_cons_ne u "s") by congruence.
    cbn [replace_char].
    rewrite (replace_char_field "m") by assumption.
    rewrite (replace_char_cons_ne "m" ":") by discriminate.
    rewrite (replace_char_field "m") by assumption.
    rewrite replace_char_cons_eq, app_String, app_empty.
    rewrite (replace_char_field "m") by assumption.
    rewrite (replace_char_cons_ne "m" "s") by discriminate.
    cbn [replace_char].
    rewrite (replace_char_field "s") by assumption.
    rewrite (replace_char_cons_ne "s" ":") by discriminate.
    rewrite (replace_char_field "s") by assumption.
    rewrite (replace_char_cons_ne "s" ":") by discriminate.
    rewrite (replace_char_field "s") by assumption.
    rewrite replace_char_cons_eq, app_empty.
    cbn [replace_char]. now rewrite app_empty_r. }
  rewrite Ef. repeat (rewrite app_assoc_string || rewrite app_String).
  unfold clean in Ha, Hb, Hc.
  repeat match goal with
         | H : _ && _ = true |- _ => apply andb_true_iff in H as [? ?]
         end.
  rewrite split_char_app_sep by assumption.
  rewrite split_char_app_sep by assumption.
  now rewrite split_char_none.
Qed.

(** After the split: three fields that [float] reads end in a value or
    in the range test. *)
Lemma fields_read (msg range : string) (hi : Z) (final : float -> float)
    (p0 p1 p2 : string) :
  returns (py_float (F := float) p0) ->
  returns (py_float (F := float) p1) ->
  returns (py_float (F := float) p2) ->
  let r :=
    let* a := float_or msg p0 in
    let* b := float_or msg p1 in
    let* c := float_or msg p2 in
    if negb (in_half_open a hi && in_half_open b 60 && in_half_open c 60)
    then Raise (ValueError range)
    else
      let* m := fdiv b (lit 60) in
      let* s := fdiv c (lit 3600) in
      Ok (final (fadd (fadd a m) s)) in
  returns r \/ r = Raise (ValueError range).
Proof.
  intros H0 H1 H2. cbv zeta.
  destruct (float_or_cases msg p0) as [(a & _ & ->) | [Hn _]];
    [| contradiction].
  destruct (float_or_cases msg p1) as [(b & _ & ->) | [Hn _]];
    [| contradiction].
  destruct (float_or_cases msg p2) as [(c & _ & ->) | [Hn _]];
    [| contradiction].
  cbn [bind].
  destruct (in_half_open a hi && in_half_open b 60 && in_half_open c 60);
    cbn [negb]; [| now right].
  left. unfold fdiv.
  replace (feqb (lit (F := float) 60) (lit 0)) with false
    by (vm_compute; reflexivity).
  replace (feqb (lit (F := float) 3600) (lit 0)) with false
    by (vm_compute; reflexivity).
  cbn [bind]. eexists. reflexivity.
Qed.

End ValidatedCoordinates.

Section ValidatedCoordinatesParse.

Lemma py_float_digits (a : string) :
  all_digits a = true -> a <> "" -> returns (py_float (F := float) a).
Proof.
  intros Ha Hne.
  pose proof (py_float_number a "" "" Ha Hne (or_introl eq_refl)
                (or_introl eq_refl)) as Hr.
  now rewrite !app_empty_r in Hr.
Qed.

(** The three fields after the split, for a string that matches the
    pattern of its unit letter. *)
Lemma matched_fields (u : ascii) (core tail : string) :
  u = "h"%char \/ u = "d"%char ->
  matches
    (Seq one_or_two_digits
       (Seq (Char u)
          (Seq one_or_two_digits
             (Seq (Char "m")
                (Seq (Seq one_or_two_digits decimals) (Char "s")))))) core
  = true ->
  tail = "" \/ tail = String "010" "" ->
  exists p0 p1 p2 c0 r0,
    split_char ":"
      (replace_char "s" ""
         (replace_char "m" ":" (replace_char u ":" (core +:+ tail))))
    = [p0; p1; p2]
    /\ returns (py_float (F := float) p0)
    /\ returns (py_float (F := float) p1)
    /\ returns (py_float (F := float) p2)
    /\ core = String c0 r0 /\ is_digit c0 = true.
Proof.
  intros Hu Hm Htail.
  apply matches_fields in Hm
    as (a & b & i & d & -> & [Ha Hane] & [Hb Hbne] & [Hi Hine] & Hd).
  exists a, b, ((i +:+ d) +:+ tail).
  destruct (all_digits_head a Ha Hane) as (c0 & r0 & Ea & Hc0 & _).
  exists c0, (r0 +:+ String u (b +:+ String "m" ((i +:+ d) +:+ "s"))).
  split; [| split; [| split; [| split; [| split]]]].
  - apply fields_of_text.
    + destruct Hu as [-> | ->]; discriminate.
    + destruct Hu as [-> | ->]; discriminate.
    + destruct Hu as [-> | ->]; discriminate.
    + now apply clean_digits.
    + now apply clean_digits.
    + now apply clean_number.
  - now apply py_float_digits.
  - now apply py_float_digits.
  - now apply py_float_number.
  - now rewrite Ea, app_String.
  - exact Hc0.
Qed.

(** X15. What [validate_coordinate_string] accepts as a right
    ascension, [parse_ra_hms] reads: the string splits into three
    fields that are numbers, and the parser returns a value, or raises
    the [ValueError] of its range test, as for ["99h99m99s"]; it never
    ends in a [ValueError] of the format. *)
Theorem validate_coordinate_string_ra_parses
    (coord_string coord_type : string) :
  lower_string coord_type = "ra" ->
  validate_coordinate_string coord_string coord_type = Ok true ->
  returns (parse_ra_hms (F := float) coord_string)
  \/ parse_ra_hms (F := float) coord_string
     = Raise (ValueError "RA values out of range").
Proof.
  intros Hra. unfold validate_coordinate_string. rewrite Hra.
  cbn [String.eqb Ascii.eqb Bool.eqb andb bind].
  destruct (re_match ra_pattern coord_string) eqn:Hm; [| discriminate].
  intros _.
  apply re_match_tail in Hm as (core & tail & -> & Hm & Htail).
  destruct (matched_fields "h" core tail (or_introl eq_refl) Hm Htail)
    as (p0 & p1 & p2 & _ & _ & Hsplit & H0 & H1 & H2 & _).
  unfold parse_ra_hms. cbv zeta. rewrite Hsplit.
  exact (fields_read "Could not parse RA components"
           "RA values out of range" 24 (fun x => x) p0 p1 p2 H0 H1 H2).
Qed.

(** X16. What [validate_coordinate_string] accepts as a declination,
    with a sign or without, [parse_dec_dms] reads: the parser returns a
    value or raises the [ValueError] of its range test, and never one
    of the format. *)
Theorem validate_coordinate_string_dec_parses
    (coord_string coord_type : string) :
  lower_string coord_type = "dec" ->
  validate_coordinate_string coord_string coord_type = Ok true ->
  returns (parse_dec_dms (F := float) coord_string)
  \/ parse_dec_dms (F := float) coord_string
     = Raise (ValueError "DEC values out of range").
Proof.
  intros Hdec. unfold validate_coordinate_string. rewrite Hdec.
  cbn [String.eqb Ascii.eqb Bool.eqb andb bind].
  destruct (re_match dec_pattern coord_string) eqn:Hm; [| discriminate].
  intros _.
  apply re_match_tail in Hm as (whole & tail & -> & Hm & Htail).
  unfold dec_pattern in Hm.
  apply matches_Seq in Hm as (sg & core & -> & Hsg & Hm).
  destruct (matched_fields "d" core tail (or_intror eq_refl) Hm Htail)
    as (p0 & p1 & p2 & c0 & r0 & Hsplit & H0 & H1 & H2 & Ecore & Hc0).
  unfold Opt in Hsg.
  rewrite !matches_Alt, !orb_true_iff, !matches_Char, matches_Empty in Hsg.
  unfold parse_dec_dms.
  destruct Hsg as [[-> | ->] | ->].
  - rewrite !app_String, !app_empty.
    cbn [startswith_char drop_first Ascii.eqb Bool.eqb].
    cbv zeta iota beta. rewrite Hsplit.
    exact (fields_read "Could not parse DEC components"
             "DEC values out of range" 360 (fmul (lit 1)) p0 p1 p2
             H0 H1 H2).
  - rewrite !app_String, !app_empty.
    cbn [startswith_char drop_first Ascii.eqb Bool.eqb].
    cbv zeta iota beta. rewrite Hsplit.
    exact (fields_read "Could not parse DEC components"
             "DEC values out of range" 360 (fmul (lit (-1))) p0 p1 p2
             H0 H1 H2).
  - rewrite app_empty.
    assert (Hs1 : startswith_char "-" (core +:+ tail) = false).
    { rewrite Ecore, app_String. cbn [startswith_char].
      apply digit_not_char; [exact Hc0 | left; cbn; lia]. }
    assert (Hs2 : startswith_char "+" (core +:+ tail) = false).
    { rewrite Ecore, app_String. cbn [startswith_char].
      apply digit_not_char; [exact Hc0 | left; cbn; lia]. }
    rewrite Hs1, Hs2. cbv zeta iota beta. rewrite Hsplit.
    exact (fields_read "Could not parse DEC components"
             "DEC values out of range" 360 (fmul (lit 1)) p0 p1 p2
             H0 H1 H2).
Qed.

End ValidatedCoordinatesParse.

Lemma validate_coordinate_string_ra_parses_witness :
  returns (parse_ra_hms (F := float) "99h99m99s")
  \/ parse_ra_hms (F := float) "99h99m99s"
     = Raise (ValueError "RA values out of range").
Proof.
  apply (validate_coordinate_string_ra_parses "99h99m99s" "RA");
    reflexivity.
Defined.

Lemma validate_coordinate_string_dec_parses_witness :
  returns (parse_dec_dms (F := float) "-20d30m45.50s")
  \/ parse_dec_dms (F := float) "-20d30m45.50s"
     = Raise (ValueError "DEC values out of range").
Proof.
  apply (validate_coordinate_string_dec_parses "-20d30m45.50s" "dec");
    reflexivity.
Defined.

(** ** What [validate_image_parameters] accepts *)

Section ValidatedImageParameters.

Lemma matches_Word (w s : string) : matches (Word w) s = true -> s = w.
Proof.
  revert s. induction w as [| c w IH]; intros s; cbn [Word].
  - now rewrite matches_Empty.
  - intros Hm. apply matches_Seq in Hm as (s1 & s2 & -> & H1 & H2).
    apply matches_Char in H1. subst s1.
    now rewrite (IH s2 H2), app_String, app_empty.
Qed.

Lemma matches_Plus_Digit (s : string) :
  matches (Plus Digit) s = true -> all_digits s = true /\ s <> "".
Proof.
  unfold Plus. intros Hm.
  apply matches_Seq in Hm as (d & ds & -> & Hd & Hds).
  apply matches_Digit in Hd as (c & -> & Hc).
  apply matches_Star_Digit in Hds.
  rewrite app_String, app_empty. cbn [all_digits].
  rewrite Hc, Hds. now split.
Qed.

(** A string that matches is a number [float] reads, the unit, and at
    most a newline. *)
Lemma re_match_number_with_unit (unit s : string) :
  re_match (number_with_unit unit) s = true ->
  exists n tail,
    s = (n +:+ unit) +:+ tail
    /\ returns (py_float (F := float) n)
    /\ (tail = "" \/ tail = String "010" "").
Proof.
  intros Hm.
  apply re_match_tail in Hm as (core & tail & -> & Hm & Htail).
  unfold number_with_unit in Hm.
  apply matches_Seq in Hm as (i & r & -> & Hi & Hm).
  apply matches_Seq in Hm as (d & w & -> & Hd & Hw).
  apply matches_Plus_Digit in Hi as [Hi Hne].
  apply matches_decimals in Hd. apply matches_Word in Hw. subst w.
  exists (i +:+ d), tail. split; [| split].
  - now rewrite !app_assoc_string.
  - pose proof (py_float_number i d "" Hi Hne Hd (or_introl eq_refl)) as Hr.
    now rewrite app_empty_r in Hr.
  - exact Htail.
Qed.

(** X17. What [validate_image_parameters] accepts is a cell size and
    a frequency made of a number that [float] reads, the unit [arcsec]
    or [GHz], and at most a newline after it, with an image size that
    is a positive [int]; [True] is one.  The number of the cell size is
    not tested against zero. *)
Theorem validate_image_parameters_accepted
    (cell_size : string) (image_size : pyval float) (frequency : string) :
  validate_image_parameters cell_size image_size frequency = Ok true ->
  (exists n tail,
     cell_size = (n +:+ "arcsec") +:+ tail
     /\ returns (py_float (F := float) n)
     /\ (tail = "" \/ tail = String "010" ""))
  /\ (exists k,
        (image_size = PyInt k
         \/ exists b, image_size = PyBool b /\ k = bool_to_int b)
        /\ 0 < k)
  /\ (exists n tail,
        frequency = (n +:+ "GHz") +:+ tail
        /\ returns (py_float (F := float) n)
        /\ (tail = "" \/ tail = String "010" "")).
Proof.
  unfold validate_image_parameters.
  destruct (re_match (number_with_unit "arcsec") cell_size) eqn:Hc;
    [| discriminate].
  cbn [negb].
  destruct image_size as [| b | k | x | s | l];
    cbn [isinstance_int negb bind val_le_int]; try discriminate.
  - destruct (Z.leb_spec (bool_to_int b) 0) as [Hle | Hlt]; [discriminate |].
    destruct (re_match (number_with_unit "GHz") frequency) eqn:Hf;
      [| discriminate].
    intros _. split; [now apply re_match_number_with_unit |].
    split; [| now apply re_match_number_with_unit].
    exists (bool_to_int b). split; [right; now exists b | exact Hlt].
  - destruct (Z.leb_spec k 0) as [Hle | Hlt]; [discriminate |].
    destruct (re_match (number_with_unit "GHz") frequency) eqn:Hf;
      [| discriminate].
    intros _. split; [now apply re_match_number_with_unit |].
    split; [| now apply re_match_number_with_unit].
    exists k. split; [now left | exact Hlt].
Qed.

End ValidatedImageParameters.

Lemma validate_image_parameters_accepted_witness :
  (exists n tail,
     "0.00arcsec" = (n +:+ "arcsec") +:+ tail
     /\ returns (py_float (F := float) n)
     /\ (tail = "" \/ tail = String "010" ""))
  /\ (exists k,
        (PyBool (F := float) true = PyInt k
         \/ exists b, PyBool (F := float) true = PyBool b
                      /\ k = bool_to_int b)
        /\ 0 < k)
  /\ (exists n tail,
        "9.2GHz" = (n +:+ "GHz") +:+ tail
        /\ returns (py_float (F := float) n)
        /\ (tail = "" \/ tail = String "010" "")).
Proof.
  apply (validate_image_parameters_accepted "0.00arcsec" (PyBool true)
           "9.2GHz").
  reflexivity.
Defined.
